(** * Field and weather data processors: a shallow embedding

    The two processors of [field_data_processor.py] and
    [weather_data_processor.py] are embedded as state-passing functions over a
    small model of the data frames they manipulate.  Python exceptions are
    values of [result]; a processor object is a record whose methods return
    the updated record, and an exception ends the run.

    The pandas operations the methods call ([rename], [abs], [apply],
    [str.strip], [merge], [drop], [groupby], [mean], [unstack], column
    access and assignment) are given the meaning they have on frames whose
    columns are read and written by name and whose numeric columns are
    [float64] columns: numbers are binary64 floats, strings are sequences of
    code points below 256.  A label that occurs twice is read and written at
    its first column; where pandas does otherwise the statements ask for
    distinct labels.  The log of a
    processor is the list of the records it was asked to log; the loggers of
    the [logging] module, with their levels and handlers, are modelled
    apart, for [initialize_logging]. *)

From Stdlib Require Import ZArith String Ascii List Floats Uint63 Lia.
From stdpp Require Import base option list gmap strings.

Local Open Scope string_scope.
Local Open Scope list_scope.

(** ** Exceptions and results *)

(** The exceptions the modelled code can raise.  [LoopBound] is not a Python
    exception: it marks the exhaustion of the iteration bound given to the
    [while] loop of [rename_columns]; [rename_columns_total] shows that it is
    never produced. *)
Inductive exn :=
| KeyError | IndexError | StopIteration | ValueError | TypeError
| AttributeError | MergeError | ReError | LoopBound.

Inductive result (A : Type) :=
| Return (a : A)
| Raise (e : exn).
Arguments Return {A} a.
Arguments Raise {A} e.

(** Sequencing, with stdpp's [x ← r; k] notation. *)
#[global] Instance result_bind : MBind result := fun A B k r =>
  match r with
  | Return a => k a
  | Raise e => Raise e
  end.

#[global] Instance result_fmap : FMap result := fun A B f r =>
  match r with
  | Return a => Return (f a)
  | Raise e => Raise e
  end.

Definition from_option {A} (e : exn) (o : option A) : result A :=
  match o with
  | Some a => Return a
  | None => Raise e
  end.

(** [f] applied to the elements from left to right, stopping at the first
    exception. *)
Fixpoint map_result {A B} (f : A → result B) (l : list A) : result (list B) :=
  match l with
  | [] => Return []
  | a :: l' => b ← f a; bs ← map_result f l'; Return (b :: bs)
  end.

(** ** Logging *)

Inductive level := DEBUG | INFO | WARNING.

(** A call to the logger: its level and its message. *)
Definition log_record : Type := level * string.

(** ** Data frames *)

#[global] Instance float_eq_dec : EqDecision float.
Proof.
  intros x y. destruct (PrimFloat.Leibniz.eqb x y) eqn:E.
  - left. by apply FloatAxioms.Leibniz.eqb_spec.
  - right. intros H. apply FloatAxioms.Leibniz.eqb_spec in H. congruence.
Defined.

(** A cell of a data frame: [None], a number or a string.  Numbers are
    binary64 floats, [NaN] (the missing value of a numeric column) included;
    the integer identifiers of the data sets are carried as the floats they
    convert to. *)
Inductive cell :=
| CNull
| CNum (x : float)
| CStr (s : string).

#[global] Instance cell_eq_dec : EqDecision cell.
Proof. solve_decision. Defined.

(** pandas' [isna]. *)
Definition is_null (c : cell) : bool :=
  match c with
  | CNull => true
  | CNum x => PrimFloat.is_nan x
  | CStr _ => false
  end.

Definition is_num (c : cell) : bool :=
  match c with
  | CNum _ => true
  | _ => false
  end.

Definition is_string (c : cell) : bool :=
  match c with
  | CStr _ => true
  | _ => false
  end.

(** A data frame: the column labels in order (pandas allows a label to occur
    more than once) and the rows, each aligned with the labels. *)
Record DataFrame := mkDF {
  columns : list string;
  rows : list (list cell)
}.

Definition wf_df (d : DataFrame) : Prop :=
  Forall (fun r => length r = length (columns d)) (rows d).

(** Position of the first column labelled [c]. *)
Fixpoint index_of (c : string) (cols : list string) : option nat :=
  match cols with
  | [] => None
  | l :: cols' => if decide (l = c) then Some 0 else S <$> index_of c cols'
  end.

(** The cells of row [r] that stand under label [c] (one per occurrence of
    the label). *)
Fixpoint cells_under (c : string) (cols : list string) (r : list cell)
  : list cell :=
  match cols, r with
  | l :: cols', v :: r' =>
      if decide (l = c) then v :: cells_under c cols' r'
      else cells_under c cols' r'
  | _, _ => []
  end.

(** The data stored under a column name: for every row, its cells under that
    name. *)
Definition col_data (d : DataFrame) (c : string) : list (list cell) :=
  map (cells_under c (columns d)) (rows d).

(** [DataFrame.rename(columns=m)]: every label that is a key of [m] is
    replaced, the others and the data stay. *)
Definition rename_label (m : gmap string string) (l : string) : string :=
  default l (m !! l).

Definition df_rename (m : gmap string string) (d : DataFrame) : DataFrame :=
  mkDF (map (rename_label m) (columns d)) (rows d).

(** [d[c]] for a single column: the cells of the column labelled [c],
    [KeyError] when there is none.  Of several columns with the label the
    first is read, where pandas hands out all of them as a frame. *)
Definition df_get (c : string) (d : DataFrame) : result (list cell) :=
  i ← from_option KeyError (index_of c (columns d));
  Return (map (fun r => default CNull (r !! i)) (rows d)).

(** [d[c] = s]: the column labelled [c] is overwritten, or a new last column
    is added when the label is new; [ValueError] when [s] has not one value
    per row.  Of several columns with the label the first is written, where
    pandas writes all of them. *)
Definition df_set (c : string) (s : list cell) (d : DataFrame)
  : result DataFrame :=
  if decide (length s = length (rows d)) then
    match index_of c (columns d) with
    | Some i =>
        Return (mkDF (columns d)
                     (zip_with (fun r v => <[i := v]> r) (rows d) s))
    | None =>
        Return (mkDF (columns d ++ [c])
                     (zip_with (fun r v => r ++ [v]) (rows d) s))
    end
  else Raise ValueError.

(** [Series.abs()] on a [float64] column: the absolute value of a number,
    [NaN] for [NaN]; [None] and strings have no absolute value.  (On a
    column of 64-bit integers, which this model does not have, the least
    integer is its own absolute value.) *)
Definition cell_abs (c : cell) : result cell :=
  match c with
  | CNum x => Return (CNum (PrimFloat.abs x))
  | _ => Raise TypeError
  end.

Definition series_abs (s : list cell) : result (list cell) :=
  map_result cell_abs s.

(** Python's [str.isspace] on the code points below 256: the controls 9-13
    (tab to carriage return), the separators 28-31, the space, the next-line
    control 133 and the no-break space 160. *)
Definition is_space (a : ascii) : bool :=
  let n := nat_of_ascii a in
  (Nat.leb 9 n && Nat.leb n 13) || (Nat.leb 28 n && Nat.leb n 32)
  || Nat.eqb n 133 || Nat.eqb n 160.

Fixpoint lstrip (s : string) : string :=
  match s with
  | EmptyString => EmptyString
  | String a s' => if is_space a then lstrip s' else s
  end.

Fixpoint rstrip (s : string) : string :=
  match s with
  | EmptyString => EmptyString
  | String a s' =>
      match rstrip s' with
      | EmptyString => if is_space a then EmptyString else String a EmptyString
      | t => String a t
      end
  end.

(** [str.strip()] with no argument. *)
Definition strip (s : string) : string := rstrip (lstrip s).

(** What [Series.str.strip()] does to an element: a string is stripped, a
    missing value stays, any other value becomes [NaN]. *)
Definition str_strip_cell (c : cell) : cell :=
  match c with
  | CStr s => CStr (strip s)
  | CNull => CNull
  | CNum _ => CNum PrimFloat.nan
  end.

(** The [.str] accessor is refused ([AttributeError]) on a column whose
    values are numbers only: it takes a column with a string, or with nothing
    but [None]. *)
Definition str_accessor_ok (s : list cell) : bool :=
  existsb is_string s || forallb (fun c => negb (is_num c)) s.

Definition series_str_strip (s : list cell) : result (list cell) :=
  if str_accessor_ok s then Return (map str_strip_cell s)
  else Raise AttributeError.

(** [values_to_rename.get(crop, crop)]: the keys of the mapping are strings,
    so any other value passes through. *)
Definition dict_get_cell (m : gmap string string) (c : cell) : cell :=
  match c with
  | CStr s => CStr (default s (m !! s))
  | _ => c
  end.

(** Whether a label stands over more than one column: [d[c]] is then a
    frame of these columns, not a column. *)
Definition repeated (c : string) (cols : list string) : bool :=
  Nat.ltb 1 (length (filter (fun l => l = c) cols)).

(** [s.apply(lambda crop: m.get(crop, crop))] for [s = d[c]]: on a column
    every value is looked up; when the label is repeated the lambda is
    handed the columns of the frame one by one, and a column is no key of a
    dict ([TypeError]). *)
Definition apply_get (m : gmap string string) (frame : bool) (s : list cell)
  : result (list cell) :=
  if frame then Raise TypeError else Return (map (dict_get_cell m) s).

(** The crop-type normalization of one value: the lookup, then the strip. *)
Definition normalize_crop (m : gmap string string) (c : cell) : cell :=
  str_strip_cell (dict_get_cell m c).

(** *** Left join *)

(** The cells of row [r] outside the columns labelled [c]. *)
Fixpoint cells_not_under (c : string) (cols : list string) (r : list cell)
  : list cell :=
  match cols, r with
  | l :: cols', v :: r' =>
      if decide (l = c) then cells_not_under c cols' r'
      else v :: cells_not_under c cols' r'
  | _, _ => []
  end.

(** [d.drop(columns=c)]: [KeyError] when no column has the label. *)
Definition df_drop (c : string) (d : DataFrame) : result DataFrame :=
  if decide (c ∈ columns d) then
    Return (mkDF (filter (fun l => l ≠ c) (columns d))
                 (map (cells_not_under c (columns d)) (rows d)))
  else Raise KeyError.

(** The suffix a label gets in a merge when both frames have it outside the
    key. *)
Definition merge_label (on sfx : string) (other : list string) (l : string)
  : string :=
  if decide (l ≠ on ∧ l ∈ other) then String.append l sfx else l.

(** A value as a key of a join or of a grouping: the two zeros are one key,
    and so are the missing values; any other value is a key of its own. *)
Definition key_norm (c : cell) : cell :=
  match c with
  | CNull => CNum PrimFloat.nan
  | CNum x => if PrimFloat.eqb x 0 then CNum 0%float else c
  | CStr _ => c
  end.

(** The rows a left row contributes to a left join: one per right row with
    the same key, in the right frame's order, and one filled with [NaN] when
    there is none. *)
Definition join_row (i j width : nat) (right : list (list cell))
    (lr : list cell) : list (list cell) :=
  let key := key_norm (default CNull (lr !! i)) in
  match filter (fun rr => key_norm (default CNull (rr !! j)) = key) right with
  | [] => [lr ++ replicate width (CNum PrimFloat.nan)]
  | ms => map (fun rr => lr ++ delete j rr) ms
  end.

(** A column that holds no number: strings, or [None]. *)
Definition no_number (keys : list cell) : bool :=
  forallb (fun c => negb (is_num c)) keys.

(** The check of the key columns before a merge: a column without a number
    is not merged with a column of numbers.  Columns that mix numbers with
    other cells are let through. *)
Definition key_kinds_clash (lkeys rkeys : list cell) : bool :=
  negb (bool_decide (lkeys = [])) && negb (bool_decide (rkeys = []))
  && ((forallb is_num lkeys && no_number rkeys)
      || (no_number lkeys && forallb is_num rkeys)).

(** [Index.duplicated()]: whether a label has occurred before. *)
Fixpoint duplicated_after (seen l : list string) : list bool :=
  match l with
  | [] => []
  | x :: l' => bool_decide (x ∈ seen) :: duplicated_after (x :: seen) l'
  end.

Definition duplicated (l : list string) : list bool := duplicated_after [] l.

(** Whether the suffixes made a label occur twice that did not before. *)
Definition suffix_collision (labels renamed : list string) : bool :=
  existsb (fun p => snd p && negb (fst p))
          (zip (duplicated labels) (duplicated renamed)).

(** [l.merge(r, on=on, how='left')]: the key column comes once, from the left
    frame, followed by the other columns of [l] and then of [r].  The merge
    is refused when a frame has no or several columns named [on]
    ([KeyError], [ValueError]), when the key columns are of different kinds
    ([ValueError]) and when the suffixes make labels collide
    ([MergeError]). *)
Definition merge_left (on : string) (l r : DataFrame) : result DataFrame :=
  i ← from_option KeyError (index_of on (columns l));
  j ← from_option KeyError (index_of on (columns r));
  if repeated on (columns l) || repeated on (columns r) then Raise ValueError
  else
    let lkeys := map (fun lr => default CNull (lr !! i)) (rows l) in
    let rkeys := map (fun rr => default CNull (rr !! j)) (rows r) in
    if key_kinds_clash lkeys rkeys then Raise ValueError
    else
      let rcols := delete j (columns r) in
      let llabels := map (merge_label on "_x" rcols) (columns l) in
      let rlabels := map (merge_label on "_y" (columns l)) rcols in
      if suffix_collision (columns l) llabels || suffix_collision rcols rlabels
      then Raise MergeError
      else
        Return (mkDF (llabels ++ rlabels)
                     (flat_map (join_row i j (length rcols) (rows r))
                               (rows l))).

(** ** The collaborators *)

(** A database engine, known by the locator it was created for. *)
Inductive Engine := EngineFor (locator : string).

(** The functions of the module [data_ingestion], which the processors
    import: they reach the database and the network, and are taken as
    given. *)
Class DataIngestion := {
  create_db_engine : string → result Engine;
  query_data : Engine → string → result DataFrame;
  read_from_web_CSV : string → result DataFrame
}.

(** The capture groups of a match, [None] for a group that took no part. *)
Definition groups : Type := list (option string).

(** Python's [re.search(pattern, message)] on a string (the groups of the
    match, or no match; [ReError] for a pattern that does not compile) and
    the builtin [float] on a string ([ValueError] when it is no number). *)
Class PythonRuntime := {
  re_search : string → string → result (option groups);
  py_float : string → result float
}.

(** ** The loggers *)

(** [str.upper] on the code points below 256, as code points: the letters
    [a]-[z] and the accented small letters become capitals, the sharp s
    becomes [SS], the micro sign and the y with diaeresis leave the range. *)
Definition upper_char (a : ascii) : list nat :=
  let n := nat_of_ascii a in
  if Nat.leb 97 n && Nat.leb n 122 then [n - 32]
  else if Nat.eqb n 181 then [924]
  else if Nat.eqb n 223 then [83; 83]
  else if Nat.leb 224 n && Nat.leb n 254 && negb (Nat.eqb n 247) then [n - 32]
  else if Nat.eqb n 255 then [376]
  else [n].

Definition code_points (s : string) : list nat :=
  nat_of_ascii <$> list_ascii_of_string s.

Definition py_upper (s : string) : list nat :=
  flat_map upper_char (list_ascii_of_string s).

(** A handler of the [logging] module: the console handler with its
    format. *)
Inductive handler := StreamHandler (format : string).

(** A logger of the [logging] module; the level [None] is [NOTSET]. *)
Record Logger := mkLogger {
  propagate : bool;
  disabled : bool;
  logger_level : option level;
  handlers : list handler
}.

(** The logger [logging.getLogger] makes for a name it has not seen. *)
Definition new_logger : Logger := mkLogger true false None [].

(** [logging.getLogger(name)] on the loggers made so far: one logger per
    name, shared by all who ask for it. *)
Definition get_logger (name : string) (loggers : gmap string Logger) : Logger :=
  default new_logger (loggers !! name).

Definition log_format : string :=
  "%(asctime)s - %(name)s - %(levelname)s - %(message)s".

(** The end of [initialize_logging] once a level is chosen: the level is
    set, and a console handler is added unless the logger has one. *)
Definition set_level_and_handler (lg : Logger) (lvl : level) : Logger :=
  mkLogger (propagate lg) (disabled lg) (Some lvl)
           (match handlers lg with
            | [] => [StreamHandler log_format]
            | hs => hs
            end).

(** [initialize_logging], the same in both classes but for the name of the
    logger: the level comes from the upper-cased option, [NONE] disables the
    logger and returns before any level or handler is set. *)
Definition initialize_logging (logger_name logging_level : string)
    (loggers : gmap string Logger) : gmap string Logger :=
  let lg := get_logger logger_name loggers in
  let lg := mkLogger false (disabled lg) (logger_level lg) (handlers lg) in
  let upper := py_upper logging_level in
  if decide (upper = code_points "DEBUG") then
    <[logger_name := set_level_and_handler lg DEBUG]> loggers
  else if decide (upper = code_points "INFO") then
    <[logger_name := set_level_and_handler lg INFO]> loggers
  else if decide (upper = code_points "NONE") then
    <[logger_name := mkLogger (propagate lg) true (logger_level lg)
                              (handlers lg)]> loggers
  else
    <[logger_name := set_level_and_handler lg INFO]> loggers.

(** [config_params]: a dict read at these keys, any of which may be
    missing. *)
Record ConfigParams := mkConfig {
  cfg_db_path : option string;
  cfg_sql_query : option string;
  cfg_columns_to_rename : option (list (string * string));
  cfg_values_to_rename : option (gmap string string);
  cfg_weather_mapping_csv : option string;
  cfg_weather_csv_path : option string;
  cfg_regex_patterns : option (list (string * string))
}.

(** ** The field processor *)

Record FieldDataProcessor := mkField {
  db_path : string;
  sql_query : string;
  columns_to_rename : list (string * string);
  values_to_rename : gmap string string;
  weather_map_data : string;
  df : option DataFrame;
  engine : option Engine;
  field_log : list log_record
}.

Module Field.

Definition set_df (self : FieldDataProcessor) (d : DataFrame)
  : FieldDataProcessor :=
  mkField (db_path self) (sql_query self) (columns_to_rename self)
          (values_to_rename self) (weather_map_data self) (Some d)
          (engine self) (field_log self).

Definition set_engine (self : FieldDataProcessor) (e : Engine)
  : FieldDataProcessor :=
  mkField (db_path self) (sql_query self) (columns_to_rename self)
          (values_to_rename self) (weather_map_data self) (df self)
          (Some e) (field_log self).

Definition field_info (self : FieldDataProcessor) (msg : string)
  : FieldDataProcessor :=
  mkField (db_path self) (sql_query self) (columns_to_rename self)
          (values_to_rename self) (weather_map_data self) (df self)
          (engine self) (field_log self ++ [(INFO, msg)]).

Definition ingest_sql_data `{DataIngestion} (self : FieldDataProcessor)
  : result (DataFrame * FieldDataProcessor) :=
  e ← create_db_engine (db_path self);
  d ← query_data e (sql_query self);
  Return (d, field_info (set_df (set_engine self e) d)
                        "Successfully loaded data.").

(** The loop [while temp_name in self.df.columns: temp_name += "_"], with a
    bound on the number of iterations. *)
Fixpoint probe_temp_name (fuel : nat) (cols : list string) (temp_name : string)
  : option string :=
  match fuel with
  | O => None
  | S fuel' =>
      if decide (temp_name ∈ cols)
      then probe_temp_name fuel' cols (String.append temp_name "_")
      else Some temp_name
  end.

Definition fresh_temp_name (cols : list string) : option string :=
  probe_temp_name (S (length cols)) cols "__temp_name_for_swap__".

(** [rename_columns]: [list(d.keys())[0]] and [list(d.values())[0]] are the
    components of the first pair of the mapping; the dict displays are built
    by insertion, the later key winning. *)
Definition rename_columns (self : FieldDataProcessor)
  : result FieldDataProcessor :=
  '(column1, column2) ←
    from_option IndexError (head (columns_to_rename self));
  d ← from_option AttributeError (df self);
  temp_name ← from_option LoopBound (fresh_temp_name (columns d));
  let d1 :=
    df_rename (<[column2 := column1]> (<[column1 := temp_name]> ∅)) d in
  let d2 := df_rename (<[temp_name := column2]> ∅) d1 in
  Return (field_info (set_df self d2)
            ("Swapped columns: " +:+ column1 +:+ " with " +:+ column2)).

(** [apply_corrections]: the two parameters only reach the log message, the
    columns corrected are always [Elevation] and [Crop_type].  Subscripting
    [self.df] while it is [None] is a [TypeError]. *)
Definition apply_corrections (self : FieldDataProcessor)
    (column_name abs_column : string) : result FieldDataProcessor :=
  d ← from_option TypeError (df self);
  elevation ← df_get "Elevation" d;
  elevation ← series_abs elevation;
  d ← df_set "Elevation" elevation d;
  crop ← df_get "Crop_type" d;
  crop ← apply_get (values_to_rename self)
           (repeated "Crop_type" (columns d)) crop;
  d ← df_set "Crop_type" crop d;
  crop ← df_get "Crop_type" d;
  crop ← series_str_strip crop;
  d ← df_set "Crop_type" crop d;
  Return (field_info (set_df self d)
            ("Applied corrections successfully on: " +:+ column_name
               +:+ " and " +:+ abs_column)).

Definition weather_station_mapping `{DataIngestion} (self : FieldDataProcessor)
  : result (DataFrame * FieldDataProcessor) :=
  weather_map_df ← read_from_web_CSV (weather_map_data self);
  d ← from_option AttributeError (df self);
  d ← merge_left "Field_ID" d weather_map_df;
  d ← df_drop "Unnamed: 0" d;
  Return (d, set_df self d).

Definition process `{DataIngestion} (self : FieldDataProcessor)
  : result FieldDataProcessor :=
  '(_, self) ← ingest_sql_data self;
  self ← rename_columns self;
  self ← apply_corrections self "Crop_type" "Elevation";
  '(_, self) ← weather_station_mapping self;
  Return self.

(** The name of the class's logger, the module being imported under its
    file name. *)
Definition logger_name : string := "field_data_processor.FieldDataProcessor".

(** [__init__]: the configuration is read key by key, the logging is set
    up, and the processor starts without table and engine. *)
Definition __init__ (config_params : ConfigParams) (logging_level : string)
    (loggers : gmap string Logger)
  : result (FieldDataProcessor * gmap string Logger) :=
  db_path ← from_option KeyError (cfg_db_path config_params);
  sql_query ← from_option KeyError (cfg_sql_query config_params);
  columns_to_rename ←
    from_option KeyError (cfg_columns_to_rename config_params);
  values_to_rename ←
    from_option KeyError (cfg_values_to_rename config_params);
  weather_map_data ←
    from_option KeyError (cfg_weather_mapping_csv config_params);
  let loggers := initialize_logging logger_name logging_level loggers in
  Return (mkField db_path sql_query columns_to_rename values_to_rename
                  weather_map_data None None [], loggers).

End Field.

(** ** The weather processor *)

Record WeatherDataProcessor := mkWeather {
  weather_station_data : string;
  patterns : list (string * string);
  weather_df : option DataFrame;
  weather_log : list log_record
}.

Module Weather.

Definition set_weather_df (self : WeatherDataProcessor) (d : DataFrame)
  : WeatherDataProcessor :=
  mkWeather (weather_station_data self) (patterns self) (Some d)
            (weather_log self).

Definition weather_logged (self : WeatherDataProcessor) (lvl : level)
    (msg : string) : WeatherDataProcessor :=
  mkWeather (weather_station_data self) (patterns self) (weather_df self)
            (weather_log self ++ [(lvl, msg)]).

(** The weather processor's [weather_station_mapping] loads the table of
    readings. *)
Definition weather_station_mapping `{DataIngestion}
    (self : WeatherDataProcessor) : result WeatherDataProcessor :=
  d ← read_from_web_CSV (weather_station_data self);
  Return (weather_logged (set_weather_df self d) INFO
            "Successfully loaded weather station data from the web.").

(** [re.search] applied to a cell: anything but a string is a [TypeError]. *)
Definition search_cell `{PythonRuntime} (pattern : string) (message : cell)
  : result (option groups) :=
  match message with
  | CStr s => re_search pattern s
  | _ => Raise TypeError
  end.

(** [next(x for x in match.groups() if x is not None)]. *)
Definition first_non_null (g : groups) : result string :=
  from_option StopIteration (head (omap id g)).

(** What an extraction returns: [(key, value)] or [(None, None)]. *)
Definition measurement : Type := option string * option float.

(** The loop of [extract_measurement] over the items of [self.patterns] that
    are still to be tried. *)
Fixpoint extract_loop `{PythonRuntime} (self : WeatherDataProcessor)
    (items : list (string * string)) (message : cell)
  : result (measurement * WeatherDataProcessor) :=
  match items with
  | [] =>
      Return ((None, None),
              weather_logged self DEBUG "No measurement match found.")
  | (key, pattern) :: items' =>
      m ← search_cell pattern message;
      match m with
      | Some g =>
          let self := weather_logged self DEBUG
                        ("Measurement extracted: " +:+ key) in
          text ← first_non_null g;
          value ← py_float text;
          Return ((Some key, Some value), self)
      | None => extract_loop self items' message
      end
  end.

Definition extract_measurement `{PythonRuntime} (self : WeatherDataProcessor)
    (message : cell) : result (measurement * WeatherDataProcessor) :=
  extract_loop self (patterns self) message.

(** [Series.apply(self.extract_measurement)]: one call per row, in order. *)
Fixpoint apply_extract `{PythonRuntime} (self : WeatherDataProcessor)
    (messages : list cell)
  : result (list measurement * WeatherDataProcessor) :=
  match messages with
  | [] => Return ([], self)
  | message :: messages' =>
      '(r, self) ← extract_measurement self message;
      '(rs, self) ← apply_extract self messages';
      Return (r :: rs, self)
  end.

(** The unpacking of [zip] over the series of pairs into two targets: with
    no row the zip yields nothing and the unpacking raises. *)
Definition unzip_pairs (pairs : list measurement)
  : result (list (option string) * list (option float)) :=
  match pairs with
  | [] => Raise ValueError
  | _ => Return (map fst pairs, map snd pairs)
  end.

Definition kind_cell (k : option string) : cell :=
  match k with
  | Some s => CStr s
  | None => CNull
  end.

(** A tuple of floats and [None] as a column: next to a number [None] is
    stored as [NaN]; with no number at all the column keeps its [None]s. *)
Definition value_cells (vs : list (option float)) : list cell :=
  if existsb (fun v => bool_decide (is_Some v)) vs
  then map (fun v => CNum (default PrimFloat.nan v)) vs
  else map (fun _ => CNull) vs.

Definition process_messages `{PythonRuntime} (self : WeatherDataProcessor)
  : result (option DataFrame * WeatherDataProcessor) :=
  match weather_df self with
  | Some d =>
      messages ← df_get "Message" d;
      '(pairs, self) ← apply_extract self messages;
      '(kinds, values) ← unzip_pairs pairs;
      d ← df_set "Measurement" (map kind_cell kinds) d;
      d ← df_set "Value" (value_cells values) d;
      Return (Some d,
              weather_logged (set_weather_df self d) INFO
                "Messages processed and measurements extracted.")
  | None =>
      Return (None,
              weather_logged self WARNING
                "weather_df is not initialized, skipping message processing.")
  end.

(** *** Means per station and measurement *)

(** The table [unstack] returns: the row labels, the column labels and the
    values, one list per row label. *)
Record Pivot := mkPivot {
  pivot_index : list cell;
  pivot_columns : list cell;
  pivot_values : list (list float)
}.

(** A value as [mean] sees it: missing values are skipped, a string
    raises. *)
Definition cell_value (c : cell) : result (option float) :=
  match c with
  | CNull => Return None
  | CNum x => Return (if PrimFloat.is_nan x then None else Some x)
  | CStr _ => Raise TypeError
  end.

(** One reading: the two group keys and the value. *)
Definition reading : Type := (cell * cell) * option float.

(** [groupby] leaves out the rows with a missing key. *)
Definition grouped {A} (r : (cell * cell) * A) : bool :=
  negb (is_null (fst (fst r))) && negb (is_null (snd (fst r))).

(** The label a key is listed under: the cell of its column that was met
    first among those that are the same key (the zeros of either sign are
    one key). *)
Definition key_label (column : list cell) (c : cell) : cell :=
  default c (head (filter (fun x => key_norm x = key_norm c) column)).

(** A row of the table as the grouping reads it.  The value of a row that
    is left out is not looked at. *)
Definition row_reading (stations kinds : list cell)
    (r : (cell * cell) * cell) : result reading :=
  let k := (key_label stations (fst (fst r)),
            key_label kinds (snd (fst r))) in
  if grouped r then v ← cell_value (snd r); Return (k, v)
  else Return (k, None).

(** The values of every group in the order of the rows, the groups in the
    order in which they were first met. *)
Definition groups : Type := list ((cell * cell) * list (option float)).

Fixpoint accumulate (k : cell * cell) (v : option float) (acc : groups)
  : groups :=
  match acc with
  | [] => [(k, [v])]
  | (k', vs) :: acc' =>
      if decide (k' = k) then (k', vs ++ [v]) :: acc'
      else (k', vs) :: accumulate k v acc'
  end.

Definition group_step (acc : groups) (r : reading) : groups :=
  if grouped r then accumulate (fst r) (snd r) acc else acc.

Definition float_of_nat (n : nat) : float :=
  PrimFloat.of_uint63 (Uint63.of_Z (Z.of_nat n)).

(** What [mean] keeps for a group of a column of numbers: the sum, the
    compensation of the summation and the number of values. *)
Record Sums := mkSums {
  sumx : float;
  compensation : float;
  nobs : nat
}.

(** One value more: Kahan's compensated summation, a compensation that came
    out as [NaN] (after an infinite value) being reset. *)
Definition add_value (a : Sums) (v : option float) : Sums :=
  match v with
  | Some x =>
      let y := PrimFloat.sub x (compensation a) in
      let t := PrimFloat.add (sumx a) y in
      let c := PrimFloat.sub (PrimFloat.sub t (sumx a)) y in
      mkSums t (if PrimFloat.is_nan c then 0%float else c) (S (nobs a))
  | None => a
  end.

(** The mean of a group of a column of numbers. *)
Definition float_mean (vs : list (option float)) : float :=
  let a := fold_left add_value vs (mkSums 0 0 0) in
  match nobs a with
  | O => PrimFloat.nan
  | S _ => PrimFloat.div (sumx a) (float_of_nat (nobs a))
  end.

(** The mean of a group of a column of objects (one that holds a [None] or
    a string): the values are added up from the first one on, a missing
    value standing for zero, and divided by the number of those present. *)
Definition object_mean (vs : list (option float)) : float :=
  let sum := match map (default 0%float) vs with
             | [] => 0%float
             | z :: zs => fold_left PrimFloat.add zs z
             end in
  match length (omap id vs) with
  | O => PrimFloat.nan
  | S n => PrimFloat.div sum (float_of_nat (S n))
  end.

Definition group_mean (float_column : bool) (vs : list (option float))
  : float :=
  if float_column then float_mean vs else object_mean vs.

(** Order of the labels: missing first, numbers before strings. *)
Definition cell_leb (a b : cell) : bool :=
  match a, b with
  | CNull, _ => true
  | CNum x, CNum y => PrimFloat.leb x y
  | CNum _, CStr _ => true
  | CStr s, CStr t => String.leb s t
  | _, _ => false
  end.

Fixpoint insert_sorted (x : cell) (l : list cell) : list cell :=
  match l with
  | [] => [x]
  | y :: l' => if cell_leb x y then x :: l else y :: insert_sorted x l'
  end.

Definition sort_labels (l : list cell) : list cell :=
  foldr insert_sorted [] l.

Fixpoint lookup_group (k : cell * cell) (acc : groups)
  : option (list (option float)) :=
  match acc with
  | [] => None
  | (k', vs) :: acc' =>
      if decide (k' = k) then Some vs else lookup_group k acc'
  end.

(** [groupby(by=[...])['Value'].mean().unstack()]: the groups' means laid
    out by the sorted first keys (rows) and second keys (columns), [NaN]
    where a pair of keys has no group. *)
Definition means_unstacked (float_column : bool) (readings : list reading)
  : Pivot :=
  let acc := fold_left group_step readings [] in
  let index := sort_labels (remove_dups (map (fun g => fst (fst g)) acc)) in
  let cols := sort_labels (remove_dups (map (fun g => snd (fst g)) acc)) in
  mkPivot index cols
    (map (fun s =>
            map (fun m =>
                   match lookup_group (s, m) acc with
                   | Some vs => group_mean float_column vs
                   | None => PrimFloat.nan
                   end) cols) index).

(** [groupby] takes a list of keys that has one entry per row of the table,
    and whose entries are not all labels of the table, for the keys of the
    rows themselves: on a table of two rows that lacks one of the two
    labels. *)
Definition keys_by_row (d : DataFrame) : bool :=
  Nat.eqb (length (rows d)) 2
  && negb (bool_decide ("Weather_station_ID" ∈ columns d)
           && bool_decide ("Measurement" ∈ columns d)).

(** The labels of the table are taken to be distinct.  Where the list of
    keys is taken by row, every row is a group of its own under one level
    of keys, the means are taken, and [unstack] refuses the result. *)
Definition calculate_means (self : WeatherDataProcessor)
  : result (option Pivot * WeatherDataProcessor) :=
  match weather_df self with
  | Some d =>
      if keys_by_row d then
        values ← df_get "Value" d;
        _ ← map_result cell_value values;
        Raise ValueError
      else
        stations ← df_get "Weather_station_ID" d;
        kinds ← df_get "Measurement" d;
        values ← df_get "Value" d;
        readings ← map_result (row_reading stations kinds)
                     (zip (zip stations kinds) values);
        let self := weather_logged self INFO "Mean values calculated." in
        Return (Some (means_unstacked (forallb is_num values) readings), self)
  | None =>
      Return (None,
              weather_logged self WARNING
                "weather_df is not initialized, cannot calculate means.")
  end.

Definition process `{DataIngestion} `{PythonRuntime}
    (self : WeatherDataProcessor) : result WeatherDataProcessor :=
  self ← weather_station_mapping self;
  '(_, self) ← process_messages self;
  Return (weather_logged self INFO "Data processing completed.").

Definition logger_name : string :=
  "weather_data_processor.WeatherDataProcessor".

(** [__init__]: the table starts as [None]; the logging is set up last. *)
Definition __init__ (config_params : ConfigParams) (logging_level : string)
    (loggers : gmap string Logger)
  : result (WeatherDataProcessor * gmap string Logger) :=
  weather_station_data ←
    from_option KeyError (cfg_weather_csv_path config_params);
  patterns ← from_option KeyError (cfg_regex_patterns config_params);
  let loggers := initialize_logging logger_name logging_level loggers in
  Return (mkWeather weather_station_data patterns None [], loggers).

End Weather.

(** ** Notions used in the statements *)

(** The [k]-th candidate of the probing loop started at [t]. *)
Fixpoint underscores (t : string) (k : nat) : string :=
  match k with
  | O => t
  | S k' => underscores (String.append t "_") k'
  end.

(** The exchange of two labels. *)
Definition swap_label (A B l : string) : string :=
  if decide (l = A) then B else if decide (l = B) then A else l.

(** [Series.abs()] on a column of numbers. *)
Definition abs_number (c : cell) : cell :=
  match c with
  | CNum x => CNum (PrimFloat.abs x)
  | _ => c
  end.

(** A row after the corrections, [i] and [j] being the positions of the
    elevation and of the crop type. *)
Definition corrected_row (i j : nat) (m : gmap string string) (r : list cell)
  : list cell :=
  let r1 := <[i := abs_number (default CNull (r !! i))]> r in
  <[j := normalize_crop m (default CNull (r1 !! j))]> r1.

(** The crop-type column of the processor's table. *)
Definition crop_column (self : FieldDataProcessor) : result (list cell) :=
  d ← from_option AttributeError (df self);
  df_get "Crop_type" d.

(** The elevation column of the processor's table. *)
Definition elevation_column (self : FieldDataProcessor) : result (list cell) :=
  d ← from_option AttributeError (df self);
  df_get "Elevation" d.

(** A number in the sense of the comparison with zero: positive, negative
    or zero, hence not [NaN]. *)
Definition is_number (x : float) : bool :=
  PrimFloat.ltb 0 x || PrimFloat.ltb x 0 || PrimFloat.eqb x 0.

Definition number_cell (c : cell) : Prop :=
  ∃ x, c = CNum x ∧ is_number x = true.

(** [c >= 0]. *)
Definition nonneg_cell (c : cell) : Prop :=
  ∃ x, c = CNum x ∧ PrimFloat.leb 0 x = true.

(** A column of numbers ([NaN] included). *)
Definition numeric_column (c : string) (d : DataFrame) : Prop :=
  ∃ s, df_get c d = Return s ∧ Forall (fun x => is_num x = true) s.

(** The shape of the mapping table: the unnamed index column of the file,
    the field and its weather station, the fields being numbers. *)
Definition mapping_schema (m : DataFrame) : Prop :=
  columns m = ["Unnamed: 0"; "Field_ID"; "Weather_station"] ∧ wf_df m ∧
  numeric_column "Field_ID" m.

(** A field table that can take the mapping: its labels are distinct, it
    has the key as a column of numbers, and no column named like the two the
    mapping brings. *)
Definition field_schema (d : DataFrame) : Prop :=
  wf_df d ∧ NoDup (columns d) ∧ numeric_column "Field_ID" d ∧
  ("Unnamed: 0" ∉ columns d) ∧ ("Weather_station" ∉ columns d).

(** The rows of the mapping table whose [Field_ID] is that of the field row
    [lr], the key of the field table standing at position [i]. *)
Definition matches (i : nat) (right : list (list cell)) (lr : list cell)
  : list (list cell) :=
  filter (fun rr => key_norm (default CNull (rr !! 1))
                    = key_norm (default CNull (lr !! i))) right.

(** The rows a field row becomes: itself with the station of each match, or
    with a missing station. *)
Definition station_rows (i : nat) (right : list (list cell)) (lr : list cell)
  : list (list cell) :=
  match matches i right lr with
  | [] => [lr ++ [CNum PrimFloat.nan]]
  | ms => (fun rr => lr ++ [default CNull (rr !! 2)]) <$> ms
  end.

(** The log records of [calculate_means]. *)
Definition means_records : list log_record :=
  [(INFO, "Mean values calculated.");
   (WARNING, "weather_df is not initialized, cannot calculate means.")].

(** [self'] is [self] with more log records, all of them satisfying [P]. *)
Definition logged_only (P : log_record → Prop)
    (self self' : WeatherDataProcessor) : Prop :=
  ∃ added, weather_log self' = weather_log self ++ added ∧ Forall P added.

(** The rows of the table as [calculate_means] reads them: the station,
    the kind of measurement and the value of each. *)
Definition reading_rows (stations kinds values : list cell)
  : list ((cell * cell) * cell) :=
  zip (zip stations kinds) values.

(** Two pairs of keys that [groupby] takes for the same: equal, but for
    the sign of a zero. *)
Definition same_keys (k k' : cell * cell) : Prop :=
  key_norm (fst k) = key_norm (fst k') ∧ key_norm (snd k) = key_norm (snd k').

#[global] Instance same_keys_dec (k k' : cell * cell)
  : Decision (same_keys k k').
Proof. unfold same_keys. apply _. Defined.

(** The number a cell holds, if it holds one. *)
Definition number_in (c : cell) : option float :=
  match c with
  | CNum x => if PrimFloat.is_nan x then None else Some x
  | _ => None
  end.

(** The values of the rows with the keys [k], in the order of the rows,
    the missing ones left out. *)
Definition group_values (table : list ((cell * cell) * cell))
    (k : cell * cell) : list float :=
  omap (fun r => if decide (same_keys (fst r) k) then number_in (snd r)
                 else None) table.

(** The sum of binary64 values by compensated summation: next to the sum
    runs the error of the last addition, which is taken off the next
    value. *)
Definition compensated_step (a : float * float) (x : float)
  : float * float :=
  let y := PrimFloat.sub x (snd a) in
  let t := PrimFloat.add (fst a) y in
  let c := PrimFloat.sub (PrimFloat.sub t (fst a)) y in
  (t, if PrimFloat.is_nan c then 0%float else c).

Definition compensated_sum (l : list float) : float :=
  fst (fold_left compensated_step l (0%float, 0%float)).

(** The arithmetic mean of binary64 values: their compensated sum over
    their number ([NaN] when there is none). *)
Definition arithmetic_mean (l : list float) : float :=
  PrimFloat.div (compensated_sum l) (Weather.float_of_nat (length l)).

(** The values, missing or not, of the readings with the keys [k]. *)
Definition group_readings (readings : list Weather.reading)
    (k : cell * cell) : list (option float) :=
  omap (fun r => if decide (fst r = k) then Some (snd r) else None) readings.

(** The value of a pivot at a row and a column position. *)
Definition pivot_get (p : Weather.Pivot) (i j : nat) : option float :=
  row ← Weather.pivot_values p !! i; row !! j.

(** What one reading does to the values of the group [k]. *)
Definition stat_step (k : cell * cell) (o : option (list (option float)))
    (r : Weather.reading) : option (list (option float)) :=
  if Weather.grouped r && bool_decide (fst r = k)
  then Some (default [] o ++ [snd r])
  else o.

(** A string of whitespace only. *)
Fixpoint all_space (s : string) : bool :=
  match s with
  | EmptyString => true
  | String a s' => is_space a && all_space s'
  end.

Definition head_char (s : string) : option ascii :=
  match s with
  | EmptyString => None
  | String a _ => Some a
  end.

Fixpoint last_char (s : string) : option ascii :=
  match s with
  | EmptyString => None
  | String a EmptyString => Some a
  | String _ s' => last_char s'
  end.

(** A string that neither begins nor ends with whitespace. *)
Definition trimmed (s : string) : Prop :=
  (∀ a, head_char s = Some a → is_space a = false) ∧
  (∀ a, last_char s = Some a → is_space a = false).

(** What a field processor was configured with, and what it holds beside
    its log. *)
Definition field_config (self : FieldDataProcessor)
  : string * string * list (string * string) * gmap string string * string :=
  (db_path self, sql_query self, columns_to_rename self,
   values_to_rename self, weather_map_data self).

Definition field_state (self : FieldDataProcessor)
  : option DataFrame * option Engine :=
  (df self, engine self).

Definition field_view (self : FieldDataProcessor) :=
  (field_config self, field_state self).

(** What an extraction can return under the keys [keys]: nothing, or one
    of the keys with a value. *)
Definition extracted (keys : list string) (p : Weather.measurement) : Prop :=
  p = (None, None) ∨ ∃ key v, p = (Some key, Some v) ∧ key ∈ keys.

(** What a weather processor holds beside its log. *)
Definition weather_view (self : WeatherDataProcessor)
  : string * list (string * string) * option DataFrame :=
  (weather_station_data self, patterns self, weather_df self).

(** Whether a logging option asks for the logger to be disabled. *)
Definition disables (logging_level : string) : bool :=
  bool_decide (py_upper logging_level = code_points "NONE").

(** The level a logging option that does not disable the logger sets. *)
Definition chosen_level (logging_level : string) : level :=
  if decide (py_upper logging_level = code_points "DEBUG") then DEBUG
  else INFO.

(** [initialize_logging] for the logger [name], once per option of [lvls],
    in order. *)
Definition initialize_all (name : string) (lvls : list string)
    (loggers : gmap string Logger) : gmap string Logger :=
  fold_left (fun acc lvl => initialize_logging name lvl acc) lvls loggers.

(** ** Sample data *)

(** The configuration of [validate_data.py]. *)
Definition config_columns_to_rename : list (string * string) :=
  [("Annual_yield", "Crop_type"); ("Crop_type", "Annual_yield")].

Definition config_values_to_rename : gmap string string :=
  {[ "cassaval" := "cassava"; "wheatn" := "wheat"; "teaa" := "tea" ]}.

Definition config_regex_patterns : list (string * string) :=
  [("Rainfall", "(\d+(\.\d+)?)\s?mm");
   ("Temperature", "(\d+(\.\d+)?)\s?C");
   ("Pollution_level",
    "=\s*(-?\d+(\.\d+)?)|Pollution at \s*(-?\d+(\.\d+)?)")].

(** A small field table as the query returns it, the crop types standing
    under [Annual_yield] and the yields under [Crop_type]. *)
Definition sample_field_table : DataFrame :=
  mkDF ["Field_ID"; "Elevation"; "Annual_yield"; "Crop_type"]
       [[CNum 1; CNum (-5.5); CStr " cassaval "; CNum 0.5];
        [CNum 2; CNum 3; CStr "cassaval"; CNum 0.25];
        [CNum 3; CNum 0; CStr "tea "; CNum 1.5]]%float.

(** The same table once the two columns are exchanged. *)
Definition sample_swapped_table : DataFrame :=
  mkDF ["Field_ID"; "Elevation"; "Crop_type"; "Annual_yield"]
       (rows sample_field_table).

Definition sample_field (pairs : list (string * string))
    (m : gmap string string) (d : DataFrame) : FieldDataProcessor :=
  mkField "sqlite:///Maji_Ndogo_farm_survey_small.db" "SELECT *"
          pairs m "Weather_data_field_mapping.csv" (Some d) None [].

Definition sample_mapping_table : DataFrame :=
  mkDF ["Unnamed: 0"; "Field_ID"; "Weather_station"]
       [[CNum 0; CNum 2; CNum 4]; [CNum 1; CNum 1; CNum 0]]%float.

(** A mapping table without the index column of the file. *)
Definition sample_bare_mapping : DataFrame :=
  mkDF ["Field_ID"; "Weather_station"] [[CNum 2; CNum 4]]%float.

(** A mapping table that lists the field 1 twice. *)
Definition sample_repeated_mapping : DataFrame :=
  mkDF ["Unnamed: 0"; "Field_ID"; "Weather_station"]
       [[CNum 0; CNum 1; CNum 4]; [CNum 1; CNum 1; CNum 0]]%float.

Definition sample_weather_table : DataFrame :=
  mkDF ["Weather_station_ID"; "Message"]
       [[CNum 0%float; CStr "Rainfall reading: 23.5mm"];
        [CNum 0%float; CStr "Sensor offline"]].

(** Three messages as they are read, before [process_messages]. *)
Definition sample_unprocessed_table : DataFrame :=
  mkDF ["Weather_station_ID"; "Message"]
       [[CStr "A"; CStr "temp 10"];
        [CStr "A"; CStr "temp 20"];
        [CStr "A"; CStr "rain 5"]].

(** Readings whose values are text that is no number. *)
Definition sample_text_values_table : DataFrame :=
  mkDF ["Weather_station_ID"; "Measurement"; "Value"]
       [[CStr "A"; CStr "temp"; CStr "n/a"];
        [CStr "A"; CStr "temp"; CStr "n/a"];
        [CStr "A"; CStr "rain"; CStr "n/a"]].

(** The readings of the example: station [A] with two temperatures and one
    rainfall. *)
Definition sample_readings_table : DataFrame :=
  mkDF ["Weather_station_ID"; "Message"; "Measurement"; "Value"]
       [[CStr "A"; CStr "temp 10"; CStr "temp"; CNum 10];
        [CStr "A"; CStr "temp 20"; CStr "temp"; CNum 20];
        [CStr "A"; CStr "rain 5"; CStr "rain"; CNum 5]]%float.

(** Collaborators that return given tables: [field] for the query, [mapping]
    for the locator of the mapping file and [weather] for any other one. *)
Definition sample_ingestion (field mapping weather : DataFrame)
  : DataIngestion :=
  {| create_db_engine p := Return (EngineFor p);
     query_data _ _ := Return field;
     read_from_web_CSV locator :=
       if decide (locator = "Weather_data_field_mapping.csv")
       then Return mapping else Return weather |}.

(** What [re.search] and [float] return on the inputs of the examples below:
    the patterns of the configuration and a pattern whose only group lies in
    an alternative.  Beside the three matches listed, the table answers that
    there is no match, resp. no number, which is what Python answers on the
    other inputs the examples consult. *)
Definition sample_runtime : PythonRuntime :=
  {| re_search pattern message :=
       if decide (pattern = "(\d+(\.\d+)?)\s?mm"
                  ∧ message = "Rainfall reading: 23.5mm")
       then Return (Some [Some "23.5"; Some ".5"])
       else if decide (pattern = "(\d+(\.\d+)?)\s?C"
                       ∧ message = "Temp 21.5 C")
       then Return (Some [Some "21.5"; Some ".5"])
       else if decide (pattern = "(\d+)mm|dry" ∧ message = "dry")
       then Return (Some [None])
       else Return None;
     py_float text :=
       if decide (text = "23.5") then Return 23.5%float
       else if decide (text = "21.5") then Return 21.5%float
       else Raise ValueError |}.

Definition sample_weather (items : list (string * string))
    (d : option DataFrame) : WeatherDataProcessor :=
  mkWeather "Weather_station_data.csv" items d [].

(** The processors of the examples. *)
Definition sample_swap_processor : FieldDataProcessor :=
  sample_field [("Annual_yield", "Crop_type")] config_values_to_rename
    sample_field_table.

Definition sample_processor : FieldDataProcessor :=
  sample_field config_columns_to_rename config_values_to_rename
    sample_swapped_table.

Definition sample_cassava_processor : FieldDataProcessor :=
  sample_field config_columns_to_rename {[ "cassaval" := "cassava" ]}
    sample_swapped_table.

Definition sample_typo_processor : FieldDataProcessor :=
  sample_field config_columns_to_rename {[ "cassaval" := "cassava" ]}
    (mkDF ["Elevation"; "Crop_type"]
          [[CNum (-5.5)%float; CStr " cassaval "]]).

Definition sample_one_field_table : DataFrame :=
  mkDF ["Field_ID"; "Elevation"] [[CNum 1; CNum 5.5]]%float.

Definition sample_one_field_processor : FieldDataProcessor :=
  sample_field config_columns_to_rename config_values_to_rename
    sample_one_field_table.

Definition sample_collaborators : DataIngestion :=
  sample_ingestion sample_field_table sample_mapping_table
    sample_weather_table.

Definition sample_repeating_collaborators : DataIngestion :=
  sample_ingestion sample_field_table sample_repeated_mapping
    sample_weather_table.

Definition sample_unloaded : WeatherDataProcessor :=
  sample_weather config_regex_patterns None.

Definition sample_alternative : WeatherDataProcessor :=
  sample_weather [("Rainfall", "(\d+)mm|dry")] None.

Definition sample_two_patterns : WeatherDataProcessor :=
  sample_weather [("Temperature", "(\d+(\.\d+)?)\s?C");
                  ("Rainfall", "(\d+)mm|dry")] None.

Definition sample_with_readings : WeatherDataProcessor :=
  sample_weather config_regex_patterns (Some sample_readings_table).

Definition sample_unprocessed : WeatherDataProcessor :=
  sample_weather config_regex_patterns (Some sample_unprocessed_table).

Definition sample_with_text_values : WeatherDataProcessor :=
  sample_weather config_regex_patterns (Some sample_text_values_table).

(** A field processor as its constructor leaves it. *)
Definition sample_new_field : FieldDataProcessor :=
  mkField "sqlite:///Maji_Ndogo_farm_survey_small.db" "SELECT *"
          config_columns_to_rename config_values_to_rename
          "Weather_data_field_mapping.csv" None None [].

(** A processor asked to exchange [Elevation] with a column its table does
    not have. *)
Definition sample_rename_only : FieldDataProcessor :=
  sample_field [("Elevation", "Altitude")] config_values_to_rename
    sample_one_field_table.

(** The table and the processor [apply_corrections] makes of
    [sample_processor]. *)
Definition sample_corrected_table : DataFrame :=
  mkDF ["Field_ID"; "Elevation"; "Crop_type"; "Annual_yield"]
       [[CNum 1; CNum 5.5; CStr "cassaval"; CNum 0.5];
        [CNum 2; CNum 3; CStr "cassava"; CNum 0.25];
        [CNum 3; CNum 0; CStr "tea"; CNum 1.5]]%float.

Definition sample_corrected_processor : FieldDataProcessor :=
  Field.field_info (Field.set_df sample_processor sample_corrected_table)
    "Applied corrections successfully on: Crop_type and Elevation".

(** What [process] makes of [sample_new_field] with
    [sample_collaborators]. *)
Definition sample_processed_table : DataFrame :=
  mkDF ["Field_ID"; "Elevation"; "Crop_type"; "Annual_yield";
        "Weather_station"]
       [[CNum 1; CNum 5.5; CStr "cassaval"; CNum 0.5; CNum 0];
        [CNum 2; CNum 3; CStr "cassava"; CNum 0.25; CNum 4];
        [CNum 3; CNum 0; CStr "tea"; CNum 1.5; CNum nan]]%float.

Definition sample_processed_field : FieldDataProcessor :=
  mkField "sqlite:///Maji_Ndogo_farm_survey_small.db" "SELECT *"
          config_columns_to_rename config_values_to_rename
          "Weather_data_field_mapping.csv" (Some sample_processed_table)
          (Some (EngineFor "sqlite:///Maji_Ndogo_farm_survey_small.db"))
          [(INFO, "Successfully loaded data.");
           (INFO, "Swapped columns: Annual_yield with Crop_type");
           (INFO,
            "Applied corrections successfully on: Crop_type and Elevation")].

(** A weather processor with its table loaded, and what
    [process_messages] makes of it. *)
Definition sample_loaded : WeatherDataProcessor :=
  sample_weather config_regex_patterns (Some sample_weather_table).

Definition sample_measured_table : DataFrame :=
  mkDF ["Weather_station_ID"; "Message"; "Measurement"; "Value"]
       [[CNum 0; CStr "Rainfall reading: 23.5mm"; CStr "Rainfall"; CNum 23.5];
        [CNum 0; CStr "Sensor offline"; CNull; CNum nan]]%float.

Definition sample_measured : WeatherDataProcessor :=
  mkWeather "Weather_station_data.csv" config_regex_patterns
            (Some sample_measured_table)
            [(DEBUG, "Measurement extracted: Rainfall");
             (DEBUG, "No measurement match found.");
             (INFO, "Messages processed and measurements extracted.")].

(** A loaded table without rows, and one with a missing message. *)
Definition sample_empty : WeatherDataProcessor :=
  sample_weather config_regex_patterns
    (Some (mkDF ["Weather_station_ID"; "Message"] [])).

Definition sample_missing_message : WeatherDataProcessor :=
  sample_weather config_regex_patterns
    (Some (mkDF ["Weather_station_ID"; "Message"]
                [[CNum 0%float; CStr "Rainfall reading: 23.5mm"];
                 [CNum 0%float; CNum PrimFloat.nan]])).

(** What [process] makes of [sample_unloaded] with
    [sample_collaborators]. *)
Definition sample_processed_weather : WeatherDataProcessor :=
  mkWeather "Weather_station_data.csv" config_regex_patterns
            (Some sample_measured_table)
            [(INFO, "Successfully loaded weather station data from the web.");
             (DEBUG, "Measurement extracted: Rainfall");
             (DEBUG, "No measurement match found.");
             (INFO, "Messages processed and measurements extracted.");
             (INFO, "Data processing completed.")].

(** A processor configured with no pair of columns. *)
Definition sample_no_pair : FieldDataProcessor :=
  sample_field [] config_values_to_rename sample_one_field_table.

(** A configuration without the key [regex_patterns]. *)
Definition sample_config_without_patterns : ConfigParams :=
  mkConfig (Some "sqlite:///Maji_Ndogo_farm_survey_small.db")
           (Some "SELECT *") (Some config_columns_to_rename)
           (Some config_values_to_rename)
           (Some "Weather_data_field_mapping.csv")
           (Some "Weather_station_data.csv") None.

(** * Properties *)

(** A decidable proposition about given data is settled by evaluation. *)
Ltac by_evaluation := apply (bool_decide_unpack _); vm_compute; exact I.

(** The two schemas on given tables. *)
Ltac numeric_column_holds :=
  eexists; split; [reflexivity | repeat constructor].

Ltac field_schema_holds :=
  split; [repeat constructor|]; split; [by_evaluation|];
  split; [numeric_column_holds|]; split; by_evaluation.

Ltac mapping_schema_holds :=
  split; [reflexivity|]; split; [repeat constructor | numeric_column_holds].

(** ** The placeholder name of the swap *)

Lemma length_append_underscore (t : string) :
  String.length (String.append t "_") = S (String.length t).
Proof. induction t as [|a t IH]; simpl; [done | by rewrite IH]. Qed.

Lemma length_underscores (t : string) (k : nat) :
  String.length (underscores t k) = String.length t + k.
Proof.
  revert t. induction k as [|k IH]; intros t; simpl; [lia|].
  rewrite IH, length_append_underscore. lia.
Qed.

Lemma probe_temp_name_fresh fuel cols t t' :
  Field.probe_temp_name fuel cols t = Some t' → t' ∉ cols.
Proof.
  revert t. induction fuel as [|fuel IH]; intros t; simpl; [done|].
  destruct (decide (t ∈ cols)); [apply IH | by intros [= <-]].
Qed.

Lemma probe_temp_name_exhausted fuel cols t :
  Field.probe_temp_name fuel cols t = None →
  ∀ k, k < fuel → underscores t k ∈ cols.
Proof.
  revert t. induction fuel as [|fuel IH]; intros t; simpl; [lia|].
  destruct (decide (t ∈ cols)) as [Hin|]; [|done].
  intros Hnone [|k] Hk; simpl; [done|]. apply IH; [done | lia].
Qed.

(** The loop ends within [S (length cols)] iterations: its candidates are
    pairwise distinct, so they cannot all be labels. *)
Lemma fresh_temp_name_total (cols : list string) :
  ∃ t, Field.fresh_temp_name cols = Some t ∧ t ∉ cols.
Proof.
  unfold Field.fresh_temp_name.
  destruct (Field.probe_temp_name _ cols _) as [t|] eqn:E.
  { exists t. split; [done|]. by eapply probe_temp_name_fresh. }
  exfalso.
  pose proof (probe_temp_name_exhausted _ _ _ E) as Hall.
  set (t0 := "__temp_name_for_swap__") in *.
  set (cands := underscores t0 <$> seq 0 (S (length cols))).
  assert (NoDup cands) as Hnd.
  { apply NoDup_fmap_2_strong; [|apply NoDup_seq].
    intros x y _ _ Heq. apply (f_equal String.length) in Heq.
    rewrite !length_underscores in Heq. lia. }
  assert (cands ⊆+ cols) as Hsub.
  { apply NoDup_submseteq; [done|]. intros x Hx.
    apply list_elem_of_fmap in Hx as (k & -> & Hk).
    apply elem_of_seq in Hk. apply Hall. lia. }
  apply submseteq_length in Hsub. unfold cands in Hsub.
  rewrite length_fmap, length_seq in Hsub. lia.
Qed.

(** The bound of the model's loop is never reached. *)
Lemma rename_columns_total (self : FieldDataProcessor) :
  Field.rename_columns self ≠ Raise LoopBound.
Proof.
  unfold Field.rename_columns.
  destruct (head (columns_to_rename self)) as [[column1 column2]|];
    [|done].
  destruct (df self) as [d|]; [|done]. simpl.
  by destruct (fresh_temp_name_total (columns d)) as (t & -> & _).
Qed.

(** ** The column swap *)

Lemma swap_label_involutive A B l : swap_label A B (swap_label A B l) = l.
Proof. unfold swap_label. repeat case_decide; congruence. Qed.

Lemma rename_twice_swaps (A B t l : string) :
  t ≠ A → l ≠ t →
  rename_label (<[t := B]> ∅)
    (rename_label (<[B := A]> (<[A := t]> ∅)) l) = swap_label A B l.
Proof.
  intros HtA Hlt. unfold rename_label, swap_label.
  destruct (decide (l = B)) as [->|HlB].
  - rewrite lookup_insert_eq. simpl.
    rewrite lookup_insert_ne, lookup_empty by done. simpl.
    case_decide; congruence.
  - rewrite lookup_insert_ne by done.
    destruct (decide (l = A)) as [->|HlA].
    + rewrite lookup_insert_eq. simpl. by rewrite lookup_insert_eq.
    + rewrite lookup_insert_ne, lookup_empty by done. simpl.
      by rewrite lookup_insert_ne, lookup_empty by done.
Qed.

(** What [rename_columns] does to a loaded table that has the first column
    of the pair: the labels of the pair are exchanged, the rows stay. *)
Lemma rename_columns_swaps (self : FieldDataProcessor) (d : DataFrame)
    (A B : string) :
  df self = Some d →
  head (columns_to_rename self) = Some (A, B) →
  A ∈ columns d →
  Field.rename_columns self =
    Return (Field.field_info
              (Field.set_df self
                 (mkDF (swap_label A B <$> columns d) (rows d)))
              ("Swapped columns: " +:+ A +:+ " with " +:+ B)).
Proof.
  intros Hdf Hhead HA. unfold Field.rename_columns.
  rewrite Hhead, Hdf. simpl.
  destruct (fresh_temp_name_total (columns d)) as (t & -> & Ht). simpl.
  do 3 f_equal. unfold df_rename. simpl. f_equal.
  rewrite map_map. apply map_ext_in. intros l Hl.
  apply list_elem_of_In in Hl.
  apply rename_twice_swaps; intros ->; done.
Qed.

Lemma cells_under_relabel (f : string → string) (c c' : string)
    (cols : list string) (r : list cell) :
  (∀ l, l ∈ cols → f l = c ↔ l = c') →
  cells_under c (f <$> cols) r = cells_under c' cols r.
Proof.
  revert r. induction cols as [|l cols IH]; intros r Hf; [done|].
  destruct r as [|v r]; [done|]. simpl.
  assert (f l = c ↔ l = c') as Hl by (apply Hf; left).
  rewrite IH by (intros l' Hl'; apply Hf; by right).
  repeat case_decide; tauto.
Qed.

Lemma col_data_relabel (f : string → string) (c c' : string) (d : DataFrame) :
  (∀ l, l ∈ columns d → f l = c ↔ l = c') →
  col_data (mkDF (f <$> columns d) (rows d)) c = col_data d c'.
Proof.
  intros Hf. unfold col_data. simpl. apply map_ext. intros r.
  by apply cells_under_relabel.
Qed.

(** C3: with a loaded table that has two distinct columns [A] and [B] and the
    single pair [(A, B)] as mapping, [rename_columns] succeeds and exchanges
    the data of the two names: under [A] stand the values that were under
    [B], under [B] those that were under [A], and the data under every other
    name is unchanged. *)
Theorem rename_columns_exchanges_data (self : FieldDataProcessor)
    (d : DataFrame) (A B : string) :
  df self = Some d →
  columns_to_rename self = [(A, B)] →
  A ∈ columns d → B ∈ columns d → A ≠ B →
  ∃ self' d',
    Field.rename_columns self = Return self' ∧ df self' = Some d' ∧
    col_data d' A = col_data d B ∧
    col_data d' B = col_data d A ∧
    (∀ c, c ≠ A → c ≠ B → col_data d' c = col_data d c).
Proof.
  intros Hdf Hmap HA HB HAB.
  eexists _, _. split.
  { apply rename_columns_swaps; [done | by rewrite Hmap | done]. }
  split; [done|].
  repeat split; [| |intros c HcA HcB]; apply col_data_relabel;
    intros l _; unfold swap_label; repeat case_decide; split; congruence.
Qed.

Lemma rename_columns_exchanges_data_witness :
  ∃ self' d',
    Field.rename_columns sample_swap_processor = Return self' ∧
    df self' = Some d' ∧
    col_data d' "Annual_yield" = col_data sample_field_table "Crop_type" ∧
    col_data d' "Crop_type" = col_data sample_field_table "Annual_yield" ∧
    (∀ c, c ≠ "Annual_yield" → c ≠ "Crop_type" →
          col_data d' c = col_data sample_field_table c).
Proof.
  apply (rename_columns_exchanges_data sample_swap_processor
           sample_field_table "Annual_yield" "Crop_type").
  - reflexivity.
  - reflexivity.
  - simpl. do 2 right. left.
  - simpl. do 3 right. left.
  - discriminate.
Defined.

(** C4: under the same conditions, [rename_columns] applied twice succeeds
    both times and leaves the table it started from, labels and rows. *)
Theorem rename_columns_twice_restores (self : FieldDataProcessor)
    (d : DataFrame) (A B : string) :
  df self = Some d →
  columns_to_rename self = [(A, B)] →
  A ∈ columns d → B ∈ columns d → A ≠ B →
  ∃ self1 self2,
    Field.rename_columns self = Return self1 ∧
    columns_to_rename self1 = columns_to_rename self ∧
    Field.rename_columns self1 = Return self2 ∧
    df self2 = Some d.
Proof.
  intros Hdf Hmap HA HB HAB.
  eexists _, _. split.
  { apply rename_columns_swaps; [done | by rewrite Hmap | done]. }
  split; [done|]. split.
  { apply rename_columns_swaps with (A := A) (B := B); simpl.
    - done.
    - by rewrite Hmap.
    - apply list_elem_of_fmap. exists B. split; [|done].
      unfold swap_label. repeat case_decide; congruence. }
  simpl. f_equal. destruct d as [cols rs]. simpl. f_equal.
  rewrite <- list_fmap_compose. rewrite <- (list_fmap_id cols) at 2.
  apply list_fmap_ext. intros i l _. apply swap_label_involutive.
Qed.

Lemma rename_columns_twice_restores_witness :
  ∃ self1 self2,
    Field.rename_columns sample_swap_processor = Return self1 ∧
    columns_to_rename self1 = [("Annual_yield", "Crop_type")] ∧
    Field.rename_columns self1 = Return self2 ∧
    df self2 = Some sample_field_table.
Proof.
  apply (rename_columns_twice_restores sample_swap_processor
           sample_field_table "Annual_yield" "Crop_type").
  - reflexivity.
  - reflexivity.
  - simpl. do 2 right. left.
  - simpl. do 3 right. left.
  - discriminate.
Defined.

(** ** Reading and writing a column *)

Lemma index_of_lt c cols i : index_of c cols = Some i → i < length cols.
Proof.
  revert i. induction cols as [|l cols IH]; intros i; simpl; [done|].
  case_decide.
  - intros [= <-]. lia.
  - destruct (index_of c cols) as [k|]; simpl; [|done].
    intros [= <-]. specialize (IH k eq_refl). lia.
Qed.

Lemma index_of_lookup c cols i :
  index_of c cols = Some i → cols !! i = Some c.
Proof.
  revert i. induction cols as [|l cols IH]; intros i; simpl; [done|].
  case_decide as Hl.
  - intros [= <-]. by rewrite Hl.
  - destruct (index_of c cols) as [k|]; simpl; [|done].
    intros [= <-]. by apply IH.
Qed.

Lemma index_of_elem c cols : c ∈ cols → ∃ i, index_of c cols = Some i.
Proof.
  induction cols as [|l cols IH]; [by intros ?%elem_of_nil|].
  intros Hin. simpl. case_decide as Hl; [eauto|].
  apply elem_of_cons in Hin as [->|Hin]; [done|].
  destruct (IH Hin) as [i ->]. simpl. eauto.
Qed.

Lemma df_get_index c d i :
  index_of c (columns d) = Some i →
  df_get c d = Return ((fun r => default CNull (r !! i)) <$> rows d).
Proof. intros Hi. unfold df_get. by rewrite Hi. Qed.

Lemma zip_with_fmap_same {A B C} (h : A → B → C) (f : A → B) (l : list A) :
  zip_with h l (f <$> l) = (fun a => h a (f a)) <$> l.
Proof. induction l as [|a l IH]; [done|]. csimpl. by rewrite IH. Qed.

Lemma df_set_index c d i (f : list cell → cell) :
  index_of c (columns d) = Some i →
  df_set c (f <$> rows d) d =
    Return (mkDF (columns d) ((fun r => <[i := f r]> r) <$> rows d)).
Proof.
  intros Hi. unfold df_set. rewrite length_fmap, decide_True by done.
  rewrite Hi. by rewrite zip_with_fmap_same.
Qed.

Lemma wf_df_insert cols rs (g : list cell → list cell) :
  (∀ r, length (g r) = length r) →
  wf_df (mkDF cols rs) → wf_df (mkDF cols (g <$> rs)).
Proof.
  unfold wf_df. simpl. intros Hg Hwf.
  apply Forall_fmap. eapply Forall_impl; [done|]. simpl.
  intros r Hr. by rewrite Hg.
Qed.

(** ** The corrections *)

Lemma bind_ret {A B} (a : A) (k : A → result B) : Return a ≫= k = k a.
Proof. done. Qed.

Lemma bind_Return_inv {A B} (r : result A) (k : A → result B) (b : B) :
  r ≫= k = Return b → ∃ a, r = Return a ∧ k a = Return b.
Proof. destruct r as [a|e]; [by exists a | done]. Qed.

Lemma series_abs_numbers (s : list cell) :
  Forall (fun c => is_num c = true) s →
  series_abs s = Return (abs_number <$> s).
Proof.
  unfold series_abs. induction 1 as [|c s Hc _ IH]; [done|].
  simpl. rewrite IH. destruct c; simpl in *; done.
Qed.

Lemma str_accessor_ok_no_number (s : list cell) :
  Forall (fun c => is_num c = false) s → str_accessor_ok s = true.
Proof.
  unfold str_accessor_ok. intros Hs. apply orb_true_iff. right.
  apply forallb_forall. intros c Hc%list_elem_of_In.
  rewrite Forall_forall in Hs. by rewrite (Hs c Hc).
Qed.

Lemma series_str_strip_no_number (s : list cell) :
  Forall (fun c => is_num c = false) s →
  series_str_strip s = Return (str_strip_cell <$> s).
Proof.
  intros Hs. unfold series_str_strip.
  by rewrite str_accessor_ok_no_number.
Qed.

Lemma filter_label_absent (c : string) (cols : list string) :
  c ∉ cols → filter (fun l => l = c) cols = [].
Proof.
  induction cols as [|l cols IH]; [done|].
  intros [Hl Hc]%not_elem_of_cons.
  rewrite filter_cons_False by congruence. by apply IH.
Qed.

Lemma NoDup_not_repeated (c : string) (cols : list string) :
  NoDup cols → repeated c cols = false.
Proof.
  intros Hnd. unfold repeated. apply Nat.ltb_ge.
  induction Hnd as [|l cols Hl _ IH]; simpl; [lia|].
  destruct (decide (l = c)) as [->|Hne].
  - rewrite filter_cons_True by done.
    rewrite filter_label_absent by done. simpl. lia.
  - by rewrite filter_cons_False.
Qed.

(** [apply_corrections] on a loaded, well-formed table with both columns,
    the label [Crop_type] standing once, numbers as elevations and no
    number among the crop types: it succeeds, and every row is corrected in
    place. *)
Lemma apply_corrections_rows (self : FieldDataProcessor) (d : DataFrame)
    (i j : nat) (a b : string) :
  df self = Some d → wf_df d →
  index_of "Elevation" (columns d) = Some i →
  index_of "Crop_type" (columns d) = Some j →
  repeated "Crop_type" (columns d) = false →
  Forall (fun r => is_num (default CNull (r !! i)) = true) (rows d) →
  Forall (fun r => is_num (default CNull (r !! j)) = false) (rows d) →
  Field.apply_corrections self a b =
    Return (Field.field_info
              (Field.set_df self
                 (mkDF (columns d)
                       (corrected_row i j (values_to_rename self) <$> rows d)))
              ("Applied corrections successfully on: " +:+ a
                 +:+ " and " +:+ b)).
Proof.
  intros Hdf Hwf Hi Hj Hrep Hnum Hcrop. unfold Field.apply_corrections.
  assert (i ≠ j) as Hij.
  { intros ->. apply index_of_lookup in Hi, Hj. congruence. }
  pose proof (index_of_lt _ _ _ Hj) as Hjlt.
  rewrite Hdf. simpl from_option. rewrite bind_ret.
  rewrite (df_get_index _ _ _ Hi), bind_ret.
  rewrite series_abs_numbers by (apply Forall_fmap; exact Hnum).
  rewrite bind_ret, <- list_fmap_compose.
  rewrite (df_set_index _ _ _ _ Hi), bind_ret.
  rewrite (df_get_index _ _ j) by done. rewrite bind_ret.
  simpl columns. rewrite Hrep. unfold apply_get. rewrite bind_ret.
  change (map ?f ?l) with (f <$> l). rewrite <- list_fmap_compose.
  rewrite (df_set_index _ _ j) by done. rewrite bind_ret.
  rewrite (df_get_index _ _ j) by done. rewrite bind_ret.
  rewrite series_str_strip_no_number; last first.
  { simpl rows. rewrite <- !list_fmap_compose. apply Forall_fmap.
    pose proof Hwf as Hlen. unfold wf_df in Hlen.
    rewrite Forall_forall in Hlen, Hcrop |- *. intros r Hr. simpl.
    specialize (Hlen r Hr). specialize (Hcrop r Hr). simpl in Hlen.
    rewrite list_lookup_insert_eq by (rewrite !length_insert; lia).
    simpl. rewrite list_lookup_insert_ne by done.
    by destruct (default CNull (r !! j)). }
  rewrite bind_ret, <- list_fmap_compose.
  rewrite (df_set_index _ _ j) by done. rewrite bind_ret.
  simpl. do 4 f_equal. rewrite <- !list_fmap_compose.
  apply Forall_fmap_ext_1. eapply Forall_impl; [exact Hwf|].
  intros r Hr. simpl in *. unfold corrected_row, normalize_crop.
  rewrite list_lookup_insert_eq by (rewrite !length_insert; lia).
  simpl. by rewrite list_insert_insert_eq.
Qed.

Lemma corrected_row_length i j m r :
  length (corrected_row i j m r) = length r.
Proof. unfold corrected_row. by rewrite !length_insert. Qed.

Lemma corrected_row_elevation i j m r :
  i ≠ j → i < length r →
  default CNull (corrected_row i j m r !! i)
  = abs_number (default CNull (r !! i)).
Proof.
  intros Hij Hi. unfold corrected_row.
  rewrite list_lookup_insert_ne by done.
  by rewrite list_lookup_insert_eq.
Qed.

Lemma corrected_row_crop i j m r :
  i ≠ j → j < length r →
  default CNull (corrected_row i j m r !! j)
  = normalize_crop m (default CNull (r !! j)).
Proof.
  intros Hij Hj. unfold corrected_row.
  rewrite list_lookup_insert_eq by (by rewrite length_insert).
  simpl. by rewrite list_lookup_insert_ne.
Qed.

(** The two corrected columns, read back after [apply_corrections]. *)
Lemma apply_corrections_columns (self : FieldDataProcessor) (d : DataFrame)
    (elevations crops : list cell) (a b : string) :
  df self = Some d → wf_df d → NoDup (columns d) →
  df_get "Elevation" d = Return elevations →
  df_get "Crop_type" d = Return crops →
  Forall (fun c => is_num c = true) elevations →
  Forall (fun c => is_num c = false) crops →
  ∃ self' d',
    Field.apply_corrections self a b = Return self' ∧
    df self' = Some d' ∧ wf_df d' ∧
    columns d' = columns d ∧ length (rows d') = length (rows d) ∧
    elevation_column self' = Return (abs_number <$> elevations) ∧
    crop_column self'
    = Return (normalize_crop (values_to_rename self) <$> crops).
Proof.
  intros Hdf Hwf Hnd He Hc Hnum Hcrops. unfold df_get in He, Hc.
  destruct (index_of "Elevation" (columns d)) as [i|] eqn:Hi; [|done].
  destruct (index_of "Crop_type" (columns d)) as [j|] eqn:Hj; [|done].
  simpl in He, Hc. injection He as <-. injection Hc as <-.
  assert (i ≠ j) as Hij.
  { intros ->. apply index_of_lookup in Hi, Hj. congruence. }
  pose proof (index_of_lt _ _ _ Hi) as Hilt.
  pose proof (index_of_lt _ _ _ Hj) as Hjlt.
  eexists _, _. split.
  { apply (apply_corrections_rows self d i j); try done.
    - by apply NoDup_not_repeated.
    - by apply Forall_fmap in Hnum.
    - by apply Forall_fmap in Hcrops. }
  split; [done|]. split.
  { apply wf_df_insert; [apply corrected_row_length | by destruct d]. }
  split; [done|]. split; [simpl; by rewrite length_fmap|].
  unfold elevation_column, crop_column, df_get. simpl. rewrite Hi, Hj. simpl.
  split; f_equal; rewrite <- !list_fmap_compose;
    apply Forall_fmap_ext_1; (eapply Forall_impl; [exact Hwf|]);
    intros r Hr; simpl in *.
  - apply corrected_row_elevation; [done | lia].
  - apply corrected_row_crop; [done | lia].
Qed.

(** ** Stripping *)

Lemma lstrip_fixed (s : string) :
  match s with
  | EmptyString => True
  | String a _ => is_space a = false
  end → lstrip s = s.
Proof. destruct s as [|a s]; simpl; [done|]. by intros ->. Qed.

Lemma lstrip_head (s : string) :
  match lstrip s with
  | EmptyString => True
  | String a _ => is_space a = false
  end.
Proof.
  induction s as [|a s IH]; simpl; [done|].
  destruct (is_space a) eqn:Ha; [done|]. simpl. by rewrite Ha.
Qed.

Lemma rstrip_head (s : string) :
  match s with
  | EmptyString => True
  | String a _ => is_space a = false
  end →
  match rstrip s with
  | EmptyString => True
  | String a _ => is_space a = false
  end.
Proof.
  destruct s as [|a s]; simpl; [done|]. intros Ha.
  destruct (rstrip s); [by rewrite Ha|done].
Qed.

Lemma rstrip_idempotent (s : string) : rstrip (rstrip s) = rstrip s.
Proof.
  induction s as [|a s IH]; simpl; [done|].
  destruct (rstrip s) as [|b t] eqn:E.
  - destruct (is_space a) eqn:Ha; simpl; [done|]. by rewrite Ha.
  - simpl in *. by rewrite IH.
Qed.

Lemma strip_idempotent (s : string) : strip (strip s) = strip s.
Proof.
  unfold strip.
  rewrite (lstrip_fixed (rstrip (lstrip s))).
  - apply rstrip_idempotent.
  - apply rstrip_head, lstrip_head.
Qed.

(** ** Crop types *)

Lemma normalize_crop_string (m : gmap string string) (s : string) :
  normalize_crop m (CStr s) = CStr (strip (default s (m !! s))).
Proof. done. Qed.

(** C2, as the code has it: with the mapping [{cassaval: cassava}], on a
    loaded table with distinct labels, numbers as elevations and strings or
    [None] as crop types, a crop value [" cassaval "] comes out of
    [apply_corrections] as ["cassaval"]: the lookup is made on the untrimmed
    value, which is no key, and only then is the value trimmed.  The typo is
    corrected where the value is the key itself: ["cassaval"] comes out as
    ["cassava"]. *)
Theorem apply_corrections_looks_up_untrimmed (self : FieldDataProcessor)
    (d : DataFrame) (elevations crops : list cell) (a b : string) :
  df self = Some d → wf_df d → NoDup (columns d) →
  values_to_rename self = {[ "cassaval" := "cassava" ]} →
  df_get "Elevation" d = Return elevations →
  Forall (fun c => is_num c = true) elevations →
  df_get "Crop_type" d = Return crops →
  Forall (fun c => is_num c = false) crops →
  ∃ self' crops',
    Field.apply_corrections self a b = Return self' ∧
    crop_column self' = Return crops' ∧
    (∀ k : nat, crops !! k = Some (CStr " cassaval ") →
                crops' !! k = Some (CStr "cassaval")) ∧
    (∀ k : nat, crops !! k = Some (CStr "cassaval") →
                crops' !! k = Some (CStr "cassava")).
Proof.
  intros Hdf Hwf Hnd Hm He Hnum Hc Hcrops.
  destruct (apply_corrections_columns self d elevations crops a b)
    as (self' & d' & Happ & _ & _ & _ & _ & _ & Hcrop); try done.
  exists self', (normalize_crop (values_to_rename self) <$> crops).
  split; [done|]. split; [done|]. rewrite Hm.
  split; intros k Hk; rewrite list_lookup_fmap, Hk; simpl; do 2 f_equal.
Qed.

Lemma apply_corrections_looks_up_untrimmed_witness :
  ∃ self' crops',
    Field.apply_corrections sample_cassava_processor
      "Crop_type" "Elevation" = Return self' ∧
    crop_column self' = Return crops' ∧
    (∀ k : nat,
       [CStr " cassaval "; CStr "cassaval"; CStr "tea "] !! k
         = Some (CStr " cassaval ") →
       crops' !! k = Some (CStr "cassaval")) ∧
    (∀ k : nat,
       [CStr " cassaval "; CStr "cassaval"; CStr "tea "] !! k
         = Some (CStr "cassaval") →
       crops' !! k = Some (CStr "cassava")).
Proof.
  apply (apply_corrections_looks_up_untrimmed sample_cassava_processor
           sample_swapped_table
           [CNum (-5.5); CNum 3; CNum 0]%float).
  - reflexivity.
  - repeat constructor.
  - by_evaluation.
  - reflexivity.
  - reflexivity.
  - repeat constructor.
  - reflexivity.
  - repeat constructor.
Defined.

(** C2 as stated fails: the value [" cassaval "] does not come out as
    ["cassava"] but as ["cassaval"]. *)
Lemma apply_corrections_keeps_untrimmed_typo :
  Field.apply_corrections sample_typo_processor "Crop_type" "Elevation"
    ≫= crop_column = Return [CStr "cassaval"] ∧
  Field.apply_corrections sample_typo_processor "Crop_type" "Elevation"
    ≫= crop_column ≠ Return [CStr "cassava"].
Proof. split; [reflexivity | discriminate]. Qed.

(** C6, as the code has it: the normalization of a value is idempotent
    whenever the value it yields is not a key of the mapping. *)
Theorem normalize_crop_idempotent_off_keys (m : gmap string string) (c : cell) :
  (∀ t, normalize_crop m c = CStr t → m !! t = None) →
  normalize_crop m (normalize_crop m c) = normalize_crop m c.
Proof.
  intros Hkey. destruct c as [|x|s]; [done..|].
  rewrite normalize_crop_string in *.
  rewrite normalize_crop_string, (Hkey _ eq_refl). simpl.
  by rewrite strip_idempotent.
Qed.

Lemma normalize_crop_idempotent_off_keys_witness :
  normalize_crop config_values_to_rename
    (normalize_crop config_values_to_rename (CStr "cassaval"))
  = normalize_crop config_values_to_rename (CStr "cassaval").
Proof.
  apply normalize_crop_idempotent_off_keys.
  intros t [= <-]. vm_compute. reflexivity.
Defined.

(** C6 as stated fails, with the mapping of the configuration: the value
    [" cassaval "] is normalized to ["cassaval"], and that to ["cassava"]. *)
Lemma normalize_crop_not_idempotent :
  normalize_crop config_values_to_rename (CStr " cassaval ") = CStr "cassaval" ∧
  normalize_crop config_values_to_rename
    (normalize_crop config_values_to_rename (CStr " cassaval "))
  = CStr "cassava" ∧
  normalize_crop config_values_to_rename
    (normalize_crop config_values_to_rename (CStr " cassaval "))
  ≠ normalize_crop config_values_to_rename (CStr " cassaval ").
Proof.
  split; [reflexivity|]. split; [reflexivity|].
  intros H. vm_compute in H. discriminate.
Qed.

(** ** The join with the weather stations *)

Lemma cells_not_under_app c cols cols2 r r2 :
  length r = length cols → c ∉ cols →
  cells_not_under c (cols ++ cols2) (r ++ r2) = r ++ cells_not_under c cols2 r2.
Proof.
  revert r. induction cols as [|l cols IH]; intros [|v r] Hlen Hc;
    simpl in *; try done.
  apply not_elem_of_cons in Hc as [Hcl Hc].
  rewrite decide_False by done. f_equal. apply IH; [lia | done].
Qed.

Lemma filter_labels_other (c : string) (cols : list string) :
  c ∉ cols → filter (fun l => l ≠ c) cols = cols.
Proof.
  induction cols as [|l cols IH]; [done|].
  intros [Hcl Hc]%not_elem_of_cons.
  rewrite filter_cons_True by done. by rewrite IH.
Qed.

Lemma merge_label_other on sfx other cols :
  (∀ l, l ∈ cols → l = on ∨ l ∉ other) →
  map (merge_label on sfx other) cols = cols.
Proof.
  intros Hcols. rewrite <- (map_id cols) at 2. apply map_ext_in.
  intros l Hl%list_elem_of_In. unfold merge_label.
  apply decide_False. intros [Hon Hin].
  destruct (Hcols l Hl); done.
Qed.

Lemma mapping_row_shape (m : DataFrame) (rr : list cell) :
  mapping_schema m → rr ∈ rows m → ∃ u f w, rr = [u; f; w].
Proof.
  intros (Hcols & Hwf & _) Hrr. unfold wf_df in Hwf. rewrite Hcols in Hwf.
  rewrite Forall_forall in Hwf. specialize (Hwf rr Hrr). simpl in Hwf.
  destruct rr as [|u [|f [|w [|? ?]]]]; simpl in Hwf; try lia. eauto.
Qed.

Lemma join_row_stations (i : nat) (m : DataFrame) (d : DataFrame)
    (lr : list cell) :
  mapping_schema m → length lr = length (columns d) →
  "Unnamed: 0" ∉ columns d →
  cells_not_under "Unnamed: 0"
      (columns d ++ ["Unnamed: 0"; "Weather_station"])
    <$> join_row i 1 2 (rows m) lr
  = station_rows i (rows m) lr.
Proof.
  intros Hm Hlen Hu. unfold join_row, station_rows, matches.
  assert (Forall (fun rr => rr ∈ rows m)
            (filter (fun rr => key_norm (default CNull (rr !! 1))
                               = key_norm (default CNull (lr !! i)))
                    (rows m))) as Hsub.
  { apply Forall_forall. by intros rr [_ ?]%list_elem_of_filter. }
  destruct (filter _ (rows m)) as [|rr0 ms] eqn:E.
  - simpl. rewrite cells_not_under_app; [reflexivity | done | done].
  - rewrite <- list_fmap_compose. apply Forall_fmap_ext_1.
    eapply Forall_impl; [exact Hsub|]. intros rr Hrr. simpl.
    destruct (mapping_row_shape m rr Hm Hrr) as (u & f & w & ->).
    simpl. rewrite cells_not_under_app; [reflexivity | done | done].
Qed.

Lemma map_flat_map_Forall {A B C} (f : B → C) (g : A → list B)
    (h : A → list C) (l : list A) :
  Forall (fun a => f <$> g a = h a) l →
  f <$> flat_map g l = flat_map h l.
Proof.
  induction 1 as [|a l Ha _ IH]; [done|].
  simpl. by rewrite fmap_app, Ha, IH.
Qed.

Lemma key_kinds_clash_numeric (lkeys rkeys : list cell) :
  Forall (fun x => is_num x = true) lkeys →
  Forall (fun x => is_num x = true) rkeys →
  key_kinds_clash lkeys rkeys = false.
Proof.
  intros Hl Hr. unfold key_kinds_clash.
  destruct Hl as [|x lkeys Hx Hl]; [done|].
  destruct Hr as [|y rkeys Hy Hr]; [by rewrite andb_false_r|].
  simpl. destruct x, y; simpl in *; try done.
  by rewrite andb_false_r.
Qed.

Lemma suffix_collision_same (labels : list string) :
  suffix_collision labels labels = false.
Proof.
  unfold suffix_collision. induction (duplicated labels) as [|b bs IH];
    [done|].
  simpl. rewrite IH. by destruct b.
Qed.

Lemma numeric_column_index (c : string) (d : DataFrame) (i : nat) :
  numeric_column c d → index_of c (columns d) = Some i →
  Forall (fun x => is_num x = true)
         (map (fun r => default CNull (r !! i)) (rows d)).
Proof.
  intros (s & Hs & Hnum) Hi. rewrite (df_get_index _ _ _ Hi) in Hs.
  by injection Hs as <-.
Qed.

Lemma numeric_column_elem (c : string) (d : DataFrame) :
  numeric_column c d → c ∈ columns d.
Proof.
  intros (s & Hs & _). unfold df_get in Hs.
  destruct (index_of c (columns d)) as [i|] eqn:Hi; [|done].
  apply list_elem_of_lookup. exists i. by apply index_of_lookup.
Qed.

(** The field processor's [weather_station_mapping] on a loaded field table
    and a mapping table of the expected shapes: it succeeds, adds the column
    [Weather_station] and turns every field row into its [station_rows]. *)
Lemma weather_station_mapping_rows `{DataIngestion}
    (self : FieldDataProcessor) (d m : DataFrame) (i : nat) :
  df self = Some d → field_schema d →
  index_of "Field_ID" (columns d) = Some i →
  read_from_web_CSV (weather_map_data self) = Return m →
  mapping_schema m →
  let d' := mkDF (columns d ++ ["Weather_station"])
                 (flat_map (station_rows i (rows m)) (rows d)) in
  Field.weather_station_mapping self = Return (d', Field.set_df self d').
Proof.
  intros Hdf (Hwf & Hnd & Hkey & Hu & Hw) Hi Hread Hm d'.
  unfold Field.weather_station_mapping. rewrite Hread, bind_ret, Hdf.
  simpl from_option. rewrite bind_ret.
  unfold merge_left. rewrite Hi. simpl from_option. rewrite bind_ret.
  pose proof (numeric_column_index _ _ _ Hkey Hi) as Hlkeys.
  pose proof Hm as (Hcols & Hmwf & Hmkey).
  assert (index_of "Field_ID" (columns m) = Some 1) as Hj
    by (by rewrite Hcols).
  pose proof (numeric_column_index _ _ _ Hmkey Hj) as Hrkeys.
  rewrite Hj. simpl from_option. rewrite bind_ret.
  rewrite (NoDup_not_repeated _ _ Hnd).
  rewrite (key_kinds_clash_numeric _ _ Hlkeys Hrkeys).
  rewrite Hcols.
  assert (repeated "Field_ID" ["Unnamed: 0"; "Field_ID"; "Weather_station"]
          = false) as -> by (by vm_compute).
  simpl delete. simpl length. change (false || false) with false. cbv iota.
  rewrite merge_label_other; last first.
  { intros l Hl. right.
    intros [->|[->|[]%elem_of_nil]%elem_of_cons]%elem_of_cons; done. }
  rewrite merge_label_other; last first.
  { intros l [->|[->|[]%elem_of_nil]%elem_of_cons]%elem_of_cons; by right. }
  rewrite !suffix_collision_same. change (false || false) with false.
  cbv iota.
  rewrite bind_ret. unfold df_drop. simpl columns.
  rewrite decide_True by (apply elem_of_app; right; left).
  rewrite bind_ret. simpl rows.
  match goal with |- Return (?x, _) = _ => assert (x = d') as -> end; [|done].
  unfold d'. f_equal.
  - rewrite filter_app, filter_labels_other by done. reflexivity.
  - apply map_flat_map_Forall. eapply Forall_impl; [exact Hwf|].
    intros lr Hlr. by apply join_row_stations.
Qed.

Lemma station_rows_shape i right lr r2 :
  r2 ∈ station_rows i right lr → ∃ w, r2 = lr ++ [w].
Proof.
  unfold station_rows. destruct (matches i right lr) as [|rr ms].
  - intros ->%list_elem_of_singleton. eauto.
  - intros (rr' & -> & _)%list_elem_of_fmap. eauto.
Qed.

Lemma filter_key_unique {A} (key : A → cell) (k : cell) (l : list A) :
  NoDup (key <$> l) →
  filter (fun a => key a = k) l = [] ∨
  ∃ a, filter (fun a => key a = k) l = [a].
Proof.
  induction l as [|a l IH]; [by left|].
  rewrite fmap_cons. intros [Ha Hnd]%NoDup_cons.
  destruct (decide (key a = k)) as [Hk|Hk].
  - right. exists a. rewrite filter_cons_True by done. f_equal.
    destruct (filter (fun a => key a = k) l) as [|b l'] eqn:E; [done|].
    exfalso. apply Ha. apply list_elem_of_fmap. exists b.
    assert (b ∈ filter (fun a => key a = k) l) as Hb by (rewrite E; left).
    apply list_elem_of_filter in Hb as [Hb ?]. split; [congruence | done].
  - rewrite filter_cons_False by done. by apply IH.
Qed.

(** C5, as the code has it: on a field table and a mapping table of the
    expected shapes, when no two rows of the mapping table have the same
    [Field_ID] (the two zeros being one key), the join succeeds and keeps the
    rows of the field table, one for one and in order; a field row gets the
    station of the mapping row with its [Field_ID], and [NaN] as station
    when there is none. *)
Theorem weather_station_mapping_keeps_rows `{DataIngestion}
    (self : FieldDataProcessor) (d m : DataFrame)
    (ids keys stations : list cell) :
  df self = Some d → field_schema d →
  df_get "Field_ID" d = Return ids →
  read_from_web_CSV (weather_map_data self) = Return m →
  mapping_schema m →
  df_get "Field_ID" m = Return keys →
  df_get "Weather_station" m = Return stations →
  NoDup (key_norm <$> keys) →
  ∃ d' self',
    Field.weather_station_mapping self = Return (d', self') ∧
    df self' = Some d' ∧
    columns d' = columns d ++ ["Weather_station"] ∧
    length (rows d') = length (rows d) ∧
    ∀ (k : nat) (lr : list cell) (id : cell),
      rows d !! k = Some lr → ids !! k = Some id →
      ∃ w, rows d' !! k = Some (lr ++ [w]) ∧
           (key_norm id ∉ key_norm <$> keys → w = CNum PrimFloat.nan) ∧
           (∀ (j : nat) (key : cell),
              keys !! j = Some key → key_norm key = key_norm id →
              stations !! j = Some w).
Proof.
  intros Hdf Hfs Hids Hread Hm Hkeys Hstations Hnd.
  unfold df_get in Hids.
  destruct (index_of "Field_ID" (columns d)) as [i|] eqn:Hi; [|done].
  simpl in Hids. injection Hids as <-.
  pose proof Hm as [Hcols _].
  unfold df_get in Hkeys, Hstations. rewrite Hcols in Hkeys, Hstations.
  simpl in Hkeys, Hstations. injection Hkeys as <-. injection Hstations as <-.
  change (map ?f ?l) with (f <$> l) in Hnd.
  rewrite <- list_fmap_compose in Hnd.
  eexists _, _. split.
  { by apply (weather_station_mapping_rows self d m i). }
  split; [done|]. split; [done|]. simpl.
  set (key := fun r : list cell => key_norm (default CNull (r !! 1))).
  assert (∀ lr, ∃ w,
            station_rows i (rows m) lr = [lr ++ [w]] ∧
            (key_norm (default CNull (lr !! i)) ∉ key <$> rows m →
             w = CNum PrimFloat.nan) ∧
            (∀ j rr, rows m !! j = Some rr →
                     key rr = key_norm (default CNull (lr !! i)) →
                     default CNull (rr !! 2) = w))
    as Hrow.
  { intros lr. unfold station_rows, matches.
    destruct (filter_key_unique key
                (key_norm (default CNull (lr !! i))) (rows m) Hnd)
      as [E|[rr E]]; unfold key in E; rewrite E.
    - exists (CNum PrimFloat.nan). split; [done|]. split; [done|].
      intros j rr Hrr Hj. exfalso.
      assert (rr ∈ filter (fun r => key_norm (default CNull (r !! 1))
                                   = key_norm (default CNull (lr !! i)))
                          (rows m)) as Hin.
      { apply list_elem_of_filter. split; [done|].
        by eapply list_elem_of_lookup_2. }
      rewrite E in Hin. by apply elem_of_nil in Hin.
    - exists (default CNull (rr !! 2)). split; [done|].
      assert (rr ∈ filter (fun r => key_norm (default CNull (r !! 1))
                                   = key_norm (default CNull (lr !! i)))
                          (rows m)) as Hin
        by (rewrite E; left).
      apply list_elem_of_filter in Hin as [Hkey Hin]. split.
      + intros Hnot. exfalso. apply Hnot. apply list_elem_of_fmap.
        by exists rr.
      + intros j rr' Hrr Hj.
        assert (rr' ∈ filter (fun r => key_norm (default CNull (r !! 1))
                                      = key_norm (default CNull (lr !! i)))
                             (rows m))
          as Hin'.
        { apply list_elem_of_filter. split; [done|].
          by eapply list_elem_of_lookup_2. }
        rewrite E in Hin'. apply list_elem_of_singleton in Hin'. by subst. }
  assert (∃ ws, flat_map (station_rows i (rows m)) (rows d)
                = zip_with (fun lr w => lr ++ [w]) (rows d) ws ∧
                length ws = length (rows d) ∧
                ∀ k lr, rows d !! k = Some lr →
                  ∃ w, ws !! k = Some w ∧
                       station_rows i (rows m) lr = [lr ++ [w]])
    as (ws & -> & Hlen & Hws).
  { clear -Hrow. induction (rows d) as [|lr rs IH].
    - exists []. split; [done|]. split; [done|].
      intros k lr. by rewrite lookup_nil.
    - destruct IH as (ws & IH & Hlen & Hws).
      destruct (Hrow lr) as (w & Hw & _).
      exists (w :: ws). simpl. rewrite Hw, IH.
      split; [done|]. split; [by rewrite Hlen|].
      intros [|k] lr'; simpl; [intros [= <-]; eauto | apply Hws]. }
  split.
  { rewrite length_zip_with. lia. }
  intros k lr id Hlr Hid.
  change (map ?f ?l) with (f <$> l) in Hid.
  rewrite list_lookup_fmap, Hlr in Hid. simpl in Hid. injection Hid as <-.
  destruct (Hws k lr Hlr) as (w & Hw & Hsr).
  destruct (Hrow lr) as (w' & Hsr' & Hnone & Hsome).
  rewrite Hsr in Hsr'. injection Hsr' as Heq. apply app_inv_head in Heq.
  injection Heq as <-.
  exists w. split; [|split].
  - rewrite lookup_zip_with, Hlr. simpl. by rewrite Hw.
  - intros Hnot. apply Hnone. intros Hin. apply Hnot.
    change (map ?f ?l) with (f <$> l). by rewrite <- list_fmap_compose.
  - intros j key' Hj Hsame.
    change (map ?f ?l) with (f <$> l) in Hj |- *.
    rewrite list_lookup_fmap in Hj |- *.
    destruct (rows m !! j) as [rr|] eqn:Hrr; [|done].
    simpl in Hj |- *. injection Hj as <-. f_equal.
    by apply (Hsome j rr).
Qed.

Lemma weather_station_mapping_keeps_rows_witness :
  ∃ d' self',
    @Field.weather_station_mapping sample_collaborators sample_processor
    = Return (d', self') ∧
    df self' = Some d' ∧
    columns d' = columns sample_swapped_table ++ ["Weather_station"] ∧
    length (rows d') = length (rows sample_swapped_table) ∧
    ∀ (k : nat) (lr : list cell) (id : cell),
      rows sample_swapped_table !! k = Some lr →
      [CNum 1; CNum 2; CNum 3]%float !! k = Some id →
      ∃ w, rows d' !! k = Some (lr ++ [w]) ∧
           (key_norm id ∉ key_norm <$> [CNum 2; CNum 1]%float →
            w = CNum PrimFloat.nan) ∧
           (∀ (j : nat) (key : cell),
              [CNum 2; CNum 1]%float !! j = Some key →
              key_norm key = key_norm id →
              [CNum 4; CNum 0]%float !! j = Some w).
Proof.
  apply (@weather_station_mapping_keeps_rows sample_collaborators
           sample_processor sample_swapped_table sample_mapping_table).
  - reflexivity.
  - field_schema_holds.
  - reflexivity.
  - reflexivity.
  - mapping_schema_holds.
  - reflexivity.
  - reflexivity.
  - by_evaluation.
Defined.

(** C5 as stated fails: a mapping table that lists a field twice makes the
    join return that field's row twice, so one field row becomes two. *)
Lemma weather_station_mapping_repeats_rows :
  ∃ d' self',
    @Field.weather_station_mapping sample_repeating_collaborators
      sample_one_field_processor = Return (d', self') ∧
    rows d' = [[CNum 1; CNum 5.5; CNum 4]; [CNum 1; CNum 5.5; CNum 0]]%float ∧
    length (rows d') ≠ length (rows sample_one_field_table).
Proof.
  eexists _, _.
  split; [vm_compute; reflexivity|]. split; [reflexivity | discriminate].
Qed.

(** ** Elevations *)

Lemma abs_nonneg (x : float) :
  is_number x = true → PrimFloat.leb 0 (PrimFloat.abs x) = true.
Proof.
  unfold is_number.
  rewrite !FloatAxioms.ltb_spec, FloatAxioms.eqb_spec,
    FloatAxioms.leb_spec, FloatAxioms.abs_spec.
  change (Prim2SF 0) with (S754_zero false).
  destruct (Prim2SF x) as [s|s| |s m e]; try destruct s; done.
Qed.

Lemma abs_number_nonneg (c : cell) :
  number_cell c → nonneg_cell (abs_number c).
Proof.
  intros (x & -> & Hx). exists (PrimFloat.abs x). split; [done|].
  by apply abs_nonneg.
Qed.

Lemma index_of_app c cols cols2 i :
  index_of c cols = Some i → index_of c (cols ++ cols2) = Some i.
Proof.
  revert i. induction cols as [|l cols IH]; intros i; simpl; [done|].
  case_decide; [done|].
  destruct (index_of c cols) as [k|]; simpl; [|done].
  intros [= <-]. by rewrite (IH k eq_refl).
Qed.

(** ** Extraction of a measurement *)

Lemma extract_loop_skips `{PythonRuntime} (self : WeatherDataProcessor)
    (before items : list (string * string)) (message : string) :
  Forall (fun item => re_search (snd item) message = Return None) before →
  Weather.extract_loop self (before ++ items) (CStr message)
  = Weather.extract_loop self items (CStr message).
Proof.
  induction 1 as [|[key pattern] before Hnone _ IH]; [done|].
  simpl in *. by rewrite Hnone.
Qed.

Lemma extract_loop_match `{PythonRuntime} (self : WeatherDataProcessor)
    (key pattern : string) (items : list (string * string))
    (message : string) (g : groups) :
  re_search pattern message = Return (Some g) →
  Weather.extract_loop self ((key, pattern) :: items) (CStr message)
  = (text ← Weather.first_non_null g;
     value ← py_float text;
     Return ((Some key, Some value),
             Weather.weather_logged self DEBUG
               ("Measurement extracted: " +:+ key))).
Proof. intros Hmatch. simpl. by rewrite Hmatch. Qed.

Lemma first_non_null_all_null (g : groups) :
  Forall (fun x => x = None) g →
  Weather.first_non_null g = Raise StopIteration.
Proof.
  unfold Weather.first_non_null.
  induction 1 as [|x g -> _ IH]; [done|]. exact IH.
Qed.

(** C1, as the code has it.  When a configured pattern matches, and in the
    match of the earliest one that does some capture group took part and the
    text of the first group that did is one [float] accepts,
    [extract_measurement] returns the kind of that pattern and the float of
    that text; when no configured pattern matches, it returns
    [(None, None)]. *)
Theorem extract_measurement_first_match `{PythonRuntime}
    (self : WeatherDataProcessor) (message : string) :
  (∀ before key pattern after (g : groups) text v,
     patterns self = before ++ (key, pattern) :: after →
     Forall (fun item => re_search (snd item) message = Return None) before →
     re_search pattern message = Return (Some g) →
     Weather.first_non_null g = Return text →
     py_float text = Return v →
     fst <$> Weather.extract_measurement self (CStr message)
     = Return (Some key, Some v)) ∧
  (Forall (fun item => re_search (snd item) message = Return None)
          (patterns self) →
   fst <$> Weather.extract_measurement self (CStr message)
   = Return (None, None)).
Proof.
  unfold Weather.extract_measurement. split.
  - intros before key pattern after g text v -> Hbefore Hmatch Htext Hfloat.
    rewrite extract_loop_skips by done.
    rewrite (extract_loop_match _ _ _ _ _ _ Hmatch).
    rewrite Htext, bind_ret, Hfloat. done.
  - intros Hnone.
    rewrite <- (app_nil_r (patterns self)).
    by rewrite extract_loop_skips.
Qed.

Lemma extract_measurement_first_match_witness :
  fst <$> @Weather.extract_measurement sample_runtime sample_unloaded
            (CStr "Temp 21.5 C")
  = Return (Some "Temperature", Some 21.5%float) ∧
  fst <$> @Weather.extract_measurement sample_runtime sample_unloaded
            (CStr "Sensor offline")
  = Return (None, None).
Proof.
  split.
  - apply (proj1 (@extract_measurement_first_match sample_runtime
                    sample_unloaded "Temp 21.5 C")
             [("Rainfall", "(\d+(\.\d+)?)\s?mm")]
             "Temperature" "(\d+(\.\d+)?)\s?C"
             [("Pollution_level",
               "=\s*(-?\d+(\.\d+)?)|Pollution at \s*(-?\d+(\.\d+)?)")]
             [Some "21.5"; Some ".5"] "21.5" 21.5%float).
    + reflexivity.
    + repeat constructor.
    + reflexivity.
    + reflexivity.
    + reflexivity.
  - apply (proj2 (@extract_measurement_first_match sample_runtime
                    sample_unloaded "Sensor offline")).
    repeat constructor.
Defined.

(** C1 as stated fails: the pattern matches the message, with its only
    group outside the alternative that matched, and the extraction raises
    instead of returning a pair. *)
Lemma extract_measurement_match_without_pair :
  @re_search sample_runtime "(\d+)mm|dry" "dry" = Return (Some [None]) ∧
  @Weather.extract_measurement sample_runtime sample_alternative (CStr "dry")
  = Raise StopIteration ∧
  ∀ r, fst <$> @Weather.extract_measurement sample_runtime sample_alternative
                 (CStr "dry")
       ≠ Return r.
Proof.
  split; [reflexivity|]. split; [reflexivity|].
  intros r Hr. vm_compute in Hr. discriminate.
Qed.

(** C10: when the match of the earliest matching pattern has no capture
    group that took part, [extract_measurement] raises [StopIteration]: it
    returns neither a measurement nor [(None, None)]. *)
Theorem extract_measurement_raises_without_group `{PythonRuntime}
    (self : WeatherDataProcessor) (message : string)
    (before after : list (string * string)) (key pattern : string)
    (g : groups) :
  patterns self = before ++ (key, pattern) :: after →
  Forall (fun item => re_search (snd item) message = Return None) before →
  re_search pattern message = Return (Some g) →
  Forall (fun x => x = None) g →
  Weather.extract_measurement self (CStr message) = Raise StopIteration ∧
  ∀ r, Weather.extract_measurement self (CStr message) ≠ Return r.
Proof.
  intros Hitems Hbefore Hmatch Hnull.
  assert (Weather.extract_measurement self (CStr message)
          = Raise StopIteration) as Hraise.
  { unfold Weather.extract_measurement. rewrite Hitems.
    rewrite extract_loop_skips by done.
    rewrite (extract_loop_match _ _ _ _ _ _ Hmatch).
    by rewrite first_non_null_all_null. }
  split; [done|]. intros r. by rewrite Hraise.
Qed.

Lemma extract_measurement_raises_without_group_witness :
  @Weather.extract_measurement sample_runtime sample_two_patterns (CStr "dry")
  = Raise StopIteration ∧
  ∀ r, @Weather.extract_measurement sample_runtime sample_two_patterns
         (CStr "dry")
       ≠ Return r.
Proof.
  apply (@extract_measurement_raises_without_group sample_runtime
           sample_two_patterns "dry"
           [("Temperature", "(\d+(\.\d+)?)\s?C")] []
           "Rainfall" "(\d+)mm|dry" [None]).
  - reflexivity.
  - repeat constructor.
  - reflexivity.
  - repeat constructor.
Defined.

(** ** The log of the weather processor *)

Lemma logged_only_refl P self : logged_only P self self.
Proof. exists []. by rewrite app_nil_r. Qed.

Lemma logged_only_trans P self1 self2 self3 :
  logged_only P self1 self2 → logged_only P self2 self3 →
  logged_only P self1 self3.
Proof.
  intros (l1 & H1 & HP1) (l2 & H2 & HP2). exists (l1 ++ l2).
  split; [by rewrite H2, H1, app_assoc | by apply Forall_app].
Qed.

Lemma logged_only_logged (P : log_record → Prop) self lvl msg :
  P (lvl, msg) → logged_only P self (Weather.weather_logged self lvl msg).
Proof. intros HP. exists [(lvl, msg)]. split; [done | by constructor]. Qed.

Lemma logged_only_set_df P self d :
  logged_only P self (Weather.set_weather_df self d).
Proof. exists []. by rewrite app_nil_r. Qed.

Lemma not_means_record_debug (msg : string) : (DEBUG, msg) ∉ means_records.
Proof.
  unfold means_records.
  intros [[=]|[[=]|[]%elem_of_nil]%elem_of_cons]%elem_of_cons.
Qed.

Lemma extract_loop_logged `{PythonRuntime} self items message r self' :
  Weather.extract_loop self items message = Return (r, self') →
  logged_only (fun rec => rec ∉ means_records) self self'.
Proof.
  induction items as [|[key pattern] items IH]; simpl.
  - intros [= <- <-]. apply logged_only_logged, not_means_record_debug.
  - destruct (Weather.search_cell pattern message) as [[g|]|]; simpl;
      [|done..].
    destruct (Weather.first_non_null g) as [text|]; simpl; [|done].
    destruct (py_float text) as [v|]; simpl; [|done].
    intros [= <- <-]. apply logged_only_logged, not_means_record_debug.
Qed.

Lemma apply_extract_logged `{PythonRuntime} self messages rs self' :
  Weather.apply_extract self messages = Return (rs, self') →
  logged_only (fun rec => rec ∉ means_records) self self'.
Proof.
  revert self rs. induction messages as [|message messages IH];
    intros self rs; simpl.
  - intros [= <- <-]. apply logged_only_refl.
  - unfold Weather.extract_measurement.
    destruct (Weather.extract_loop self (patterns self) message)
      as [[r self1]|] eqn:E; simpl; [|done].
    destruct (Weather.apply_extract self1 messages)
      as [[rs' self2]|] eqn:E'; simpl; [|done].
    intros [= <- <-]. eapply logged_only_trans.
    + by eapply extract_loop_logged.
    + by eapply IH.
Qed.

Lemma process_messages_logged `{PythonRuntime} self o self' :
  Weather.process_messages self = Return (o, self') →
  logged_only (fun rec => rec ∉ means_records) self self'.
Proof.
  unfold Weather.process_messages.
  destruct (weather_df self) as [d|]; simpl.
  - destruct (df_get "Message" d) as [messages|]; simpl; [|done].
    destruct (Weather.apply_extract self messages)
      as [[pairs self1]|] eqn:E; simpl; [|done].
    destruct (Weather.unzip_pairs pairs) as [[kinds values]|]; simpl;
      [|done].
    destruct (df_set "Measurement" _ d) as [d1|]; simpl; [|done].
    destruct (df_set "Value" _ d1) as [d2|]; simpl; [|done].
    intros [= <- <-]. eapply logged_only_trans.
    + by eapply apply_extract_logged.
    + eapply logged_only_trans; [apply logged_only_set_df|].
      apply logged_only_logged. unfold means_records.
      intros [[=]|[[=]|[]%elem_of_nil]%elem_of_cons]%elem_of_cons.
  - intros [= <- <-]. apply logged_only_logged. unfold means_records.
    intros [[=]|[[=]|[]%elem_of_nil]%elem_of_cons]%elem_of_cons.
Qed.

Lemma process_logged `{DataIngestion} `{PythonRuntime} self self' :
  Weather.process self = Return self' →
  logged_only (fun rec => rec ∉ means_records) self self'.
Proof.
  unfold Weather.process, Weather.weather_station_mapping.
  destruct (read_from_web_CSV (weather_station_data self)) as [d|]; simpl;
    [|done].
  destruct (Weather.process_messages _) as [[o self1]|] eqn:E; simpl; [|done].
  intros [= <-].
  eapply logged_only_trans; [apply logged_only_set_df|].
  eapply logged_only_trans.
  { apply (logged_only_logged _ _ INFO
             "Successfully loaded weather station data from the web.").
    unfold means_records.
    intros [[=]|[[=]|[]%elem_of_nil]%elem_of_cons]%elem_of_cons. }
  eapply logged_only_trans; [by eapply process_messages_logged|].
  apply logged_only_logged. unfold means_records.
  intros [[=]|[[=]|[]%elem_of_nil]%elem_of_cons]%elem_of_cons.
Qed.

Lemma calculate_means_inv self d p self' :
  weather_df self = Some d →
  Weather.calculate_means self = Return (p, self') →
  ∃ stations kinds values readings,
    Weather.keys_by_row d = false ∧
    df_get "Weather_station_ID" d = Return stations ∧
    df_get "Measurement" d = Return kinds ∧
    df_get "Value" d = Return values ∧
    map_result (Weather.row_reading stations kinds)
      (zip (zip stations kinds) values) = Return readings ∧
    p = Some (Weather.means_unstacked (forallb is_num values) readings) ∧
    self' = Weather.weather_logged self INFO "Mean values calculated.".
Proof.
  intros Hdf. unfold Weather.calculate_means. rewrite Hdf.
  destruct (Weather.keys_by_row d).
  - intros Hret.
    apply bind_Return_inv in Hret as (values & _ & Hret).
    by apply bind_Return_inv in Hret as (vals & _ & Hret).
  - intros Hret.
    apply bind_Return_inv in Hret as (stations & Hs & Hret).
    apply bind_Return_inv in Hret as (kinds & Hk & Hret).
    apply bind_Return_inv in Hret as (values & Hv & Hret).
    apply bind_Return_inv in Hret as (readings & Hr & Hret).
    injection Hret as <- <-. by exists stations, kinds, values, readings.
Qed.

Lemma calculate_means_logged self p self' :
  Weather.calculate_means self = Return (p, self') →
  weather_df self' = weather_df self ∧
  ∃ rec, rec ∈ means_records ∧ weather_log self' = weather_log self ++ [rec].
Proof.
  destruct (weather_df self) as [d|] eqn:Hdf.
  - intros Hret.
    destruct (calculate_means_inv _ _ _ _ Hdf Hret)
      as (? & ? & ? & ? & _ & _ & _ & _ & _ & _ & ->).
    split; [done|]. eexists. split; [|done]. left.
  - unfold Weather.calculate_means. rewrite Hdf.
    intros [= <- <-]. split; [done|]. eexists. split; [|done].
    right. left.
Qed.

(** C9: with no table loaded, [process_messages] and [calculate_means]
    return [None] without raising and leave the processor without a table;
    and [process] never takes the step of [calculate_means]: every record
    it logs is none of those [calculate_means] logs, whereas a call of
    [calculate_means] always logs one of them. *)
Theorem unloaded_weather_table_is_skipped (self : WeatherDataProcessor) :
  weather_df self = None →
  (∀ runtime : PythonRuntime,
     ∃ self', Weather.process_messages self = Return (None, self') ∧
              weather_df self' = None) ∧
  (∃ self', Weather.calculate_means self = Return (None, self') ∧
            weather_df self' = None) ∧
  (∀ (ingestion : DataIngestion) (runtime : PythonRuntime) self0 self',
     Weather.process self0 = Return self' →
     logged_only (fun rec => rec ∉ means_records) self0 self') ∧
  (∀ self0 p self',
     Weather.calculate_means self0 = Return (p, self') →
     ∃ rec, rec ∈ means_records ∧
            weather_log self' = weather_log self0 ++ [rec]).
Proof.
  intros Hdf. split; [|split; [|split]].
  - intros runtime. unfold Weather.process_messages. rewrite Hdf.
    by eexists.
  - unfold Weather.calculate_means. rewrite Hdf. by eexists.
  - intros ingestion runtime self0 self'. apply process_logged.
  - intros self0 p self' Hmeans.
    by destruct (calculate_means_logged _ _ _ Hmeans).
Qed.

Lemma unloaded_weather_table_is_skipped_witness :
  (∃ self', @Weather.process_messages sample_runtime sample_unloaded
            = Return (None, self') ∧ weather_df self' = None) ∧
  (∃ self', Weather.calculate_means sample_unloaded = Return (None, self') ∧
            weather_df self' = None) ∧
  (∃ self', @Weather.process sample_collaborators sample_runtime
              sample_unloaded = Return self' ∧
            logged_only (fun rec => rec ∉ means_records)
              sample_unloaded self').
Proof.
  destruct (unloaded_weather_table_is_skipped sample_unloaded eq_refl)
    as (Hmessages & Hmeans & Hprocess & _).
  split; [apply Hmessages|]. split; [apply Hmeans|].
  eexists. split; [vm_compute; reflexivity|].
  apply (Hprocess sample_collaborators sample_runtime).
  vm_compute. reflexivity.
Defined.

(** ** Means per group *)

Lemma lookup_group_accumulate k k' v acc :
  Weather.lookup_group k (Weather.accumulate k' v acc)
  = if decide (k' = k)
    then Some (default [] (Weather.lookup_group k acc) ++ [v])
    else Weather.lookup_group k acc.
Proof.
  induction acc as [|[k0 a] acc IH]; simpl.
  - by repeat case_decide.
  - destruct (decide (k0 = k')) as [->|Hk0]; simpl.
    + by repeat case_decide.
    + rewrite IH. repeat case_decide; congruence.
Qed.

Lemma lookup_group_step k acc r :
  Weather.lookup_group k (Weather.group_step acc r)
  = stat_step k (Weather.lookup_group k acc) r.
Proof.
  unfold Weather.group_step, stat_step.
  destruct (Weather.grouped r); simpl; [|done].
  rewrite lookup_group_accumulate.
  by destruct (decide (fst r = k)); [rewrite bool_decide_true|
                                      rewrite bool_decide_false].
Qed.

Lemma lookup_group_fold k readings acc :
  Weather.lookup_group k (fold_left Weather.group_step readings acc)
  = fold_left (stat_step k) readings (Weather.lookup_group k acc).
Proof.
  revert acc. induction readings as [|r readings IH]; intros acc; [done|].
  simpl. by rewrite IH, lookup_group_step.
Qed.

Lemma stat_fold_is_Some k readings o :
  is_Some (fold_left (stat_step k) readings o) ↔
  is_Some o ∨ ∃ r, r ∈ readings ∧ Weather.grouped r = true ∧ fst r = k.
Proof.
  revert o. induction readings as [|r readings IH]; intros o; simpl.
  - split; [by left|]. intros [?|(r & []%elem_of_nil & _)]; done.
  - rewrite IH. unfold stat_step.
    destruct (Weather.grouped r) eqn:Hg; simpl.
    + destruct (decide (fst r = k)) as [Hk|Hk].
      * rewrite bool_decide_true by done. split; [|by eauto].
        intros _. right. exists r. split; [left | done].
      * rewrite bool_decide_false by done. split.
        -- intros [?|(r' & Hin & ?)]; [by left|].
           right. exists r'. split; [by right | done].
        -- intros [?|(r' & Hin & Hg' & Hk')]; [by left|].
           apply elem_of_cons in Hin as [->|Hin]; [done|]. right. eauto.
    + split.
      * intros [?|(r' & Hin & ?)]; [by left|].
        right. exists r'. split; [by right | done].
      * intros [?|(r' & Hin & Hg' & Hk')]; [by left|].
        apply elem_of_cons in Hin as [->|Hin]; [congruence|]. right. eauto.
Qed.

(** The values a group ends with are those of its readings, in their
    order. *)
Lemma stat_fold_values (k : cell * cell) readings
    (a : list (option float)) :
  is_null (fst k) = false → is_null (snd k) = false →
  fold_left (stat_step k) readings (Some a)
  = Some (a ++ group_readings readings k).
Proof.
  intros Hs Hm. revert a.
  induction readings as [|r readings IH]; intros a; simpl.
  - by rewrite app_nil_r.
  - unfold stat_step at 2. unfold group_readings. simpl.
    destruct (decide (fst r = k)) as [Hk|Hk].
    + assert (Weather.grouped r = true) as ->.
      { unfold Weather.grouped. rewrite Hk, Hs, Hm. done. }
      rewrite bool_decide_true by done. simpl. rewrite IH.
      fold (group_readings readings k). by rewrite <- app_assoc.
    + rewrite bool_decide_false by done. rewrite andb_false_r.
      by rewrite IH.
Qed.

Lemma group_readings_none k readings :
  (¬ ∃ r, r ∈ readings ∧ fst r = k) → group_readings readings k = [].
Proof.
  induction readings as [|r readings IH]; [done|]. intros Hno.
  unfold group_readings. simpl. destruct (decide (fst r = k)) as [Hk|Hk].
  - exfalso. apply Hno. exists r. split; [left | done].
  - apply IH. intros (r' & Hin & Hk'). apply Hno. exists r'.
    split; [by right | done].
Qed.

Lemma elem_of_keys_lookup (k : cell * cell) (acc : Weather.groups) :
  k ∈ fst <$> acc ↔ is_Some (Weather.lookup_group k acc).
Proof.
  induction acc as [|[k0 a] acc IH].
  - split; [by intros ?%elem_of_nil | by intros [? ?]].
  - rewrite fmap_cons, elem_of_cons. simpl.
    destruct (decide (k0 = k)) as [->|Hk].
    + split; [by eauto | by left].
    + rewrite <- IH. split; [by intros [?|?] | by right].
Qed.

Lemma insert_sorted_perm x l : Weather.insert_sorted x l ≡ₚ x :: l.
Proof.
  induction l as [|y l IH]; simpl; [done|].
  destruct (Weather.cell_leb x y); [done|].
  rewrite IH. apply Permutation_swap.
Qed.

Lemma sort_labels_perm l : Weather.sort_labels l ≡ₚ l.
Proof.
  induction l as [|x l IH]; simpl; [done|].
  by rewrite insert_sorted_perm, IH.
Qed.

Lemma stat_fold_None k readings :
  fold_left (stat_step k) readings None = None ∨
  fold_left (stat_step k) readings None
  = fold_left (stat_step k) readings (Some []).
Proof.
  induction readings as [|r readings IH]; [by left|]. simpl.
  assert (∀ o, stat_step k o r
               = if Weather.grouped r && bool_decide (fst r = k)
                 then Some (default [] o ++ [snd r])
                 else o) as Hstep by done.
  rewrite !Hstep.
  destruct (Weather.grouped r && bool_decide (fst r = k)); [by right | done].
Qed.

Lemma grouped_keys {A} (r : (cell * cell) * A) :
  Weather.grouped r = true ↔
  is_null (fst (fst r)) = false ∧ is_null (snd (fst r)) = false.
Proof.
  unfold Weather.grouped.
  destruct (is_null (fst (fst r))), (is_null (snd (fst r))); simpl;
    intuition congruence.
Qed.

Lemma group_keys readings (k : cell * cell) :
  k ∈ fst <$> fold_left Weather.group_step readings [] ↔
  ∃ r, r ∈ readings ∧ Weather.grouped r = true ∧ fst r = k.
Proof.
  rewrite elem_of_keys_lookup, lookup_group_fold, stat_fold_is_Some.
  simpl. split; [|by right]. by intros [[? [=]]|?].
Qed.

Lemma group_mean_nil float_column :
  Weather.group_mean float_column [] = PrimFloat.nan.
Proof. by destruct float_column. Qed.

(** The mean of a group, as laid out by [unstack], is the mean of the
    values of its readings. *)
Lemma group_cell_mean float_column readings (s m : cell) :
  is_null s = false → is_null m = false →
  match Weather.lookup_group (s, m)
          (fold_left Weather.group_step readings []) with
  | Some vs => Weather.group_mean float_column vs
  | None => PrimFloat.nan
  end = Weather.group_mean float_column (group_readings readings (s, m)).
Proof.
  intros Hs Hm. rewrite lookup_group_fold. simpl.
  destruct (stat_fold_None (s, m) readings) as [E|E].
  - rewrite E. rewrite group_readings_none; [by rewrite group_mean_nil|].
    intros (r & Hin & Hk).
    assert (is_Some (fold_left (stat_step (s, m)) readings None)) as [? ?].
    { apply stat_fold_is_Some. right. exists r. split; [done|].
      split; [|done]. apply grouped_keys. by rewrite Hk. }
    congruence.
  - rewrite E, stat_fold_values by done. reflexivity.
Qed.

Lemma means_unstacked_spec float_column
    (readings : list Weather.reading) :
  let p := Weather.means_unstacked float_column readings in
  NoDup (Weather.pivot_index p) ∧ NoDup (Weather.pivot_columns p) ∧
  (∀ s, s ∈ Weather.pivot_index p ↔
        ∃ r, r ∈ readings ∧ Weather.grouped r = true ∧ fst (fst r) = s) ∧
  (∀ m, m ∈ Weather.pivot_columns p ↔
        ∃ r, r ∈ readings ∧ Weather.grouped r = true ∧ snd (fst r) = m) ∧
  (∀ i j s m,
     Weather.pivot_index p !! i = Some s →
     Weather.pivot_columns p !! j = Some m →
     pivot_get p i j
     = Some (Weather.group_mean float_column
               (group_readings readings (s, m)))).
Proof.
  intros p. unfold p, Weather.means_unstacked. simpl.
  set (acc := fold_left Weather.group_step readings []).
  assert (∀ s, s ∈ Weather.sort_labels
                     (remove_dups (map (fun g => fst (fst g)) acc)) ↔
               ∃ r, r ∈ readings ∧ Weather.grouped r = true
                    ∧ fst (fst r) = s) as Hindex.
  { intros s. rewrite sort_labels_perm, elem_of_remove_dups.
    change (map ?f ?l) with (f <$> l). rewrite list_elem_of_fmap. split.
    - intros ([k a] & -> & Hin).
      assert (k ∈ fst <$> acc) as Hk
        by (apply list_elem_of_fmap; by exists (k, a)).
      apply group_keys in Hk as (r & ? & ? & <-). eauto.
    - intros (r & Hin & Hg & <-).
      assert (fst r ∈ fst <$> acc) as Hk by (apply group_keys; eauto).
      apply list_elem_of_fmap in Hk as ([k a] & Hk & Hka).
      exists (k, a). simpl in *. by rewrite Hk. }
  assert (∀ m, m ∈ Weather.sort_labels
                     (remove_dups (map (fun g => snd (fst g)) acc)) ↔
               ∃ r, r ∈ readings ∧ Weather.grouped r = true
                    ∧ snd (fst r) = m) as Hcolumns.
  { intros m. rewrite sort_labels_perm, elem_of_remove_dups.
    change (map ?f ?l) with (f <$> l). rewrite list_elem_of_fmap. split.
    - intros ([k a] & -> & Hin).
      assert (k ∈ fst <$> acc) as Hk
        by (apply list_elem_of_fmap; by exists (k, a)).
      apply group_keys in Hk as (r & ? & ? & <-). eauto.
    - intros (r & Hin & Hg & <-).
      assert (fst r ∈ fst <$> acc) as Hk by (apply group_keys; eauto).
      apply list_elem_of_fmap in Hk as ([k a] & Hk & Hka).
      exists (k, a). simpl in *. by rewrite Hk. }
  split; [rewrite sort_labels_perm; apply NoDup_remove_dups|].
  split; [rewrite sort_labels_perm; apply NoDup_remove_dups|].
  split; [done|]. split; [done|].
  intros i j s m Hi Hj. unfold pivot_get. simpl.
  change (map ?f ?l) with (f <$> l).
  rewrite list_lookup_fmap, Hi. simpl.
  change (map ?f ?l) with (f <$> l).
  rewrite list_lookup_fmap, Hj. simpl. f_equal.
  apply list_elem_of_lookup_2 in Hi, Hj.
  apply Hindex in Hi as (r & _ & [Hs _]%grouped_keys & <-).
  apply Hcolumns in Hj as (r' & _ & [_ Hm]%grouped_keys & <-).
  by apply group_cell_mean.
Qed.

(** *** The keys and their labels *)

Lemma eqb_zero_not_nan (x : float) :
  PrimFloat.eqb x 0 = true → PrimFloat.is_nan x = false.
Proof.
  unfold PrimFloat.is_nan. rewrite !FloatAxioms.eqb_spec.
  destruct (Prim2SF x) as [sx| sx | |sx mx ex]; try done.
  - by destruct sx.
  - by destruct sx.
Qed.

Lemma is_null_key_norm (c : cell) : is_null (key_norm c) = is_null c.
Proof.
  destruct c as [|x|s]; [done| |done]. simpl.
  destruct (PrimFloat.eqb x 0) eqn:E; [|done].
  simpl. symmetry. by apply eqb_zero_not_nan.
Qed.

Lemma same_key_null (a b : cell) :
  key_norm a = key_norm b → is_null a = is_null b.
Proof.
  intros H. by rewrite <- (is_null_key_norm a), H, is_null_key_norm.
Qed.

Lemma key_label_norm column c :
  key_norm (Weather.key_label column c) = key_norm c.
Proof.
  unfold Weather.key_label.
  destruct (filter (fun x => key_norm x = key_norm c) column)
    as [|x l] eqn:E; [done|]. simpl.
  assert (x ∈ filter (fun x => key_norm x = key_norm c) column) as Hin
    by (rewrite E; left).
  by apply list_elem_of_filter in Hin as [? _].
Qed.

Lemma key_label_elem column c :
  c ∈ column → Weather.key_label column c ∈ column.
Proof.
  intros Hc. unfold Weather.key_label.
  destruct (filter (fun x => key_norm x = key_norm c) column)
    as [|x l] eqn:E; [done|]. simpl.
  assert (x ∈ filter (fun x => key_norm x = key_norm c) column) as Hin
    by (rewrite E; left).
  by apply list_elem_of_filter in Hin as [_ ?].
Qed.

Lemma key_label_same column a b :
  key_norm a = key_norm b → b ∈ column →
  Weather.key_label column a = Weather.key_label column b.
Proof.
  intros Hab Hb. unfold Weather.key_label. rewrite Hab.
  destruct (filter (fun x => key_norm x = key_norm b) column)
    as [|x l] eqn:E; [|done].
  assert (b ∈ filter (fun x => key_norm x = key_norm b) column) as Hin
    by (by apply list_elem_of_filter).
  rewrite E in Hin. by apply elem_of_nil in Hin.
Qed.

Lemma key_label_null column c :
  is_null (Weather.key_label column c) = is_null c.
Proof. apply same_key_null, key_label_norm. Qed.

(** The label of a cell of the column is listed under itself. *)
Lemma key_label_label column c :
  c ∈ column →
  Weather.key_label column (Weather.key_label column c)
  = Weather.key_label column c.
Proof. intros Hc. by apply key_label_same; [apply key_label_norm|]. Qed.

(** *** The rows as the grouping reads them *)

Lemma map_result_Forall2 {A B} (f : A → result B) l l' :
  map_result f l = Return l' ↔ Forall2 (fun a b => f a = Return b) l l'.
Proof.
  revert l'. induction l as [|a l IH]; intros l'; simpl.
  - split; [by intros [= <-]; constructor | by intros ->%Forall2_nil_inv_l].
  - split.
    + intros (b & Hb & Hret)%bind_Return_inv.
      apply bind_Return_inv in Hret as (bs & Hbs & [= <-]).
      constructor; [done | by apply IH].
    + intros (b & bs & Hb & Hbs & ->)%Forall2_cons_inv_l.
      apply IH in Hbs. by rewrite Hb, bind_ret, Hbs, bind_ret.
Qed.

Lemma row_reading_inv stations kinds r r' :
  Weather.row_reading stations kinds r = Return r' →
  fst r' = (Weather.key_label stations (fst (fst r)),
            Weather.key_label kinds (snd (fst r))) ∧
  (Weather.grouped r = true → Weather.cell_value (snd r) = Return (snd r')) ∧
  (Weather.grouped r = false → snd r' = None).
Proof.
  unfold Weather.row_reading. destruct (Weather.grouped r).
  - intros (v & Hv & [= <-])%bind_Return_inv. by rewrite Hv.
  - by intros [= <-].
Qed.

Lemma row_reading_grouped stations kinds r r' :
  Weather.row_reading stations kinds r = Return r' →
  Weather.grouped r' = Weather.grouped r.
Proof.
  intros [Hk _]%row_reading_inv. unfold Weather.grouped.
  by rewrite Hk; simpl; rewrite !key_label_null.
Qed.

(** The rows are read without an exception exactly when no row that is
    kept holds a string for its value. *)
Lemma row_readings_outcome stations kinds
    (table : list ((cell * cell) * cell)) :
  (Forall (fun r => Weather.grouped r = true → is_string (snd r) = false)
          table →
   ∃ readings,
     map_result (Weather.row_reading stations kinds) table
     = Return readings) ∧
  (Exists (fun r => Weather.grouped r = true ∧ is_string (snd r) = true)
          table →
   map_result (Weather.row_reading stations kinds) table = Raise TypeError).
Proof.
  assert (∀ r, (Weather.grouped r = true → is_string (snd r) = false) →
               ∃ r', Weather.row_reading stations kinds r = Return r')
    as Hrow.
  { intros r Hr. unfold Weather.row_reading.
    destruct (Weather.grouped r); [|by eexists].
    destruct (snd r); [by eexists | by eexists | by discriminate Hr]. }
  assert (∀ r, (Weather.grouped r = true ∧ is_string (snd r) = true) →
               Weather.row_reading stations kinds r = Raise TypeError)
    as Hbad.
  { intros r [Hg Hr]. unfold Weather.row_reading. rewrite Hg.
    by destruct (snd r). }
  assert (∀ r, (∃ r', Weather.row_reading stations kinds r = Return r') ∨
               Weather.row_reading stations kinds r = Raise TypeError)
    as Hany.
  { intros r. unfold Weather.row_reading.
    destruct (Weather.grouped r); [|by left; eexists].
    destruct (snd r); [by left; eexists | by left; eexists | by right]. }
  induction table as [|r table [IHok IHbad]]; simpl.
  - split; [by eexists | by intros ?%Exists_nil].
  - split.
    + intros [[r' ->]%Hrow [readings ->]%IHok]%Forall_cons. by eexists.
    + intros [Hr | Hex]%Exists_cons.
      * by rewrite (Hbad r Hr).
      * rewrite (IHbad Hex). by destruct (Hany r) as [[r' ->] | ->].
Qed.

Lemma elem_of_Forall2_l {A B} (R : A → B → Prop) l l' a :
  Forall2 R l l' → a ∈ l → ∃ b, b ∈ l' ∧ R a b.
Proof.
  induction 1 as [|x y l l' Hxy _ IH]; [by intros ?%elem_of_nil|].
  intros [->|Hin]%elem_of_cons.
  - exists y. split; [left | done].
  - destruct (IH Hin) as (b & ? & ?). exists b. split; [by right | done].
Qed.

Lemma elem_of_Forall2_r {A B} (R : A → B → Prop) l l' b :
  Forall2 R l l' → b ∈ l' → ∃ a, a ∈ l ∧ R a b.
Proof.
  induction 1 as [|x y l l' Hxy _ IH]; [by intros ?%elem_of_nil|].
  intros [->|Hin]%elem_of_cons.
  - exists x. split; [left | done].
  - destruct (IH Hin) as (a & ? & ?). exists a. split; [by right | done].
Qed.

(** *** The compensated mean *)

Lemma add_value_fold (vs : list (option float)) (a : Weather.Sums) :
  (Weather.sumx (fold_left Weather.add_value vs a),
   Weather.compensation (fold_left Weather.add_value vs a))
  = fold_left compensated_step (omap id vs)
      (Weather.sumx a, Weather.compensation a) ∧
  Weather.nobs (fold_left Weather.add_value vs a)
  = Weather.nobs a + length (omap id vs).
Proof.
  revert a. induction vs as [|[x|] vs IH]; intros a; simpl.
  - by rewrite Nat.add_0_r.
  - destruct (IH (Weather.add_value a (Some x))) as [Hsum Hn].
    split; [exact Hsum|]. etrans; [exact Hn|]. simpl.
    by rewrite Nat.add_succ_r.
  - apply IH.
Qed.

Lemma float_mean_arithmetic (vs : list (option float)) :
  Weather.float_mean vs = arithmetic_mean (omap id vs).
Proof.
  unfold Weather.float_mean, arithmetic_mean, compensated_sum.
  destruct (add_value_fold vs (Weather.mkSums 0 0 0)) as [Hsum Hn].
  simpl in Hsum, Hn. rewrite Hn.
  apply (f_equal fst) in Hsum. simpl in Hsum. rewrite Hsum.
  by destruct (omap id vs).
Qed.

Lemma group_readings_cons (r : Weather.reading) readings k :
  group_readings (r :: readings) k
  = if decide (fst r = k) then snd r :: group_readings readings k
    else group_readings readings k.
Proof. unfold group_readings. simpl. by destruct (decide (fst r = k)). Qed.

Lemma group_values_cons (r : (cell * cell) * cell) table k :
  group_values (r :: table) k
  = match (if decide (same_keys (fst r) k) then number_in (snd r)
           else None) with
    | Some x => x :: group_values table k
    | None => group_values table k
    end.
Proof. reflexivity. Qed.

Lemma omap_id_cons {A} (v : option A) (l : list (option A)) :
  omap id (v :: l)
  = match v with Some x => x :: omap id l | None => omap id l end.
Proof. reflexivity. Qed.

(** The values of a group are those of the rows of the table with its
    keys: the numbers in their cells. *)
Lemma group_values_readings stations kinds table readings (s m : cell) :
  Forall2 (fun r r' => Weather.row_reading stations kinds r = Return r')
          table readings →
  Forall (fun r => is_num (snd r) = true) table →
  s ∈ stations → m ∈ kinds →
  Weather.key_label stations s = s → Weather.key_label kinds m = m →
  is_null s = false → is_null m = false →
  omap id (group_readings readings (s, m)) = group_values table (s, m).
Proof.
  intros Hrows Hnum Hs Hm Hls Hlm Hns Hnm.
  induction Hrows as [|r r' table readings Hr _ IH]; [done|].
  apply Forall_cons in Hnum as [Hx Hnum]. specialize (IH Hnum).
  rewrite group_readings_cons, group_values_cons.
  destruct (row_reading_inv _ _ _ _ Hr) as (Hk & Hval & _).
  destruct (decide (same_keys (fst r) (s, m))) as [[Hks Hkm]|Hno].
  - simpl in Hks, Hkm.
    assert (fst r' = (s, m)) as Hk'.
    { rewrite Hk. f_equal.
      - rewrite <- Hls. by apply key_label_same.
      - rewrite <- Hlm. by apply key_label_same. }
    rewrite decide_True by done.
    assert (Weather.grouped r = true) as Hg.
    { apply grouped_keys.
      by rewrite (same_key_null _ _ Hks), (same_key_null _ _ Hkm). }
    specialize (Hval Hg). rewrite omap_id_cons, IH.
    destruct (snd r) as [|x|]; [done| |done].
    simpl in Hval. by injection Hval as <-.
  - rewrite decide_False; [done|].
    intros Hk'. apply Hno. rewrite Hk in Hk'. injection Hk' as <- <-.
    split; simpl; symmetry; apply key_label_norm.
Qed.

(** C7, as the code has it: on a loaded table with distinct labels that has
    the columns [Weather_station_ID] and [Measurement] and a column [Value]
    of numbers, [calculate_means] returns a table with one row per station
    and one column per measurement kind, taken over the rows where neither
    is missing (the zeros of either sign being one key, listed under the
    cell of the column met first), whose cell for a station and a kind is
    the mean of the values other than [NaN] of the rows with that station
    and that kind: their compensated sum in the order of the rows, over
    their number, and [NaN] where there is no such value; the stored table
    is left as it was. *)
Theorem calculate_means_groups_and_averages (self : WeatherDataProcessor)
    (d : DataFrame) (stations kinds values : list cell) :
  weather_df self = Some d →
  NoDup (columns d) →
  df_get "Weather_station_ID" d = Return stations →
  df_get "Measurement" d = Return kinds →
  df_get "Value" d = Return values →
  Forall (fun c => is_num c = true) values →
  ∃ p self',
    Weather.calculate_means self = Return (Some p, self') ∧
    weather_df self' = Some d ∧
    let table := reading_rows stations kinds values in
    length (Weather.pivot_values p) = length (Weather.pivot_index p) ∧
    Forall (fun row => length row = length (Weather.pivot_columns p))
           (Weather.pivot_values p) ∧
    NoDup (key_norm <$> Weather.pivot_index p) ∧
    NoDup (key_norm <$> Weather.pivot_columns p) ∧
    (∀ s, s ∈ Weather.pivot_index p → s ∈ stations) ∧
    (∀ m, m ∈ Weather.pivot_columns p → m ∈ kinds) ∧
    (∀ c, key_norm c ∈ key_norm <$> Weather.pivot_index p ↔
          ∃ r, r ∈ table ∧ Weather.grouped r = true
               ∧ key_norm (fst (fst r)) = key_norm c) ∧
    (∀ c, key_norm c ∈ key_norm <$> Weather.pivot_columns p ↔
          ∃ r, r ∈ table ∧ Weather.grouped r = true
               ∧ key_norm (snd (fst r)) = key_norm c) ∧
    (∀ i j s m,
       Weather.pivot_index p !! i = Some s →
       Weather.pivot_columns p !! j = Some m →
       pivot_get p i j
       = Some (arithmetic_mean (group_values table (s, m)))).
Proof.
  intros Hdf _ Hstations Hkinds Hvalues Hnum.
  set (table := reading_rows stations kinds values).
  assert (Forall (fun r => is_num (snd r) = true) table) as Hnums.
  { apply Forall_forall. intros [k v] Hin%elem_of_zip_r.
    rewrite Forall_forall in Hnum. by apply Hnum. }
  destruct (row_readings_outcome stations kinds table)
    as [[readings Hread] _].
  { eapply Forall_impl; [exact Hnums|]. intros r Hr _. simpl in Hr.
    by destruct (snd r). }
  assert (Weather.keys_by_row d = false) as Hby.
  { unfold Weather.keys_by_row.
    rewrite !bool_decide_true, andb_false_r; [done| |].
    - unfold df_get in Hkinds.
      destruct (index_of "Measurement" (columns d)) as [j|] eqn:Hj; [|done].
      eapply list_elem_of_lookup_2, index_of_lookup, Hj.
    - unfold df_get in Hstations.
      destruct (index_of "Weather_station_ID" (columns d)) as [i|] eqn:Hi;
        [|done].
      eapply list_elem_of_lookup_2, index_of_lookup, Hi. }
  unfold Weather.calculate_means.
  rewrite Hdf, Hby, Hstations, bind_ret, Hkinds, bind_ret, Hvalues, bind_ret.
  fold (reading_rows stations kinds values). fold table.
  rewrite Hread, bind_ret.
  assert (forallb is_num values = true) as ->.
  { apply forallb_forall. intros c Hc%list_elem_of_In.
    rewrite Forall_forall in Hnum. by apply Hnum. }
  eexists _, _. split; [reflexivity|]. split; [done|].
  apply map_result_Forall2 in Hread.
  destruct (means_unstacked_spec true readings)
    as (Hnd1 & Hnd2 & Hindex & Hcolumns & Hcells).
  set (p := Weather.means_unstacked true readings) in *.
  (* every label is the label of a cell of its column *)
  assert (∀ s, s ∈ Weather.pivot_index p →
               s ∈ stations ∧ Weather.key_label stations s = s
               ∧ is_null s = false) as Hlabel1.
  { intros s (r' & Hin & Hg & <-)%Hindex.
    destruct (elem_of_Forall2_r _ _ _ _ Hread Hin) as ([[a b] v] & Hr & Hrr).
    apply elem_of_zip_l, elem_of_zip_l in Hr.
    destruct (row_reading_inv _ _ _ _ Hrr) as (-> & _). simpl.
    split; [by apply key_label_elem|].
    split; [by apply key_label_label|].
    apply grouped_keys in Hg as [Hg _].
    rewrite (proj1 (row_reading_inv _ _ _ _ Hrr)) in Hg. exact Hg. }
  assert (∀ m, m ∈ Weather.pivot_columns p →
               m ∈ kinds ∧ Weather.key_label kinds m = m
               ∧ is_null m = false) as Hlabel2.
  { intros m (r' & Hin & Hg & <-)%Hcolumns.
    destruct (elem_of_Forall2_r _ _ _ _ Hread Hin) as ([[a b] v] & Hr & Hrr).
    apply elem_of_zip_l, elem_of_zip_r in Hr.
    destruct (row_reading_inv _ _ _ _ Hrr) as (-> & _). simpl.
    split; [by apply key_label_elem|].
    split; [by apply key_label_label|].
    apply grouped_keys in Hg as [_ Hg].
    rewrite (proj1 (row_reading_inv _ _ _ _ Hrr)) in Hg. exact Hg. }
  cbv zeta. split; [|split; [|split; [|split; [|split; [|split;
    [|split; [|split]]]]]]].
  - simpl. by rewrite length_map.
  - simpl. apply Forall_forall. intros row Hrow%list_elem_of_In.
    apply in_map_iff in Hrow as (s & <- & _). by rewrite length_map.
  - apply NoDup_fmap_2_strong; [|done]. intros s1 s2 H1 H2 Heq.
    destruct (Hlabel1 s1 H1) as (_ & E1 & _).
    destruct (Hlabel1 s2 H2) as (Hin2 & E2 & _).
    etrans; [symmetry; exact E1|]. etrans; [|exact E2].
    by apply key_label_same.
  - apply NoDup_fmap_2_strong; [|done]. intros m1 m2 H1 H2 Heq.
    destruct (Hlabel2 m1 H1) as (_ & E1 & _).
    destruct (Hlabel2 m2 H2) as (Hin2 & E2 & _).
    etrans; [symmetry; exact E1|]. etrans; [|exact E2].
    by apply key_label_same.
  - intros s Hs. by destruct (Hlabel1 s Hs).
  - intros m Hm. by destruct (Hlabel2 m Hm).
  - intros c. rewrite list_elem_of_fmap. split.
    + intros (s & Hc & (r' & Hin & Hg & <-)%Hindex).
      destruct (elem_of_Forall2_r _ _ _ _ Hread Hin) as (r & Hr & Hrr).
      exists r. split; [done|].
      split; [by rewrite <- (row_reading_grouped _ _ _ _ Hrr)|].
      rewrite Hc, (proj1 (row_reading_inv _ _ _ _ Hrr)). simpl.
      symmetry. apply key_label_norm.
    + intros (r & Hr & Hg & Hc).
      destruct (elem_of_Forall2_l _ _ _ _ Hread Hr) as (r' & Hin & Hrr).
      exists (fst (fst r')). split.
      * rewrite (proj1 (row_reading_inv _ _ _ _ Hrr)). simpl.
        by rewrite key_label_norm.
      * apply Hindex. exists r'. split; [done|]. split; [|done].
        by rewrite (row_reading_grouped _ _ _ _ Hrr).
  - intros c. rewrite list_elem_of_fmap. split.
    + intros (m & Hc & (r' & Hin & Hg & <-)%Hcolumns).
      destruct (elem_of_Forall2_r _ _ _ _ Hread Hin) as (r & Hr & Hrr).
      exists r. split; [done|].
      split; [by rewrite <- (row_reading_grouped _ _ _ _ Hrr)|].
      rewrite Hc, (proj1 (row_reading_inv _ _ _ _ Hrr)). simpl.
      symmetry. apply key_label_norm.
    + intros (r & Hr & Hg & Hc).
      destruct (elem_of_Forall2_l _ _ _ _ Hread Hr) as (r' & Hin & Hrr).
      exists (snd (fst r')). split.
      * rewrite (proj1 (row_reading_inv _ _ _ _ Hrr)). simpl.
        by rewrite key_label_norm.
      * apply Hcolumns. exists r'. split; [done|]. split; [|done].
        by rewrite (row_reading_grouped _ _ _ _ Hrr).
  - intros i j s m Hi Hj. rewrite (Hcells i j s m Hi Hj). f_equal.
    apply list_elem_of_lookup_2 in Hi, Hj.
    destruct (Hlabel1 s Hi) as (? & ? & ?).
    destruct (Hlabel2 m Hj) as (? & ? & ?).
    unfold Weather.group_mean. rewrite float_mean_arithmetic. f_equal.
    by eapply group_values_readings.
Qed.

Lemma calculate_means_groups_and_averages_witness :
  ∃ p self',
    Weather.calculate_means sample_with_readings = Return (Some p, self') ∧
    weather_df self' = Some sample_readings_table ∧
    Weather.pivot_index p = [CStr "A"] ∧
    Weather.pivot_columns p = [CStr "rain"; CStr "temp"] ∧
    pivot_get p 0 1 = Some 15%float ∧
    pivot_get p 0 0 = Some 5%float.
Proof.
  destruct (calculate_means_groups_and_averages sample_with_readings
              sample_readings_table
              [CStr "A"; CStr "A"; CStr "A"]
              [CStr "temp"; CStr "temp"; CStr "rain"]
              [CNum 10; CNum 20; CNum 5]%float)
    as (p & self' & Hmeans & Hdf & _ & _ & _ & _ & _ & _ & _ & _ & Hcells).
  - reflexivity.
  - by_evaluation.
  - reflexivity.
  - reflexivity.
  - reflexivity.
  - repeat constructor.
  - exists p, self'. split; [done|]. split; [done|].
    assert (Weather.pivot_index p = [CStr "A"] ∧
            Weather.pivot_columns p = [CStr "rain"; CStr "temp"])
      as [Hindex Hcolumns].
    { vm_compute in Hmeans. injection Hmeans as <- _. by split. }
    split; [done|]. split; [done|]. split.
    + rewrite (Hcells 0 1 (CStr "A") (CStr "temp"))
        by (by rewrite ?Hindex, ?Hcolumns).
      reflexivity.
    + rewrite (Hcells 0 0 (CStr "A") (CStr "rain"))
        by (by rewrite ?Hindex, ?Hcolumns).
      reflexivity.
Defined.

(** C7 as stated fails: a loaded table need not have the columns, nor
    numbers for values.  On the table of the messages as they were read,
    before [process_messages] has added the kinds and the values,
    [calculate_means] raises [KeyError]; on readings whose values are text
    it raises [TypeError]. *)
Lemma calculate_means_needs_columns :
  weather_df sample_unprocessed = Some sample_unprocessed_table ∧
  Weather.calculate_means sample_unprocessed = Raise KeyError ∧
  weather_df sample_with_text_values = Some sample_text_values_table ∧
  Weather.calculate_means sample_with_text_values = Raise TypeError.
Proof. repeat split; reflexivity. Qed.

(** ** The two pipelines on the sample data *)

(** [process] of the field processor: the query result has its two columns
    exchanged, the elevations made positive, the crop types looked up and
    stripped, and the stations joined in; the field 3 has no station. *)
Example field_process_run :
  df <$> @Field.process sample_collaborators sample_new_field
  = Return
      (Some (mkDF ["Field_ID"; "Elevation"; "Crop_type"; "Annual_yield";
                   "Weather_station"]
                  [[CNum 1; CNum 5.5; CStr "cassaval"; CNum 0.5; CNum 0];
                   [CNum 2; CNum 3; CStr "cassava"; CNum 0.25; CNum 4];
                   [CNum 3; CNum 0; CStr "tea"; CNum 1.5; CNum nan]]%float)).
Proof. vm_compute. reflexivity. Qed.

(** [process] of the weather processor: the readings get their measurement
    and value, [None] and [NaN] where no pattern matches. *)
Example weather_process_run :
  weather_df <$> @Weather.process sample_collaborators sample_runtime
                   sample_unloaded
  = Return
      (Some (mkDF ["Weather_station_ID"; "Message"; "Measurement"; "Value"]
                  [[CNum 0; CStr "Rainfall reading: 23.5mm";
                    CStr "Rainfall"; CNum 23.5];
                   [CNum 0; CStr "Sensor offline"; CNull; CNum nan]]%float)).
Proof. vm_compute. reflexivity. Qed.

(** * Further properties of the processors *)

(** ** The column swap outside its intended use *)

(** X1: when the table has the first column of the pair and no column named
    like the second, [rename_columns] raises nothing: it renames the first
    column to the second name, keeps the rows, and no column is left under
    the first name. *)
Theorem rename_columns_renames_without_partner (self : FieldDataProcessor)
    (d : DataFrame) (A B : string) :
  df self = Some d →
  head (columns_to_rename self) = Some (A, B) →
  A ∈ columns d → B ∉ columns d →
  ∃ self' d',
    Field.rename_columns self = Return self' ∧ df self' = Some d' ∧
    rows d' = rows d ∧
    (A ∉ columns d') ∧
    col_data d' B = col_data d A ∧
    (∀ c, c ≠ A → c ≠ B → col_data d' c = col_data d c).
Proof.
  intros Hdf Hhead HA HB.
  assert (A ≠ B) as HAB by (intros ->; done).
  eexists _, _. split; [by apply rename_columns_swaps|].
  split; [done|]. split; [done|]. split; [|split].
  - simpl. intros (l & Hl & Hin)%list_elem_of_fmap.
    unfold swap_label in Hl. repeat case_decide; congruence.
  - apply col_data_relabel. intros l Hl. unfold swap_label.
    repeat case_decide; split; congruence.
  - intros c HcA HcB. apply col_data_relabel. intros l Hl.
    unfold swap_label. repeat case_decide; split; congruence.
Qed.

Lemma rename_columns_renames_without_partner_witness :
  ∃ self' d',
    Field.rename_columns sample_rename_only = Return self' ∧
    df self' = Some d' ∧
    rows d' = rows sample_one_field_table ∧
    ("Elevation" ∉ columns d') ∧
    col_data d' "Altitude" = col_data sample_one_field_table "Elevation" ∧
    (∀ c, c ≠ "Elevation" → c ≠ "Altitude" →
          col_data d' c = col_data sample_one_field_table c).
Proof.
  apply (rename_columns_renames_without_partner sample_rename_only
           sample_one_field_table "Elevation" "Altitude").
  - reflexivity.
  - reflexivity.
  - by_evaluation.
  - by_evaluation.
Defined.

(** ** What [apply_corrections] needs, and what it leaves alone *)

Lemma series_abs_outcome (s : list cell) :
  series_abs s = if forallb is_num s then Return (abs_number <$> s)
                 else Raise TypeError.
Proof.
  unfold series_abs. induction s as [|c s IH]; [done|].
  simpl. rewrite IH.
  destruct c as [|x|t]; simpl; [done| |done].
  by destruct (forallb is_num s).
Qed.

Lemma str_accessor_ok_dict_get (m : gmap string string) (s : list cell) :
  str_accessor_ok (dict_get_cell m <$> s) = str_accessor_ok s.
Proof.
  unfold str_accessor_ok. f_equal.
  - induction s as [|c s IH]; [done|]. csimpl. rewrite IH.
    by destruct c.
  - induction s as [|c s IH]; [done|]. csimpl. rewrite IH.
    by destruct c.
Qed.

(** [apply_corrections] on a loaded, well-formed table with both columns and
    numbers as elevations: the [.str] accessor decides between the corrected
    table and an [AttributeError]. *)
Lemma apply_corrections_steps (self : FieldDataProcessor) (d : DataFrame)
    (i j : nat) (a b : string) :
  df self = Some d → wf_df d →
  index_of "Elevation" (columns d) = Some i →
  index_of "Crop_type" (columns d) = Some j →
  repeated "Crop_type" (columns d) = false →
  Forall (fun r => is_num (default CNull (r !! i)) = true) (rows d) →
  Field.apply_corrections self a b =
    if str_accessor_ok ((fun r => default CNull (r !! j)) <$> rows d)
    then Return (Field.field_info
                   (Field.set_df self
                      (mkDF (columns d)
                            (corrected_row i j (values_to_rename self)
                               <$> rows d)))
                   ("Applied corrections successfully on: " +:+ a
                      +:+ " and " +:+ b))
    else Raise AttributeError.
Proof.
  intros Hdf Hwf Hi Hj Hrep Hnum. unfold Field.apply_corrections.
  assert (i ≠ j) as Hij.
  { intros ->. apply index_of_lookup in Hi, Hj. congruence. }
  pose proof (index_of_lt _ _ _ Hj) as Hjlt.
  rewrite Hdf. simpl from_option. rewrite bind_ret.
  rewrite (df_get_index _ _ _ Hi), bind_ret.
  rewrite series_abs_numbers by (apply Forall_fmap; exact Hnum).
  rewrite bind_ret, <- list_fmap_compose.
  rewrite (df_set_index _ _ _ _ Hi), bind_ret.
  rewrite (df_get_index _ _ j) by done. rewrite bind_ret.
  simpl columns. rewrite Hrep. unfold apply_get. rewrite bind_ret.
  change (map ?f ?l) with (f <$> l). rewrite <- list_fmap_compose.
  rewrite (df_set_index _ _ j) by done. rewrite bind_ret.
  rewrite (df_get_index _ _ j) by done. rewrite bind_ret.
  match goal with
  | |- series_str_strip ?s ≫= _ = _ => set (col := s)
  end.
  assert (str_accessor_ok col
          = str_accessor_ok ((fun r => default CNull (r !! j)) <$> rows d))
    as Hok.
  { etrans; [|apply (str_accessor_ok_dict_get (values_to_rename self))].
    f_equal. unfold col. simpl rows. rewrite <- !list_fmap_compose.
    apply Forall_fmap_ext_1.
    eapply Forall_impl; [exact Hwf|]. intros r Hr. simpl in *.
    rewrite list_lookup_insert_eq by (rewrite !length_insert; lia).
    simpl. rewrite list_lookup_insert_ne; [reflexivity|done]. }
  unfold series_str_strip. rewrite Hok. clear Hok.
  destruct (str_accessor_ok ((fun r => default CNull (r !! j)) <$> rows d));
    [|reflexivity].
  rewrite bind_ret. unfold col.
  change (map str_strip_cell ?l) with (str_strip_cell <$> l).
  rewrite <- list_fmap_compose.
  rewrite (df_set_index _ _ j) by done. rewrite bind_ret.
  simpl. do 4 f_equal. rewrite <- !list_fmap_compose.
  apply Forall_fmap_ext_1. eapply Forall_impl; [exact Hwf|].
  intros r Hr. simpl in *. unfold corrected_row, normalize_crop.
  rewrite list_lookup_insert_eq by (rewrite !length_insert; lia).
  simpl. by rewrite list_insert_insert_eq.
Qed.

(** X2: the outcome of [apply_corrections] on a table with distinct labels,
    in the order in which the code can fail: no table loaded ([TypeError]),
    no [Elevation] column ([KeyError]), an elevation that is no number
    ([TypeError]), no [Crop_type] column ([KeyError]), a [Crop_type] column
    of numbers only ([AttributeError]); in every other case it returns. *)
Theorem apply_corrections_outcome (self : FieldDataProcessor)
    (a b : string) :
  (df self = None → Field.apply_corrections self a b = Raise TypeError) ∧
  (∀ d, df self = Some d → wf_df d → NoDup (columns d) →
     ("Elevation" ∉ columns d →
      Field.apply_corrections self a b = Raise KeyError) ∧
     (∀ elevations, df_get "Elevation" d = Return elevations →
        (forallb is_num elevations = false →
         Field.apply_corrections self a b = Raise TypeError) ∧
        (forallb is_num elevations = true →
           ("Crop_type" ∉ columns d →
            Field.apply_corrections self a b = Raise KeyError) ∧
           (∀ crops, df_get "Crop_type" d = Return crops →
              (str_accessor_ok crops = false →
               Field.apply_corrections self a b = Raise AttributeError) ∧
              (str_accessor_ok crops = true →
               ∃ self', Field.apply_corrections self a b = Return self'))))).
Proof.
  split.
  { intros Hdf. unfold Field.apply_corrections. by rewrite Hdf. }
  intros d Hdf Hwf Hnd. split.
  { intros Hno. unfold Field.apply_corrections, df_get. rewrite Hdf. simpl.
    destruct (index_of "Elevation" (columns d)) as [i|] eqn:Hi; [|done].
    exfalso. apply Hno. apply list_elem_of_lookup. exists i.
    by apply index_of_lookup. }
  intros elevations He. unfold df_get in He.
  destruct (index_of "Elevation" (columns d)) as [i|] eqn:Hi; [|done].
  simpl in He. injection He as <-. split.
  { intros Hbad. unfold Field.apply_corrections. rewrite Hdf.
    simpl from_option. rewrite bind_ret, (df_get_index _ _ _ Hi), bind_ret.
    rewrite series_abs_outcome.
    change (map ?f ?l) with (f <$> l) in Hbad. by rewrite Hbad. }
  intros Hnum.
  assert (Forall (fun r => is_num (default CNull (r !! i)) = true) (rows d))
    as Hnum'.
  { change (map ?f ?l) with (f <$> l) in Hnum.
    pose proof (proj1 (forallb_forall _ _) Hnum) as Hall.
    apply Forall_forall. intros r Hr. apply Hall.
    apply list_elem_of_In, list_elem_of_fmap. by exists r. }
  split.
  { intros Hno. unfold Field.apply_corrections. rewrite Hdf.
    simpl from_option. rewrite bind_ret, (df_get_index _ _ _ Hi), bind_ret.
    rewrite series_abs_numbers by (apply Forall_fmap; exact Hnum').
    rewrite bind_ret, <- list_fmap_compose.
    rewrite (df_set_index _ _ _ _ Hi), bind_ret.
    unfold df_get. simpl columns.
    destruct (index_of "Crop_type" (columns d)) as [j|] eqn:Hj; [|done].
    exfalso. apply Hno. apply list_elem_of_lookup. exists j.
    by apply index_of_lookup. }
  intros crops Hc. unfold df_get in Hc.
  destruct (index_of "Crop_type" (columns d)) as [j|] eqn:Hj; [|done].
  simpl in Hc. injection Hc as <-.
  change (map ?f ?l) with (f <$> l).
  rewrite (apply_corrections_steps self d i j a b)
    by (done || by apply NoDup_not_repeated).
  split; intros ->; [done | by eexists].
Qed.

Lemma apply_corrections_outcome_witness :
  (∃ self', Field.apply_corrections sample_processor "Crop_type" "Elevation"
            = Return self') ∧
  Field.apply_corrections sample_swap_processor "Crop_type" "Elevation"
  = Raise AttributeError.
Proof.
  split.
  - destruct (apply_corrections_outcome sample_processor
                "Crop_type" "Elevation") as [_ H].
    destruct (H sample_swapped_table eq_refl) as [_ H1];
      [repeat constructor | by_evaluation |].
    destruct (H1 [CNum (-5.5); CNum 3; CNum 0]%float eq_refl) as [_ H2].
    destruct (H2 eq_refl) as [_ H3].
    destruct (H3 [CStr " cassaval "; CStr "cassaval"; CStr "tea "] eq_refl)
      as [_ H4].
    apply H4. reflexivity.
  - destruct (apply_corrections_outcome sample_swap_processor
                "Crop_type" "Elevation") as [_ H].
    destruct (H sample_field_table eq_refl) as [_ H1];
      [repeat constructor | by_evaluation |].
    destruct (H1 [CNum (-5.5); CNum 3; CNum 0]%float eq_refl) as [_ H2].
    destruct (H2 eq_refl) as [_ H3].
    destruct (H3 [CNum 0.5; CNum 0.25; CNum 1.5]%float eq_refl) as [H4 _].
    apply H4. reflexivity.
Defined.

Lemma apply_corrections_inv (self self' : FieldDataProcessor) (d : DataFrame)
    (a b : string) :
  df self = Some d → wf_df d →
  Field.apply_corrections self a b = Return self' →
  ∃ i j,
    index_of "Elevation" (columns d) = Some i ∧
    index_of "Crop_type" (columns d) = Some j ∧
    repeated "Crop_type" (columns d) = false ∧
    Forall (fun r => is_num (default CNull (r !! i)) = true) (rows d) ∧
    str_accessor_ok ((fun r => default CNull (r !! j)) <$> rows d) = true ∧
    self' = Field.field_info
              (Field.set_df self
                 (mkDF (columns d)
                       (corrected_row i j (values_to_rename self) <$> rows d)))
              ("Applied corrections successfully on: " +:+ a
                 +:+ " and " +:+ b).
Proof.
  intros Hdf Hwf Hret.
  destruct (index_of "Elevation" (columns d)) as [i|] eqn:Hi; cycle 1.
  { unfold Field.apply_corrections, df_get in Hret.
    rewrite Hdf in Hret. simpl in Hret. by rewrite Hi in Hret. }
  destruct (forallb is_num ((fun r => default CNull (r !! i)) <$> rows d))
    eqn:Hnum; cycle 1.
  { unfold Field.apply_corrections in Hret. rewrite Hdf in Hret.
    simpl from_option in Hret.
    rewrite bind_ret, (df_get_index _ _ _ Hi), bind_ret in Hret.
    by rewrite series_abs_outcome, Hnum in Hret. }
  assert (Forall (fun r => is_num (default CNull (r !! i)) = true) (rows d))
    as Hnum'.
  { pose proof (proj1 (forallb_forall _ _) Hnum) as Hall.
    apply Forall_forall. intros r Hr. apply Hall.
    apply list_elem_of_In, list_elem_of_fmap. by exists r. }
  destruct (index_of "Crop_type" (columns d)) as [j|] eqn:Hj; cycle 1.
  { unfold Field.apply_corrections in Hret. rewrite Hdf in Hret.
    simpl from_option in Hret.
    rewrite bind_ret, (df_get_index _ _ _ Hi), bind_ret in Hret.
    rewrite series_abs_numbers in Hret by (apply Forall_fmap; exact Hnum').
    rewrite bind_ret, <- list_fmap_compose in Hret.
    rewrite (df_set_index _ _ _ _ Hi), bind_ret in Hret.
    unfold df_get in Hret. simpl columns in Hret. by rewrite Hj in Hret. }
  destruct (repeated "Crop_type" (columns d)) eqn:Hrep.
  { unfold Field.apply_corrections in Hret. rewrite Hdf in Hret.
    simpl from_option in Hret.
    rewrite bind_ret, (df_get_index _ _ _ Hi), bind_ret in Hret.
    rewrite series_abs_numbers in Hret by (apply Forall_fmap; exact Hnum').
    rewrite bind_ret, <- list_fmap_compose in Hret.
    rewrite (df_set_index _ _ _ _ Hi), bind_ret in Hret.
    rewrite (df_get_index _ _ j), bind_ret in Hret by done.
    simpl columns in Hret. by rewrite Hrep in Hret. }
  rewrite (apply_corrections_steps self d i j a b) in Hret by done.
  destruct (str_accessor_ok _) eqn:Hok; [|done].
  injection Hret as <-. by exists i, j.
Qed.

Lemma cells_under_insert (c l : string) (cols : list string) (r : list cell)
    (i : nat) (v : cell) :
  cols !! i = Some l → l ≠ c →
  cells_under c cols (<[i := v]> r) = cells_under c cols r.
Proof.
  revert r i. induction cols as [|l' cols IH]; intros r i Hl Hne; [done|].
  destruct r as [|x r]; [done|]. destruct i as [|i]; simpl in *.
  - injection Hl as ->. by case_decide.
  - rewrite (IH r i Hl Hne). done.
Qed.

Lemma cells_under_corrected_row (c : string) (cols : list string)
    (i j : nat) (m : gmap string string) (r : list cell) :
  index_of "Elevation" cols = Some i → index_of "Crop_type" cols = Some j →
  c ≠ "Elevation" → c ≠ "Crop_type" →
  cells_under c cols (corrected_row i j m r) = cells_under c cols r.
Proof.
  intros Hi Hj Hce Hcc. unfold corrected_row.
  rewrite (cells_under_insert c "Crop_type")
    by (by apply index_of_lookup || done).
  by rewrite (cells_under_insert c "Elevation")
    by (by apply index_of_lookup || done).
Qed.

(** X3: a run of [apply_corrections] that returns keeps the labels, the
    number of rows and all the data outside the columns [Elevation] and
    [Crop_type], whatever names it was given; the names it was given appear
    only in the one record it logs. *)
Theorem apply_corrections_touches_two_columns (self self' : FieldDataProcessor)
    (d : DataFrame) (a b : string) :
  df self = Some d → wf_df d →
  Field.apply_corrections self a b = Return self' →
  ∃ d',
    df self' = Some d' ∧ wf_df d' ∧
    columns d' = columns d ∧ length (rows d') = length (rows d) ∧
    (∀ c, c ≠ "Elevation" → c ≠ "Crop_type" →
          col_data d' c = col_data d c) ∧
    field_log self'
    = field_log self
        ++ [(INFO, "Applied corrections successfully on: " +:+ a
                     +:+ " and " +:+ b)] ∧
    engine self' = engine self ∧
    values_to_rename self' = values_to_rename self ∧
    columns_to_rename self' = columns_to_rename self.
Proof.
  intros Hdf Hwf Hret.
  destruct (apply_corrections_inv _ _ _ _ _ Hdf Hwf Hret)
    as (i & j & Hi & Hj & _ & _ & _ & ->).
  eexists. split; [reflexivity|]. split.
  { apply wf_df_insert; [apply corrected_row_length | by destruct d]. }
  split; [done|]. split; [simpl; by rewrite length_fmap|].
  split; [|done].
  intros c Hce Hcc. unfold col_data. simpl.
  change (map ?f ?l) with (f <$> l). rewrite <- list_fmap_compose.
  apply list_fmap_ext. intros k r _. simpl.
  by apply cells_under_corrected_row.
Qed.

Lemma apply_corrections_touches_two_columns_witness :
  ∃ d',
    df sample_corrected_processor = Some d' ∧ wf_df d' ∧
    columns d' = columns sample_swapped_table ∧
    length (rows d') = length (rows sample_swapped_table) ∧
    (∀ c, c ≠ "Elevation" → c ≠ "Crop_type" →
          col_data d' c = col_data sample_swapped_table c) ∧
    field_log sample_corrected_processor
    = field_log sample_processor
        ++ [(INFO, "Applied corrections successfully on: " +:+ "Crop_type"
                     +:+ " and " +:+ "Elevation")] ∧
    engine sample_corrected_processor = engine sample_processor ∧
    values_to_rename sample_corrected_processor
    = values_to_rename sample_processor ∧
    columns_to_rename sample_corrected_processor
    = columns_to_rename sample_processor.
Proof.
  apply (apply_corrections_touches_two_columns sample_processor
           sample_corrected_processor sample_swapped_table
           "Crop_type" "Elevation").
  - reflexivity.
  - repeat constructor.
  - reflexivity.
Defined.

(** ** What the strip removes *)

Lemma lstrip_decompose (s : string) :
  ∃ pre, s = pre +:+ lstrip s ∧ all_space pre = true.
Proof.
  induction s as [|a s (pre & IH & Hpre)]; [by exists ""|]. simpl.
  destruct (is_space a) eqn:Ha.
  - exists (String a pre). split; [by rewrite IH at 1|]. simpl.
    by rewrite Ha.
  - by exists "".
Qed.

Lemma rstrip_decompose (s : string) :
  ∃ post, s = rstrip s +:+ post ∧ all_space post = true.
Proof.
  induction s as [|a s (post & IH & Hpost)]; [by exists ""|]. simpl.
  destruct (rstrip s) as [|b t] eqn:Hr.
  - change (s = post) in IH. subst s. destruct (is_space a) eqn:Ha.
    + exists (String a post). split; [done|]. simpl. by rewrite Ha.
    + by exists post.
  - exists post. split; [by rewrite IH at 1|done].
Qed.

Lemma last_char_rstrip (s : string) (a : ascii) :
  last_char (rstrip s) = Some a → is_space a = false.
Proof.
  induction s as [|c s IH]; [done|]. simpl.
  destruct (rstrip s) as [|b t] eqn:Hr.
  - destruct (is_space c) eqn:Hc; simpl; [done|]. by intros [= <-].
  - exact IH.
Qed.

Lemma strip_trimmed (s : string) : trimmed (strip s).
Proof.
  unfold strip. split.
  - intros a Ha. pose proof (rstrip_head (lstrip s) (lstrip_head s)) as H.
    destruct (rstrip (lstrip s)); simpl in Ha; [done|]. by injection Ha as <-.
  - apply last_char_rstrip.
Qed.

Lemma strip_decompose (s : string) :
  ∃ pre post, s = pre +:+ strip s +:+ post ∧
              all_space pre = true ∧ all_space post = true.
Proof.
  destruct (lstrip_decompose s) as (pre & Hs & Hpre).
  destruct (rstrip_decompose (lstrip s)) as (post & Hl & Hpost).
  exists pre, post. unfold strip. by rewrite <- Hl, <- Hs.
Qed.

Lemma apply_corrections_crop_column (self self' : FieldDataProcessor)
    (d : DataFrame) (a b : string) (crops : list cell) :
  df self = Some d → wf_df d →
  df_get "Crop_type" d = Return crops →
  Field.apply_corrections self a b = Return self' →
  crop_column self'
  = Return (normalize_crop (values_to_rename self) <$> crops).
Proof.
  intros Hdf Hwf Hc Hret.
  destruct (apply_corrections_inv _ _ _ _ _ Hdf Hwf Hret)
    as (i & j & Hi & Hj & _ & _ & _ & ->).
  rewrite (df_get_index _ _ _ Hj) in Hc. injection Hc as <-.
  assert (i ≠ j) as Hij.
  { intros ->. apply index_of_lookup in Hi, Hj. congruence. }
  pose proof (index_of_lt _ _ _ Hj) as Hjlt.
  unfold crop_column, df_get. simpl. rewrite Hj. simpl. f_equal.
  change (map ?f ?l) with (f <$> l). rewrite <- !list_fmap_compose.
  apply Forall_fmap_ext_1. eapply Forall_impl; [exact Hwf|].
  intros r Hr. simpl in *. apply corrected_row_crop; [done | lia].
Qed.

(** X4: after a run of [apply_corrections] that returns, every crop type
    that was a string is a string that neither begins nor ends with
    whitespace, and it is what the lookup in [values_to_rename] gave (the
    entry of the untouched string, or the string itself) with whitespace
    taken off the two ends and nothing else. *)
Theorem apply_corrections_crop_types_trimmed (self self' : FieldDataProcessor)
    (d : DataFrame) (a b : string) (crops : list cell) :
  df self = Some d → wf_df d →
  df_get "Crop_type" d = Return crops →
  Field.apply_corrections self a b = Return self' →
  ∃ crops',
    crop_column self' = Return crops' ∧ length crops' = length crops ∧
    ∀ (k : nat) (s : string), crops !! k = Some (CStr s) →
      ∃ t pre post,
        crops' !! k = Some (CStr t) ∧ trimmed t ∧
        default s (values_to_rename self !! s) = pre +:+ t +:+ post ∧
        all_space pre = true ∧ all_space post = true.
Proof.
  intros Hdf Hwf Hc Hret. eexists. split.
  { by apply (apply_corrections_crop_column self self' d a b crops). }
  split; [by rewrite length_fmap|].
  intros k s Hk.
  destruct (strip_decompose (default s (values_to_rename self !! s)))
    as (pre & post & Hs & Hpre & Hpost).
  exists (strip (default s (values_to_rename self !! s))), pre, post.
  split; [by rewrite list_lookup_fmap, Hk|].
  split; [apply strip_trimmed | done].
Qed.

Lemma apply_corrections_crop_types_trimmed_witness :
  ∃ crops',
    crop_column sample_corrected_processor = Return crops' ∧
    length crops' = length [CStr " cassaval "; CStr "cassaval"; CStr "tea "] ∧
    ∀ (k : nat) (s : string),
      [CStr " cassaval "; CStr "cassaval"; CStr "tea "] !! k
      = Some (CStr s) →
      ∃ t pre post,
        crops' !! k = Some (CStr t) ∧ trimmed t ∧
        default s (values_to_rename sample_processor !! s)
        = pre +:+ t +:+ post ∧
        all_space pre = true ∧ all_space post = true.
Proof.
  apply (apply_corrections_crop_types_trimmed sample_processor
           sample_corrected_processor sample_swapped_table
           "Crop_type" "Elevation").
  - reflexivity.
  - repeat constructor.
  - reflexivity.
  - reflexivity.
Defined.

(** ** A second run of the corrections *)

Lemma abs_abs (x : float) :
  PrimFloat.abs (PrimFloat.abs x) = PrimFloat.abs x.
Proof.
  apply FloatAxioms.Prim2SF_inj. rewrite !FloatAxioms.abs_spec.
  by destruct (Prim2SF x).
Qed.

Lemma abs_number_idempotent (c : cell) :
  abs_number (abs_number c) = abs_number c.
Proof. destruct c; simpl; [done| |done]. by rewrite abs_abs. Qed.

Lemma is_num_abs_number (c : cell) : is_num (abs_number c) = is_num c.
Proof. by destruct c. Qed.

Lemma str_accessor_ok_normalize (m : gmap string string) (s : list cell) :
  str_accessor_ok (normalize_crop m <$> s) = str_accessor_ok s.
Proof.
  unfold str_accessor_ok. f_equal.
  - induction s as [|c s IH]; [done|]. csimpl. rewrite IH.
    by destruct c.
  - induction s as [|c s IH]; [done|]. csimpl. rewrite IH.
    by destruct c.
Qed.

(** X5: when a run of [apply_corrections] returns, a second run on its
    result returns too, and leaves the table as the first run made it
    outside the column [Crop_type]: the elevations, already absolute values,
    stay. *)
Theorem apply_corrections_again (self self1 : FieldDataProcessor)
    (d : DataFrame) (a b : string) :
  df self = Some d → wf_df d →
  Field.apply_corrections self a b = Return self1 →
  ∃ self2 d1 d2,
    Field.apply_corrections self1 a b = Return self2 ∧
    df self1 = Some d1 ∧ df self2 = Some d2 ∧
    columns d2 = columns d1 ∧
    elevation_column self2 = elevation_column self1 ∧
    (∀ c, c ≠ "Crop_type" → col_data d2 c = col_data d1 c).
Proof.
  intros Hdf Hwf Hret.
  destruct (apply_corrections_inv _ _ _ _ _ Hdf Hwf Hret)
    as (i & j & Hi & Hj & Hrep & Hnum & Hok & ->).
  assert (i ≠ j) as Hij.
  { intros ->. apply index_of_lookup in Hi, Hj. congruence. }
  pose proof (index_of_lt _ _ _ Hi) as Hilt.
  pose proof (index_of_lt _ _ _ Hj) as Hjlt.
  set (m := values_to_rename self).
  set (d1 := mkDF (columns d) (corrected_row i j m <$> rows d)).
  assert (wf_df d1) as Hwf1.
  { apply wf_df_insert; [apply corrected_row_length | by destruct d]. }
  pose proof Hwf as Hlen. unfold wf_df in Hlen.
  assert (Field.apply_corrections
            (Field.field_info (Field.set_df self d1)
               ("Applied corrections successfully on: " +:+ a
                  +:+ " and " +:+ b)) a b
          = Return (Field.field_info
                      (Field.set_df
                         (Field.field_info (Field.set_df self d1)
                            ("Applied corrections successfully on: " +:+ a
                               +:+ " and " +:+ b))
                         (mkDF (columns d)
                               (corrected_row i j m <$> rows d1)))
                      ("Applied corrections successfully on: " +:+ a
                         +:+ " and " +:+ b))) as Hsecond.
  { rewrite (apply_corrections_steps _ d1 i j a b); try done.
    - assert (str_accessor_ok
                ((fun r => default CNull (r !! j)) <$> rows d1) = true)
        as ->; [|done].
      rewrite <- Hok. etrans; [|apply (str_accessor_ok_normalize m)].
      f_equal.
      unfold d1. simpl. rewrite <- !list_fmap_compose.
      apply Forall_fmap_ext_1. eapply Forall_impl; [exact Hlen|].
      intros r Hr. simpl in *. apply corrected_row_crop; [done | lia].
    - unfold d1. simpl. apply Forall_fmap, Forall_forall. intros r Hin.
      pose proof (proj1 (Forall_forall _ _) Hlen r Hin) as Hr.
      pose proof (proj1 (Forall_forall _ _) Hnum r Hin) as Hn.
      simpl in *.
      rewrite corrected_row_elevation by (done || lia).
      by rewrite is_num_abs_number. }
  eexists _, d1, _. split; [exact Hsecond|].
  split; [done|]. split; [reflexivity|]. split; [done|].
  assert (∀ r, length r = length (columns d) →
            cells_under "Elevation" (columns d)
              (corrected_row i j m (corrected_row i j m r))
            = cells_under "Elevation" (columns d) (corrected_row i j m r) ∧
            default CNull (corrected_row i j m (corrected_row i j m r) !! i)
            = default CNull (corrected_row i j m r !! i)) as Hrow.
  { intros r Hr.
    assert (default CNull (corrected_row i j m (corrected_row i j m r) !! i)
            = default CNull (corrected_row i j m r !! i)) as He.
    { rewrite (corrected_row_elevation i j m (corrected_row i j m r))
        by (done || rewrite corrected_row_length; lia).
      rewrite corrected_row_elevation by (done || lia).
      apply abs_number_idempotent. }
    split; [|done].
    unfold corrected_row at 1.
    rewrite (cells_under_insert "Elevation" "Crop_type")
      by (by apply index_of_lookup || done).
    rewrite list_insert_id; [done|].
    destruct (lookup_lt_is_Some_2 (corrected_row i j m r) i) as [x Hx];
      [rewrite corrected_row_length; lia|].
    pose proof (corrected_row_elevation i j m r Hij) as Hx'.
    rewrite Hx in Hx' |- *. simpl in *. rewrite Hx' by lia.
    by rewrite abs_number_idempotent. }
  split.
  - unfold elevation_column, df_get. simpl. rewrite Hi. simpl. f_equal.
    change (map ?f ?l) with (f <$> l). rewrite <- !list_fmap_compose.
    apply Forall_fmap_ext_1. eapply Forall_impl; [exact Hlen|].
    intros r Hr. simpl in *. by apply Hrow.
  - intros c Hc. unfold col_data. simpl.
    change (map ?f ?l) with (f <$> l). rewrite <- !list_fmap_compose.
    apply Forall_fmap_ext_1. eapply Forall_impl; [exact Hlen|].
    intros r Hr. simpl in *.
    destruct (decide (c = "Elevation")) as [->|Hce]; [by apply Hrow|].
    by apply cells_under_corrected_row.
Qed.

Lemma apply_corrections_again_witness :
  ∃ self2 d1 d2,
    Field.apply_corrections sample_corrected_processor
      "Crop_type" "Elevation" = Return self2 ∧
    df sample_corrected_processor = Some d1 ∧ df self2 = Some d2 ∧
    columns d2 = columns d1 ∧
    elevation_column self2 = elevation_column sample_corrected_processor ∧
    (∀ c, c ≠ "Crop_type" → col_data d2 c = col_data d1 c).
Proof.
  apply (apply_corrections_again sample_processor sample_corrected_processor
           sample_swapped_table "Crop_type" "Elevation").
  - reflexivity.
  - repeat constructor.
  - reflexivity.
Defined.

(** ** The join never loses a field *)

Lemma station_rows_head (i : nat) (right : list (list cell))
    (lr : list cell) :
  ∃ w rest, station_rows i right lr = (lr ++ [w]) :: rest.
Proof.
  unfold station_rows. destruct (matches i right lr) as [|rr ms].
  - by eexists _, _.
  - csimpl. by eexists _, _.
Qed.

Lemma station_rows_sublist (i n : nat) (right : list (list cell))
    (l : list (list cell)) :
  Forall (fun r => length r = n) l →
  sublist l (take n <$> flat_map (station_rows i right) l).
Proof.
  induction 1 as [|lr l Hlr _ IH]; [constructor|].
  simpl. destruct (station_rows_head i right lr) as (w & rest & ->).
  csimpl. rewrite take_app_length' by done.
  apply sublist_skip. rewrite fmap_app. by apply sublist_inserts_l.
Qed.

(** X6: on a field table and a mapping table of the expected shapes
    (distinct labels, the [Field_ID]s numbers in both, the mapping with its
    three columns, which the field table does not have) the join returns,
    whatever the mapping lists: no field is lost and the fields keep their
    order (the field rows are a subsequence of the joined rows cut to the
    field columns), and every joined row is a field row followed by one
    value for the station. *)
Theorem weather_station_mapping_never_drops `{DataIngestion}
    (self : FieldDataProcessor) (d m : DataFrame) :
  df self = Some d → field_schema d →
  read_from_web_CSV (weather_map_data self) = Return m →
  mapping_schema m →
  ∃ d' self',
    Field.weather_station_mapping self = Return (d', self') ∧
    df self' = Some d' ∧
    field_log self' = field_log self ∧
    columns d' = columns d ++ ["Weather_station"] ∧
    sublist (rows d) (take (length (columns d)) <$> rows d') ∧
    (length (rows d) ≤ length (rows d'))%nat ∧
    (∀ r', r' ∈ rows d' → ∃ lr w, lr ∈ rows d ∧ r' = lr ++ [w]).
Proof.
  intros Hdf Hd Hread Hm.
  destruct (index_of_elem "Field_ID" (columns d)) as [i Hi];
    [apply numeric_column_elem; by destruct Hd as (_ & _ & ? & _)|].
  eexists _, _. split.
  { by apply (weather_station_mapping_rows self d m i). }
  split; [done|]. split; [done|]. split; [done|].
  assert (sublist (rows d)
            (take (length (columns d))
               <$> flat_map (station_rows i (rows m)) (rows d))) as Hsub.
  { apply station_rows_sublist. by destruct Hd. }
  split; [exact Hsub|]. split.
  { apply sublist_length in Hsub. by rewrite length_fmap in Hsub. }
  simpl. intros r' Hr'. apply list_elem_of_In, in_flat_map in Hr'.
  destruct Hr' as (lr & Hlr%list_elem_of_In & Hr'%list_elem_of_In).
  destruct (station_rows_shape _ _ _ _ Hr') as [w ->]. by exists lr, w.
Qed.

Lemma weather_station_mapping_never_drops_witness :
  ∃ d' self',
    @Field.weather_station_mapping sample_repeating_collaborators
      sample_one_field_processor = Return (d', self') ∧
    df self' = Some d' ∧
    field_log self' = field_log sample_one_field_processor ∧
    columns d' = columns sample_one_field_table ++ ["Weather_station"] ∧
    sublist (rows sample_one_field_table)
      (take (length (columns sample_one_field_table)) <$> rows d') ∧
    (length (rows sample_one_field_table) ≤ length (rows d'))%nat ∧
    (∀ r', r' ∈ rows d' →
           ∃ lr w, lr ∈ rows sample_one_field_table ∧ r' = lr ++ [w]).
Proof.
  apply (@weather_station_mapping_never_drops sample_repeating_collaborators
           sample_one_field_processor sample_one_field_table
           sample_repeated_mapping).
  - reflexivity.
  - field_schema_holds.
  - reflexivity.
  - mapping_schema_holds.
Defined.

(** ** What the join needs *)

Lemma last_char_append (l s : string) (a : ascii) :
  last_char (l +:+ String a s) = last_char (String a s).
Proof.
  induction l as [|c l IH]; [done|].
  change (String c l +:+ String a s) with (String c (l +:+ String a s)).
  destruct (l +:+ String a s) as [|x t] eqn:E; [by destruct l|].
  rewrite <- IH. done.
Qed.

Lemma suffixed_not_unnamed (l sfx : string) :
  sfx = "_x" ∨ sfx = "_y" → l +:+ sfx ≠ "Unnamed: 0".
Proof.
  intros Hs Heq. apply (f_equal last_char) in Heq.
  destruct Hs as [-> | ->]; by rewrite last_char_append in Heq.
Qed.

Lemma elem_of_delete_other (c x : string) (cols : list string) (j : nat) :
  cols !! j = Some x → c ≠ x → c ∈ delete j cols ↔ c ∈ cols.
Proof.
  revert j. induction cols as [|l cols IH]; intros j Hj Hne; [done|].
  destruct j as [|j]; simpl in *.
  - injection Hj as ->. rewrite elem_of_cons. intuition congruence.
  - rewrite !elem_of_cons, (IH j Hj Hne). done.
Qed.

(** Where the label [Unnamed: 0] stands after the merge: in the frame that
    alone had it. *)
Lemma unnamed_in_merged (on : string) (lcols rcols : list string) :
  on ≠ "Unnamed: 0" →
  "Unnamed: 0" ∈ map (merge_label on "_x" rcols) lcols
                   ++ map (merge_label on "_y" lcols) rcols
  ↔ ¬ ("Unnamed: 0" ∈ lcols ↔ "Unnamed: 0" ∈ rcols).
Proof.
  intros Hon.
  assert (∀ sfx other cols, sfx = "_x" ∨ sfx = "_y" →
            "Unnamed: 0" ∈ map (merge_label on sfx other) cols
            ↔ "Unnamed: 0" ∈ cols ∧ "Unnamed: 0" ∉ other) as Hside.
  { intros sfx other cols Hs.
    change (map ?f ?l) with (f <$> l). rewrite list_elem_of_fmap. split.
    - intros (l & Hl & Hin). unfold merge_label in Hl.
      case_decide as Hd.
      + symmetry in Hl. by apply suffixed_not_unnamed in Hl.
      + subst l. split; [done|]. intros Ho. apply Hd. split; [|done].
        congruence.
    - intros [Hin Ho]. exists "Unnamed: 0". split; [|done].
      unfold merge_label. rewrite decide_False; [done|]. by intros [_ ?]. }
  rewrite elem_of_app, !Hside by auto.
  destruct (decide ("Unnamed: 0" ∈ lcols)), (decide ("Unnamed: 0" ∈ rcols));
    intuition.
Qed.

Lemma duplicated_after_NoDup (seen l : list string) :
  NoDup l → (∀ x, x ∈ l → x ∉ seen) →
  Forall (fun b => b = false) (duplicated_after seen l).
Proof.
  intros Hnd. revert seen. induction Hnd as [|x l Hx _ IH]; intros seen Hseen;
    [constructor|].
  simpl. constructor.
  - apply bool_decide_eq_false_2, Hseen. left.
  - apply IH. intros y Hy [->|Hs]%elem_of_cons; [done|].
    by apply (Hseen y); [right|].
Qed.

Lemma suffix_collision_NoDup (labels renamed : list string) :
  NoDup renamed → suffix_collision labels renamed = false.
Proof.
  intros Hnd. unfold suffix_collision, duplicated.
  pose proof (duplicated_after_NoDup [] renamed Hnd) as Hall.
  specialize (Hall ltac:(intros x _; apply not_elem_of_nil)).
  revert Hall. generalize (duplicated_after [] renamed).
  induction (duplicated_after [] labels) as [|b bs IH]; intros cs Hcs;
    [done|].
  destruct Hcs as [|c cs -> Hcs]; [done|]. simpl. by apply IH.
Qed.

(** When the two tables share no label but the key and [Unnamed: 0], and
    the suffixed name is free, the suffix makes no label occur twice. *)
Lemma merge_labels_NoDup (sfx : string) (cols other : list string) :
  sfx = "_x" ∨ sfx = "_y" →
  NoDup cols →
  (∀ l, l ∈ cols → l ∈ other → l = "Field_ID" ∨ l = "Unnamed: 0") →
  "Unnamed: 0" +:+ sfx ∉ cols →
  NoDup (map (merge_label "Field_ID" sfx other) cols).
Proof.
  intros Hs Hnd Hshared Hfree. change (map ?f ?l) with (f <$> l).
  apply NoDup_fmap_2_strong; [|done].
  assert (∀ l, l ∈ cols →
               merge_label "Field_ID" sfx other l = l ∨
               (l = "Unnamed: 0" ∧
                merge_label "Field_ID" sfx other l = "Unnamed: 0" +:+ sfx))
    as Hcase.
  { intros l Hl. unfold merge_label. case_decide as Hd; [|by left].
    destruct Hd as [Hon Hin]. destruct (Hshared l Hl Hin) as [->| ->];
      [done | by right]. }
  intros x y Hx Hy Heq.
  destruct (Hcase x Hx) as [Ex|[-> Ex]], (Hcase y Hy) as [Ey|[-> Ey]];
    rewrite ?Ex, ?Ey in Heq; [done | | | done].
  - subst x. done.
  - subst y. done.
Qed.

Lemma NoDup_delete {A} (l : list A) (j : nat) : NoDup l → NoDup (delete j l).
Proof.
  intros Hnd. exact (sublist_NoDup _ _ Hnd (sublist_delete _ _)).
Qed.

(** X7: with a table loaded and the mapping file read, the join raises
    [KeyError] when one of the two tables has no column [Field_ID].  When
    both tables have distinct labels, numbers as [Field_ID]s and no label in
    common but [Field_ID] and [Unnamed: 0], whose suffixed names are free,
    the join returns exactly when one of the two tables, and not the other,
    has a column [Unnamed: 0], the column it then removes; with that label
    in both tables or in none, the removal raises [KeyError]. *)
Theorem weather_station_mapping_outcome `{DataIngestion}
    (self : FieldDataProcessor) (d m : DataFrame) :
  df self = Some d →
  read_from_web_CSV (weather_map_data self) = Return m →
  (¬ ("Field_ID" ∈ columns d ∧ "Field_ID" ∈ columns m) →
   Field.weather_station_mapping self = Raise KeyError) ∧
  (NoDup (columns d) → NoDup (columns m) →
   numeric_column "Field_ID" d → numeric_column "Field_ID" m →
   (∀ l, l ∈ columns d → l ∈ columns m →
         l = "Field_ID" ∨ l = "Unnamed: 0") →
   "Unnamed: 0_x" ∉ columns d → "Unnamed: 0_y" ∉ columns m →
   (("Unnamed: 0" ∈ columns d ↔ "Unnamed: 0" ∈ columns m) →
    Field.weather_station_mapping self = Raise KeyError) ∧
   (¬ ("Unnamed: 0" ∈ columns d ↔ "Unnamed: 0" ∈ columns m) →
    ∃ d' self',
      Field.weather_station_mapping self = Return (d', self') ∧
      df self' = Some d' ∧ "Unnamed: 0" ∉ columns d')).
Proof.
  intros Hdf Hread. unfold Field.weather_station_mapping.
  rewrite Hread, bind_ret, Hdf. simpl from_option. rewrite bind_ret.
  unfold merge_left. split.
  { intros Hno.
    destruct (index_of "Field_ID" (columns d)) as [i|] eqn:Hi; [|done].
    destruct (index_of "Field_ID" (columns m)) as [j|] eqn:Hj; [|done].
    exfalso. apply Hno. split; apply list_elem_of_lookup; eexists;
      by apply index_of_lookup. }
  intros Hnd Hnm Hkd Hkm Hshared Hfx Hfy.
  destruct (index_of_elem "Field_ID" (columns d)) as [i Hi];
    [by apply numeric_column_elem|].
  destruct (index_of_elem "Field_ID" (columns m)) as [j Hj];
    [by apply numeric_column_elem|].
  rewrite Hi, Hj. simpl from_option. rewrite !bind_ret.
  rewrite !NoDup_not_repeated by done.
  change (false || false) with false. cbv iota.
  rewrite key_kinds_clash_numeric by (by eapply numeric_column_index).
  pose proof (index_of_lookup _ _ _ Hj) as Hjl.
  rewrite suffix_collision_NoDup; last first.
  { apply merge_labels_NoDup; [by left | done | | done].
    intros l Hl Hin. apply (Hshared l Hl).
    by eapply list_elem_of_delete_inv. }
  rewrite suffix_collision_NoDup; last first.
  { apply merge_labels_NoDup; [by right | by apply NoDup_delete | |].
    - intros l Hin Hl. apply (Hshared l Hl).
      by eapply list_elem_of_delete_inv.
    - intros Hin. apply Hfy. by eapply list_elem_of_delete_inv. }
  change (false || false) with false. cbv iota.
  rewrite bind_ret. unfold df_drop. simpl columns.
  assert ("Unnamed: 0" ∈
            map (merge_label "Field_ID" "_x" (delete j (columns m)))
                (columns d)
              ++ map (merge_label "Field_ID" "_y" (columns d))
                     (delete j (columns m))
          ↔ ¬ ("Unnamed: 0" ∈ columns d ↔ "Unnamed: 0" ∈ columns m)) as Hin.
  { rewrite unnamed_in_merged by done.
    by rewrite (elem_of_delete_other "Unnamed: 0" "Field_ID") by done. }
  split.
  - intros Hboth. rewrite decide_False; [done|]. rewrite Hin. tauto.
  - intros Hone. rewrite decide_True by (by apply Hin). rewrite bind_ret.
    eexists _, _. split; [reflexivity|]. split; [done|]. simpl.
    intros [Hne _]%list_elem_of_filter. done.
Qed.

Lemma weather_station_mapping_outcome_witness :
  (∃ d' self',
     @Field.weather_station_mapping sample_collaborators sample_processor
     = Return (d', self') ∧
     df self' = Some d' ∧ "Unnamed: 0" ∉ columns d') ∧
  @Field.weather_station_mapping
     (sample_ingestion sample_field_table sample_bare_mapping
        sample_weather_table) sample_processor
  = Raise KeyError.
Proof.
  split.
  - destruct (@weather_station_mapping_outcome sample_collaborators
                sample_processor sample_swapped_table sample_mapping_table
                eq_refl eq_refl) as [_ Hyes].
    apply Hyes;
      [by_evaluation | by_evaluation | numeric_column_holds
      | numeric_column_holds | | by_evaluation | by_evaluation |].
    + intros l Hl Hm.
      assert ("Weather_station" ∉ columns sample_swapped_table) as Hw
        by by_evaluation.
      unfold sample_mapping_table in Hm. simpl in Hm.
      rewrite !elem_of_cons, elem_of_nil in Hm.
      destruct Hm as [->|[->|[->|[]]]]; [by right | by left | done].
    + intros [_ Hm]. revert Hm. by_evaluation.
  - destruct (@weather_station_mapping_outcome
                (sample_ingestion sample_field_table sample_bare_mapping
                   sample_weather_table)
                sample_processor sample_swapped_table sample_bare_mapping
                eq_refl eq_refl) as [_ Hyes].
    apply Hyes;
      [by_evaluation | by_evaluation | numeric_column_holds
      | numeric_column_holds | | by_evaluation | by_evaluation |].
    + intros l Hl Hm.
      assert ("Weather_station" ∉ columns sample_swapped_table) as Hw
        by by_evaluation.
      unfold sample_bare_mapping in Hm. simpl in Hm.
      rewrite !elem_of_cons, elem_of_nil in Hm.
      destruct Hm as [->|[->|[]]]; [by left | done].
    + split; by_evaluation.
Defined.

(** ** The pipeline of the field processor *)

(** Inversion of a sequence that returned: its first step returned. *)
Lemma rename_columns_inv (self self' : FieldDataProcessor) :
  Field.rename_columns self = Return self' →
  ∃ A B d d',
    head (columns_to_rename self) = Some (A, B) ∧ df self = Some d ∧
    self' = Field.field_info (Field.set_df self d')
              ("Swapped columns: " +:+ A +:+ " with " +:+ B) ∧
    rows d' = rows d.
Proof.
  unfold Field.rename_columns. intros Hret.
  destruct (head (columns_to_rename self)) as [[A B]|]; [|done].
  destruct (df self) as [d|]; [|done]. simpl in Hret.
  destruct (Field.fresh_temp_name (columns d)) as [t|]; [|done].
  simpl in Hret. injection Hret as <-. by eexists A, B, d, _.
Qed.

Lemma apply_corrections_log (self self' : FieldDataProcessor) (a b : string) :
  Field.apply_corrections self a b = Return self' →
  ∃ d', self' = Field.field_info (Field.set_df self d')
                  ("Applied corrections successfully on: " +:+ a
                     +:+ " and " +:+ b).
Proof.
  unfold Field.apply_corrections. intros Hret.
  repeat (apply bind_Return_inv in Hret as (? & _ & Hret)).
  injection Hret as <-. by eexists.
Qed.

(** X8: a run of [process] that returns has logged three records, in the
    order of its first three steps (the join logs nothing), holds the engine
    made for [db_path] and a table without the column [Unnamed: 0]; the
    columns named in the second record are the components of the first pair
    of [columns_to_rename]. *)
Theorem process_log_and_state `{DataIngestion}
    (self self' : FieldDataProcessor) :
  Field.process self = Return self' →
  ∃ A B e d',
    head (columns_to_rename self) = Some (A, B) ∧
    create_db_engine (db_path self) = Return e ∧
    engine self' = Some e ∧ df self' = Some d' ∧
    ("Unnamed: 0" ∉ columns d') ∧
    field_log self'
    = field_log self
        ++ [(INFO, "Successfully loaded data.");
            (INFO, "Swapped columns: " +:+ A +:+ " with " +:+ B);
            (INFO, "Applied corrections successfully on: " +:+ "Crop_type"
                     +:+ " and " +:+ "Elevation")].
Proof.
  unfold Field.process, Field.ingest_sql_data. intros Hret.
  apply bind_Return_inv in Hret as ([d0 self0] & Hingest & Hret).
  apply bind_Return_inv in Hingest as (e & He & Hingest).
  apply bind_Return_inv in Hingest as (d & Hd & Hingest).
  injection Hingest as <- <-.
  apply bind_Return_inv in Hret as (self1 & Hrename & Hret).
  apply bind_Return_inv in Hret as (self2 & Hcorr & Hret).
  apply bind_Return_inv in Hret as ([d3 self3] & Hjoin & Hret).
  injection Hret as <-.
  apply rename_columns_inv in Hrename as (A & B & d1 & d1' & HAB & _ & -> & _).
  apply apply_corrections_log in Hcorr as (d2 & ->).
  unfold Field.weather_station_mapping in Hjoin.
  apply bind_Return_inv in Hjoin as (m & _ & Hjoin).
  apply bind_Return_inv in Hjoin as (d4 & _ & Hjoin).
  apply bind_Return_inv in Hjoin as (d5 & _ & Hjoin).
  apply bind_Return_inv in Hjoin as (d6 & Hdrop & Hjoin).
  injection Hjoin as <- <-.
  exists A, B, e, d6. split; [done|]. split; [done|].
  split; [done|]. split; [done|]. split.
  - unfold df_drop in Hdrop. case_decide; [|done]. injection Hdrop as <-.
    simpl. by intros [? _]%list_elem_of_filter.
  - simpl. by rewrite <- !app_assoc.
Qed.

Lemma process_log_and_state_witness :
  ∃ A B e d',
    head (columns_to_rename sample_new_field) = Some (A, B) ∧
    @create_db_engine sample_collaborators (db_path sample_new_field)
    = Return e ∧
    engine sample_processed_field = Some e ∧
    df sample_processed_field = Some d' ∧
    ("Unnamed: 0" ∉ columns d') ∧
    field_log sample_processed_field
    = field_log sample_new_field
        ++ [(INFO, "Successfully loaded data.");
            (INFO, "Swapped columns: " +:+ A +:+ " with " +:+ B);
            (INFO, "Applied corrections successfully on: " +:+ "Crop_type"
                     +:+ " and " +:+ "Elevation")].
Proof.
  apply (@process_log_and_state sample_collaborators sample_new_field
           sample_processed_field).
  reflexivity.
Defined.

(** Two runs that agree on [f] at a step, and whose continuations agree on
    [g] whenever their arguments agree on [f], agree on [g]. *)
Lemma bind_agree {A B C D} (f : A → C) (g : B → D) (r1 r2 : result A)
    (k1 k2 : A → result B) :
  f <$> r1 = f <$> r2 →
  (∀ a1 a2, f a1 = f a2 → g <$> k1 a1 = g <$> k2 a2) →
  g <$> (r1 ≫= k1) = g <$> (r2 ≫= k2).
Proof.
  intros Hr Hk. destruct r1 as [a1|e1], r2 as [a2|e2]; simpl in *.
  - apply Hk. by injection Hr.
  - done.
  - done.
  - by injection Hr as ->.
Qed.

Lemma field_view_eq (s1 s2 : FieldDataProcessor) :
  field_view s1 = field_view s2 →
  ∃ l, s2 = mkField (db_path s1) (sql_query s1) (columns_to_rename s1)
              (values_to_rename s1) (weather_map_data s1) (df s1) (engine s1)
              l.
Proof.
  destruct s1, s2. unfold field_view, field_config, field_state. simpl.
  intros [= -> -> -> -> -> -> ->]. by eexists.
Qed.

Lemma rename_columns_view (s1 s2 : FieldDataProcessor) :
  field_view s1 = field_view s2 →
  field_view <$> Field.rename_columns s1
  = field_view <$> Field.rename_columns s2.
Proof.
  intros [l ->]%field_view_eq. unfold Field.rename_columns. simpl.
  destruct (head (columns_to_rename s1)) as [[A B]|]; [|done].
  destruct (df s1) as [d|]; [|done]. simpl.
  by destruct (Field.fresh_temp_name (columns d)).
Qed.

Lemma apply_corrections_view (s1 s2 : FieldDataProcessor) (a b : string) :
  field_view s1 = field_view s2 →
  field_view <$> Field.apply_corrections s1 a b
  = field_view <$> Field.apply_corrections s2 a b.
Proof.
  intros [l ->]%field_view_eq. unfold Field.apply_corrections. simpl.
  repeat match goal with
         | |- context [mbind _ ?r] => destruct r; simpl; [|done]
         end.
  done.
Qed.

Lemma weather_station_mapping_view `{DataIngestion}
    (s1 s2 : FieldDataProcessor) :
  field_view s1 = field_view s2 →
  (field_view ∘ snd) <$> Field.weather_station_mapping s1
  = (field_view ∘ snd) <$> Field.weather_station_mapping s2.
Proof.
  intros [l ->]%field_view_eq. unfold Field.weather_station_mapping. simpl.
  repeat match goal with
         | |- context [mbind _ ?r] => destruct r; simpl; [|done]
         end.
  done.
Qed.

(** X9: what [process] makes of a processor, or raises, depends on the
    configuration alone, the database and the network answering alike: two
    processors configured alike end with the same table and engine,
    whatever they held and had logged before.  In particular a second run
    of [process] repeats the first. *)
Theorem process_depends_on_configuration `{DataIngestion}
    (self1 self2 : FieldDataProcessor) :
  field_config self1 = field_config self2 →
  field_state <$> Field.process self1 = field_state <$> Field.process self2.
Proof.
  intros Hcfg.
  assert (field_view <$> Field.process self1
          = field_view <$> Field.process self2) as Hview.
  { unfold Field.process.
    apply (bind_agree (field_view ∘ snd)).
    { unfold Field.ingest_sql_data.
      unfold field_config in Hcfg.
      injection Hcfg as Hdb Hsql Hcols Hvals Hmap. rewrite Hdb, Hsql.
      destruct (create_db_engine (db_path self2)) as [e|]; [|done].
      rewrite !bind_ret.
      destruct (query_data e (sql_query self2)) as [d|]; [|done].
      simpl. unfold field_view, field_config, field_state, compose. simpl.
      congruence. }
    intros [d1 s1] [d2 s2] Hs. simpl in Hs.
    apply (bind_agree field_view); [by apply rename_columns_view|].
    intros s3 s4 Hs'.
    apply (bind_agree field_view); [by apply apply_corrections_view|].
    intros s5 s6 Hs''.
    apply (bind_agree (field_view ∘ snd));
      [by apply weather_station_mapping_view|].
    intros [? ?] [? ?] Hlast. simpl in *. by rewrite Hlast. }
  destruct (Field.process self1), (Field.process self2); simpl in *;
    [unfold field_view in Hview; congruence | done | done
    | by injection Hview as ->].
Qed.

Lemma process_depends_on_configuration_witness :
  field_state <$> @Field.process sample_collaborators sample_new_field
  = field_state <$> @Field.process sample_collaborators
                      sample_processed_field.
Proof.
  apply (@process_depends_on_configuration sample_collaborators).
  reflexivity.
Defined.

(** ** One extraction *)

Lemma extract_loop_result `{PythonRuntime} (self self' : WeatherDataProcessor)
    (items : list (string * string)) (message : cell)
    (r : Weather.measurement) :
  Weather.extract_loop self items message = Return (r, self') →
  ∃ msg, self' = Weather.weather_logged self DEBUG msg ∧
    ((r = (None, None) ∧ msg = "No measurement match found.") ∨
     (∃ key v, r = (Some key, Some v) ∧ key ∈ items.*1 ∧
               msg = "Measurement extracted: " +:+ key)).
Proof.
  induction items as [|[key pattern] items IH]; simpl.
  - intros [= <- <-]. eexists. split; [done|]. by left.
  - destruct (Weather.search_cell pattern message) as [[g|]|]; simpl;
      [| |done].
    + destruct (Weather.first_non_null g) as [text|]; simpl; [|done].
      destruct (py_float text) as [v|]; simpl; [|done].
      intros [= <- <-]. eexists. split; [done|]. right.
      exists key, v. split; [done|]. split; [left|done].
    + intros (msg & -> & Hr)%IH. exists msg. split; [done|].
      destruct Hr as [?|(k & v & -> & Hk & ->)]; [by left|right].
      exists k, v. split; [done|]. split; [by right|done].
Qed.

(** X10: a call of [extract_measurement] that returns has logged exactly one
    record, at level [DEBUG], and changed nothing else of the processor; it
    returns either [(None, None)], with the record that nothing matched, or
    a key of [patterns] with a number, with the record that names this
    key. *)
Theorem extract_measurement_logs_once `{PythonRuntime}
    (self self' : WeatherDataProcessor) (message : cell)
    (r : Weather.measurement) :
  Weather.extract_measurement self message = Return (r, self') →
  weather_view self' = weather_view self ∧
  ((r = (None, None) ∧
    weather_log self'
    = weather_log self ++ [(DEBUG, "No measurement match found.")]) ∨
   (∃ key v, r = (Some key, Some v) ∧ key ∈ (patterns self).*1 ∧
      weather_log self'
      = weather_log self ++ [(DEBUG, "Measurement extracted: " +:+ key)])).
Proof.
  intros (msg & -> & Hr)%extract_loop_result. split; [done|].
  destruct Hr as [[-> ->]|(key & v & -> & Hkey & ->)]; [by left|right].
  by exists key, v.
Qed.

Lemma extract_measurement_logs_once_witness :
  weather_view
    (Weather.weather_logged sample_unloaded DEBUG
       "Measurement extracted: Temperature")
  = weather_view sample_unloaded ∧
  (((Some "Temperature", Some 21.5%float) = (None, None) ∧
    weather_log (Weather.weather_logged sample_unloaded DEBUG
                   "Measurement extracted: Temperature")
    = weather_log sample_unloaded
        ++ [(DEBUG, "No measurement match found.")]) ∨
   (∃ key v, (Some "Temperature", Some 21.5%float) = (Some key, Some v) ∧
      key ∈ (patterns sample_unloaded).*1 ∧
      weather_log (Weather.weather_logged sample_unloaded DEBUG
                     "Measurement extracted: Temperature")
      = weather_log sample_unloaded
          ++ [(DEBUG, "Measurement extracted: " +:+ key)])).
Proof.
  apply (@extract_measurement_logs_once sample_runtime sample_unloaded
           (Weather.weather_logged sample_unloaded DEBUG
              "Measurement extracted: Temperature")
           (CStr "Temp 21.5 C") (Some "Temperature", Some 21.5%float)).
  reflexivity.
Defined.

(** ** Assigning a column *)

Lemma fmap_zip_with_l {A B C D} (P : A → Prop) (h : C → D) (g : A → B → C)
    (k : A → D) (l : list A) (s : list B) :
  length s = length l → Forall P l →
  (∀ a b, P a → h (g a b) = k a) →
  h <$> zip_with g l s = k <$> l.
Proof.
  intros Hlen Hl Hh. revert s Hlen.
  induction Hl as [|a l Ha _ IH]; intros [|b s] Hlen; simpl in *; try done.
  csimpl. rewrite Hh by done. f_equal. apply IH. lia.
Qed.

Lemma fmap_zip_with_r {A B C} (P : A → Prop) (h : C → B) (g : A → B → C)
    (l : list A) (s : list B) :
  length s = length l → Forall P l →
  (∀ a b, P a → h (g a b) = b) →
  h <$> zip_with g l s = s.
Proof.
  intros Hlen Hl Hh. revert s Hlen.
  induction Hl as [|a l Ha _ IH]; intros [|b s] Hlen; simpl in *; try done.
  csimpl. rewrite Hh by done. f_equal. apply IH. lia.
Qed.

Lemma index_of_None c cols : index_of c cols = None ↔ c ∉ cols.
Proof.
  induction cols as [|l cols IH]; simpl.
  - split; [intros _; apply not_elem_of_nil | done].
  - rewrite not_elem_of_cons. case_decide as Hl.
    + split; [done | intros [? _]; congruence].
    + destruct (index_of c cols); simpl.
      * split; [done|]. intros [_ Hc]. by apply IH in Hc.
      * split; [|done]. intros _. split; [congruence | by apply IH].
Qed.

Lemma index_of_app_new c cols :
  c ∉ cols → index_of c (cols ++ [c]) = Some (length cols).
Proof.
  induction cols as [|l cols IH]; simpl.
  - intros _. by rewrite decide_True.
  - intros [Hl Hc]%not_elem_of_cons. rewrite decide_False by done.
    by rewrite (IH Hc).
Qed.

Lemma index_of_app_other c c' cols :
  c' ≠ c → index_of c' (cols ++ [c]) = index_of c' cols.
Proof.
  intros Hne. induction cols as [|l cols IH]; simpl.
  - by rewrite decide_False.
  - case_decide; [done|]. by rewrite IH.
Qed.

(** What [d[c] = s] returns. *)
Lemma df_set_inv c s d d' :
  df_set c s d = Return d' →
  length s = length (rows d) ∧
  d' = match index_of c (columns d) with
       | Some i => mkDF (columns d)
                        (zip_with (fun r v => <[i := v]> r) (rows d) s)
       | None => mkDF (columns d ++ [c])
                      (zip_with (fun r v => r ++ [v]) (rows d) s)
       end.
Proof.
  unfold df_set. case_decide; [|done].
  by destruct (index_of c (columns d)); intros [= <-].
Qed.

Lemma df_set_length c s d d' :
  df_set c s d = Return d' → length (rows d') = length (rows d).
Proof.
  intros [Hlen ->]%df_set_inv.
  destruct (index_of c (columns d)); simpl; rewrite length_zip_with; lia.
Qed.

Lemma df_set_columns c c' s d d' :
  df_set c s d = Return d' → c' ∈ columns d → c' ∈ columns d'.
Proof.
  intros [Hlen ->]%df_set_inv Hc.
  destruct (index_of c (columns d)); simpl; [done|].
  apply elem_of_app. by left.
Qed.

Lemma Forall_zip_with_l {A B C} (P : A → Prop) (Q : C → Prop)
    (g : A → B → C) (l : list A) (s : list B) :
  Forall P l → (∀ a b, P a → Q (g a b)) → Forall Q (zip_with g l s).
Proof.
  intros Hl Hg. revert s.
  induction Hl as [|a l Ha _ IH]; intros [|b s]; simpl; try done.
  constructor; [by apply Hg | apply IH].
Qed.

Lemma df_set_wf c s d d' : wf_df d → df_set c s d = Return d' → wf_df d'.
Proof.
  intros Hwf [Hlen ->]%df_set_inv. unfold wf_df in *.
  destruct (index_of c (columns d)) as [i|]; simpl.
  - eapply Forall_zip_with_l; [exact Hwf|].
    intros a b Ha. simpl in Ha. by rewrite length_insert.
  - eapply Forall_zip_with_l; [exact Hwf|].
    intros a b Ha. simpl in Ha. rewrite !length_app, Ha. done.
Qed.

Lemma df_set_get c s d d' :
  wf_df d → df_set c s d = Return d' → df_get c d' = Return s.
Proof.
  intros Hwf [Hlen ->]%df_set_inv. unfold wf_df in Hwf.
  destruct (index_of c (columns d)) as [i|] eqn:Hi.
  - unfold df_get. simpl. rewrite Hi. simpl. f_equal.
    change (map ?f ?l) with (f <$> l).
    apply (fmap_zip_with_r _ _ _ _ _ Hlen Hwf).
    intros a b Ha. simpl in Ha.
    rewrite list_lookup_insert_eq; [done|].
    apply index_of_lt in Hi. lia.
  - unfold df_get. simpl.
    rewrite index_of_app_new by (by apply index_of_None). simpl. f_equal.
    change (map ?f ?l) with (f <$> l).
    apply (fmap_zip_with_r _ _ _ _ _ Hlen Hwf).
    intros a b Ha. simpl in Ha. rewrite <- Ha.
    by rewrite lookup_app_r, Nat.sub_diag by lia.
Qed.

Lemma df_set_get_other c c' s d d' :
  wf_df d → c' ≠ c → df_set c s d = Return d' → df_get c' d' = df_get c' d.
Proof.
  intros Hwf Hne [Hlen ->]%df_set_inv. unfold wf_df in Hwf.
  destruct (index_of c (columns d)) as [i|] eqn:Hi.
  - unfold df_get. simpl.
    destruct (index_of c' (columns d)) as [i'|] eqn:Hi'; [|done].
    simpl. f_equal. change (map ?f ?l) with (f <$> l).
    apply (fmap_zip_with_l _ _ _ _ _ _ Hlen Hwf).
    intros a b _. rewrite list_lookup_insert_ne; [done|].
    intros ->. apply index_of_lookup in Hi, Hi'. congruence.
  - unfold df_get. simpl. rewrite index_of_app_other by done.
    destruct (index_of c' (columns d)) as [i'|] eqn:Hi'; [|done].
    simpl. f_equal. change (map ?f ?l) with (f <$> l).
    apply (fmap_zip_with_l _ _ _ _ _ _ Hlen Hwf).
    intros a b Ha. simpl in Ha. rewrite lookup_app_l; [done|].
    apply index_of_lt in Hi'. lia.
Qed.

(** Assigning to a column the values it holds changes nothing. *)
Lemma df_set_same c s d :
  wf_df d → df_get c d = Return s → df_set c s d = Return d.
Proof.
  intros Hwf Hget. unfold df_get in Hget.
  destruct (index_of c (columns d)) as [i|] eqn:Hi; [|done].
  simpl in Hget. injection Hget as <-.
  change (map ?f ?l) with (f <$> l).
  rewrite (df_set_index _ _ _ _ Hi). destruct d as [cols rs]. simpl in *.
  do 2 f_equal. rewrite <- (list_fmap_id rs) at 2.
  apply Forall_fmap_ext_1. eapply Forall_impl; [exact Hwf|].
  intros r Hr. simpl in *.
  destruct (lookup_lt_is_Some_2 r i) as [x Hx];
    [apply index_of_lt in Hi; lia|].
  rewrite Hx. simpl. by apply list_insert_id.
Qed.

(** ** The extraction over a table *)

Lemma apply_extract_result `{PythonRuntime} (self self' : WeatherDataProcessor)
    (messages : list cell) (pairs : list Weather.measurement) :
  Weather.apply_extract self messages = Return (pairs, self') →
  weather_view self' = weather_view self ∧
  length pairs = length messages ∧
  Forall (extracted (patterns self).*1) pairs ∧
  ∃ debugs, weather_log self' = weather_log self ++ debugs ∧
            length debugs = length messages ∧
            Forall (fun rec => fst rec = DEBUG) debugs.
Proof.
  revert self pairs. induction messages as [|message messages IH];
    intros self pairs; simpl.
  - intros [= <- <-]. split; [done|]. split; [done|]. split; [done|].
    exists []. by rewrite app_nil_r.
  - unfold Weather.extract_measurement.
    destruct (Weather.extract_loop self (patterns self) message)
      as [[r self1]|] eqn:E; simpl; [|done].
    destruct (Weather.apply_extract self1 messages)
      as [[rs self2]|] eqn:E'; simpl; [|done].
    intros [= <- <-].
    apply extract_loop_result in E as (msg & -> & Hr).
    apply IH in E' as (Hview & Hlen & Hall & debugs & Hlog & Hdl & Hd).
    split; [done|]. split; [simpl; lia|]. split.
    { constructor; [|done].
      destruct Hr as [[-> _]|(key & v & -> & Hkey & _)]; [by left|right].
      by exists key, v. }
    exists ((DEBUG, msg) :: debugs). split.
    { rewrite Hlog. simpl. by rewrite <- app_assoc. }
    split; [simpl; lia | by constructor].
Qed.

Lemma extract_loop_value `{PythonRuntime} (s1 s2 : WeatherDataProcessor)
    (items : list (string * string)) (message : cell) :
  fst <$> Weather.extract_loop s1 items message
  = fst <$> Weather.extract_loop s2 items message.
Proof.
  induction items as [|[key pattern] items IH]; simpl; [done|].
  destruct (Weather.search_cell pattern message) as [[g|]|]; simpl;
    [|done..].
  destruct (Weather.first_non_null g) as [text|]; simpl; [|done].
  by destruct (py_float text).
Qed.

Lemma apply_extract_value `{PythonRuntime} (s1 s2 : WeatherDataProcessor)
    (messages : list cell) :
  patterns s1 = patterns s2 →
  fst <$> Weather.apply_extract s1 messages
  = fst <$> Weather.apply_extract s2 messages.
Proof.
  revert s1 s2. induction messages as [|message messages IH];
    intros s1 s2 Hp; simpl; [done|].
  unfold Weather.extract_measurement. rewrite Hp.
  pose proof (extract_loop_value s1 s2 (patterns s2) message) as Hv.
  destruct (Weather.extract_loop s1 (patterns s2) message)
    as [[r1 s1']|] eqn:E1,
     (Weather.extract_loop s2 (patterns s2) message)
    as [[r2 s2']|] eqn:E2; simpl in *;
    [| done | done | by injection Hv as ->].
  injection Hv as ->.
  apply extract_loop_result in E1 as (? & -> & _).
  apply extract_loop_result in E2 as (? & -> & _).
  specialize (IH (Weather.weather_logged s1 DEBUG x)
                 (Weather.weather_logged s2 DEBUG x0) Hp).
  destruct (Weather.apply_extract (Weather.weather_logged s1 DEBUG x) _)
    as [[rs1 t1]|],
     (Weather.apply_extract (Weather.weather_logged s2 DEBUG x0) _)
    as [[rs2 t2]|]; simpl in *;
    [| done | done | by injection IH as ->].
  by injection IH as ->.
Qed.

(** The steps of a run of [process_messages] that returned. *)
Lemma process_messages_inv `{PythonRuntime} (self self' : WeatherDataProcessor)
    (d : DataFrame) (o : option DataFrame) :
  weather_df self = Some d →
  Weather.process_messages self = Return (o, self') →
  ∃ messages pairs self1 d1 d2,
    df_get "Message" d = Return messages ∧
    Weather.apply_extract self messages = Return (pairs, self1) ∧
    pairs ≠ [] ∧
    df_set "Measurement" (Weather.kind_cell ∘ fst <$> pairs) d = Return d1 ∧
    df_set "Value" (Weather.value_cells (snd <$> pairs)) d1 = Return d2 ∧
    o = Some d2 ∧
    self' = Weather.weather_logged (Weather.set_weather_df self1 d2) INFO
              "Messages processed and measurements extracted.".
Proof.
  intros Hdf. unfold Weather.process_messages. rewrite Hdf.
  destruct (df_get "Message" d) as [messages|]; simpl; [|done].
  destruct (Weather.apply_extract self messages)
    as [[pairs self1]|] eqn:E; simpl; [|done].
  destruct pairs as [|p pairs]; [done|].
  unfold Weather.unzip_pairs. rewrite bind_ret.
  change (map ?f ?l) with (f <$> l). rewrite <- list_fmap_compose.
  destruct (df_set "Measurement" _ d) as [d1|] eqn:E1; simpl; [|done].
  destruct (df_set "Value" _ d1) as [d2|] eqn:E2; simpl; [|done].
  intros [= <- <-]. by eexists _, _, _, _, _.
Qed.

(** X11: a run of [process_messages] on a loaded table that returns gives
    back the table it stores: a table with as many rows, in which the column
    [Measurement] holds for every row a key of [patterns] or [None], the
    column [Value] the number that goes with it, and every other column,
    [Message] among them, what it held before.  The table had at least one
    row. *)
Theorem process_messages_columns `{PythonRuntime}
    (self self' : WeatherDataProcessor) (d : DataFrame)
    (o : option DataFrame) :
  weather_df self = Some d → wf_df d →
  Weather.process_messages self = Return (o, self') →
  ∃ d' pairs,
    o = Some d' ∧ weather_df self' = Some d' ∧ wf_df d' ∧
    rows d ≠ [] ∧ length (rows d') = length (rows d) ∧
    length pairs = length (rows d) ∧
    Forall (extracted (patterns self).*1) pairs ∧
    df_get "Measurement" d' = Return (Weather.kind_cell ∘ fst <$> pairs) ∧
    df_get "Value" d' = Return (Weather.value_cells (snd <$> pairs)) ∧
    (∀ c, c ≠ "Measurement" → c ≠ "Value" → df_get c d' = df_get c d).
Proof.
  intros Hdf Hwf Hret.
  destruct (process_messages_inv _ _ _ _ Hdf Hret)
    as (messages & pairs & self1 & d1 & d2 & Hm & Hx & Hne & H1 & H2
        & -> & ->).
  pose proof (df_set_wf _ _ _ _ Hwf H1) as Hwf1.
  apply apply_extract_result in Hx as (_ & Hlen & Hall & _).
  assert (length messages = length (rows d)) as Hrows.
  { unfold df_get in Hm. destruct (index_of "Message" (columns d)); [|done].
    simpl in Hm. injection Hm as <-. by rewrite length_map. }
  exists d2, pairs. split; [done|]. split; [done|].
  split; [exact (df_set_wf _ _ _ _ Hwf1 H2)|]. split.
  { intros Hnil. apply Hne. apply length_zero_iff_nil.
    rewrite Hlen, Hrows, Hnil. done. }
  split.
  { by rewrite (df_set_length _ _ _ _ H2), (df_set_length _ _ _ _ H1). }
  split; [congruence|]. split; [done|]. split.
  { assert ("Measurement" ≠ "Value") as Hmv by done.
    rewrite (df_set_get_other _ _ _ _ _ Hwf1 Hmv H2).
    exact (df_set_get _ _ _ _ Hwf H1). }
  split; [exact (df_set_get _ _ _ _ Hwf1 H2)|].
  intros c Hc1 Hc2.
  rewrite (df_set_get_other _ _ _ _ _ Hwf1 Hc2 H2).
  by rewrite (df_set_get_other _ _ _ _ _ Hwf Hc1 H1).
Qed.

Lemma process_messages_columns_witness :
  ∃ d' pairs,
    Some sample_measured_table = Some d' ∧
    weather_df sample_measured = Some d' ∧ wf_df d' ∧
    rows sample_weather_table ≠ [] ∧
    length (rows d') = length (rows sample_weather_table) ∧
    length pairs = length (rows sample_weather_table) ∧
    Forall (extracted (patterns sample_loaded).*1) pairs ∧
    df_get "Measurement" d' = Return (Weather.kind_cell ∘ fst <$> pairs) ∧
    df_get "Value" d' = Return (Weather.value_cells (snd <$> pairs)) ∧
    (∀ c, c ≠ "Measurement" → c ≠ "Value" →
          df_get c d' = df_get c sample_weather_table).
Proof.
  apply (@process_messages_columns sample_runtime sample_loaded
           sample_measured sample_weather_table
           (Some sample_measured_table)).
  - reflexivity.
  - repeat constructor.
  - reflexivity.
Defined.

(** X12: a second run of [process_messages] repeats the first: when a run
    on a loaded table returns, a run on its result returns the same table
    and leaves it in place. *)
Theorem process_messages_again `{PythonRuntime}
    (self self1 : WeatherDataProcessor) (d : DataFrame)
    (o : option DataFrame) :
  weather_df self = Some d → wf_df d →
  Weather.process_messages self = Return (o, self1) →
  ∃ self2,
    Weather.process_messages self1 = Return (o, self2) ∧
    weather_df self2 = weather_df self1 ∧ weather_df self1 = o.
Proof.
  intros Hdf Hwf Hret.
  destruct (process_messages_inv _ _ _ _ Hdf Hret)
    as (messages & pairs & self1' & d1 & d2 & Hm & Hx & Hne & H1 & H2
        & -> & ->).
  pose proof (df_set_wf _ _ _ _ Hwf H1) as Hwf1.
  pose proof (df_set_wf _ _ _ _ Hwf1 H2) as Hwf2.
  assert ("Message" ≠ "Measurement") as Hmm by done.
  assert ("Message" ≠ "Value") as Hmv by done.
  assert ("Measurement" ≠ "Value") as Hkv by done.
  assert (df_get "Message" d2 = Return messages) as Hm2.
  { rewrite (df_set_get_other _ _ _ _ _ Hwf1 Hmv H2).
    by rewrite (df_set_get_other _ _ _ _ _ Hwf Hmm H1). }
  assert (df_get "Measurement" d2
          = Return (Weather.kind_cell ∘ fst <$> pairs)) as Hk2.
  { rewrite (df_set_get_other _ _ _ _ _ Hwf1 Hkv H2).
    exact (df_set_get _ _ _ _ Hwf H1). }
  pose proof (df_set_get _ _ _ _ Hwf1 H2) as Hv2.
  set (self1 := Weather.weather_logged (Weather.set_weather_df self1' d2)
                  INFO "Messages processed and measurements extracted.").
  assert (patterns self1 = patterns self) as Hp.
  { apply apply_extract_result in Hx as (Hview & _).
    unfold weather_view in Hview. simpl. congruence. }
  pose proof (apply_extract_value self1 self messages Hp) as Hval.
  rewrite Hx in Hval. simpl in Hval.
  destruct (Weather.apply_extract self1 messages) as [[pairs' self3]|] eqn:E;
    simpl in Hval; [|done].
  injection Hval as ->.
  exists (Weather.weather_logged (Weather.set_weather_df self3 d2) INFO
            "Messages processed and measurements extracted.").
  split; [|done].
  assert (weather_df self1 = Some d2) as Hdf1 by done.
  unfold Weather.process_messages. rewrite Hdf1.
  rewrite Hm2, bind_ret, E, bind_ret.
  destruct pairs as [|p pairs]; [done|].
  unfold Weather.unzip_pairs. rewrite bind_ret.
  change (map ?f ?l) with (f <$> l). rewrite <- list_fmap_compose.
  rewrite (df_set_same _ _ _ Hwf2 Hk2), bind_ret.
  by rewrite (df_set_same _ _ _ Hwf2 Hv2), bind_ret.
Qed.

Lemma process_messages_again_witness :
  ∃ self2,
    @Weather.process_messages sample_runtime sample_measured
    = Return (Some sample_measured_table, self2) ∧
    weather_df self2 = weather_df sample_measured ∧
    weather_df sample_measured = Some sample_measured_table.
Proof.
  apply (@process_messages_again sample_runtime sample_loaded
           sample_measured sample_weather_table
           (Some sample_measured_table)).
  - reflexivity.
  - repeat constructor.
  - reflexivity.
Defined.

(** ** Tables [process_messages] cannot take *)

(** X13: on a loaded table without a column [Message], [process_messages]
    raises [KeyError]; on a loaded table with this column and no row at all
    it raises [ValueError], the unpacking finding nothing to unpack. *)
Theorem process_messages_edge_tables `{PythonRuntime}
    (self : WeatherDataProcessor) (d : DataFrame) :
  weather_df self = Some d →
  ("Message" ∉ columns d → Weather.process_messages self = Raise KeyError) ∧
  ("Message" ∈ columns d → rows d = [] →
   Weather.process_messages self = Raise ValueError).
Proof.
  intros Hdf. unfold Weather.process_messages. rewrite Hdf. split.
  - intros Hno%index_of_None. unfold df_get. by rewrite Hno.
  - intros [i Hi]%index_of_elem Hrows.
    rewrite (df_get_index _ _ _ Hi), Hrows. reflexivity.
Qed.

Lemma process_messages_edge_tables_witness :
  @Weather.process_messages sample_runtime sample_empty = Raise ValueError.
Proof.
  destruct (@process_messages_edge_tables sample_runtime sample_empty
              (mkDF ["Weather_station_ID"; "Message"] []) eq_refl)
    as [_ Hempty].
  apply Hempty; [by_evaluation | reflexivity].
Defined.

Lemma apply_extract_not_string `{PythonRuntime} (self : WeatherDataProcessor)
    (messages : list cell) :
  patterns self ≠ [] →
  Exists (fun c => is_string c = false) messages →
  ∃ e, Weather.apply_extract self messages = Raise e.
Proof.
  intros Hp Hex. revert self Hp.
  induction Hex as [c messages Hc|c messages _ IH]; intros self Hp; simpl.
  - unfold Weather.extract_measurement.
    destruct (patterns self) as [|[key pattern] items]; [done|]. simpl.
    exists TypeError. by destruct c.
  - destruct (Weather.extract_measurement self c) as [[r self1]|e] eqn:E;
      simpl; [|by exists e].
    unfold Weather.extract_measurement in E.
    apply extract_loop_result in E as (msg & -> & _).
    destruct (IH (Weather.weather_logged self DEBUG msg) Hp) as [e ->].
    by exists e.
Qed.

(** X14: with at least one pattern configured, [process_messages] does not
    return on a loaded table in which some message is not a string (a
    missing message, a number): the search on that message raises, unless
    an earlier row raised before. *)
Theorem process_messages_needs_strings `{PythonRuntime}
    (self : WeatherDataProcessor) (d : DataFrame) (messages : list cell) :
  weather_df self = Some d →
  df_get "Message" d = Return messages →
  patterns self ≠ [] →
  Exists (fun c => is_string c = false) messages →
  ∃ e, Weather.process_messages self = Raise e.
Proof.
  intros Hdf Hm Hp Hex. unfold Weather.process_messages.
  rewrite Hdf, Hm, bind_ret.
  destruct (apply_extract_not_string self messages Hp Hex) as [e ->].
  by exists e.
Qed.

Lemma process_messages_needs_strings_witness :
  ∃ e, @Weather.process_messages sample_runtime sample_missing_message
       = Raise e.
Proof.
  apply (@process_messages_needs_strings sample_runtime
           sample_missing_message
           (mkDF ["Weather_station_ID"; "Message"]
                 [[CNum 0%float; CStr "Rainfall reading: 23.5mm"];
                  [CNum 0%float; CNum PrimFloat.nan]])
           [CStr "Rainfall reading: 23.5mm"; CNum PrimFloat.nan]).
  - reflexivity.
  - reflexivity.
  - discriminate.
  - right. left. reflexivity.
Defined.

(** ** What the means need *)

Lemma cell_values_outcome (values : list cell) :
  (Forall (fun c => is_string c = false) values →
   ∃ vals, map_result Weather.cell_value values = Return vals) ∧
  (Exists (fun c => is_string c = true) values →
   map_result Weather.cell_value values = Raise TypeError).
Proof.
  induction values as [|c values [IHok IHbad]]; simpl.
  - split; [by eexists | by intros ?%Exists_nil].
  - split.
    + intros [Hc [vals ->]%IHok]%Forall_cons.
      destruct c; [by eexists | by eexists | done].
    + intros [Hc | Hex]%Exists_cons.
      * by destruct c.
      * rewrite (IHbad Hex). by destruct c.
Qed.

Lemma df_get_outcome (c : string) (d : DataFrame) :
  (c ∈ columns d ∧ ∃ s, df_get c d = Return s) ∨
  ((c ∉ columns d) ∧ df_get c d = Raise KeyError).
Proof.
  unfold df_get. destruct (index_of c (columns d)) as [i|] eqn:Hi.
  - left. split; [|by eexists].
    eapply list_elem_of_lookup_2, index_of_lookup, Hi.
  - right. split; [by apply index_of_None | done].
Qed.

Lemma keys_by_row_false (d : DataFrame) :
  "Weather_station_ID" ∈ columns d → "Measurement" ∈ columns d →
  Weather.keys_by_row d = false.
Proof.
  intros Hs Hm. unfold Weather.keys_by_row.
  by rewrite !bool_decide_true, andb_false_r.
Qed.

(** X15: on a loaded table with distinct labels, [calculate_means] raises
    [KeyError] when the column [Value] is missing, and when one of the
    columns [Weather_station_ID] and [Measurement] is missing from a table
    that has not exactly two rows.  On a table of two rows that lacks one of
    these two and has the values, it raises [TypeError] when a value is a
    string and [ValueError] otherwise.  With the three columns it raises
    [TypeError] when a row with both keys holds a string for its value, and
    returns a table of means otherwise, the stored table being left as it
    was. *)
Theorem calculate_means_outcome (self : WeatherDataProcessor)
    (d : DataFrame) :
  weather_df self = Some d → NoDup (columns d) →
  ("Value" ∉ columns d → Weather.calculate_means self = Raise KeyError) ∧
  (¬ ("Weather_station_ID" ∈ columns d ∧ "Measurement" ∈ columns d) →
   (length (rows d) ≠ 2 → Weather.calculate_means self = Raise KeyError) ∧
   (∀ values,
      length (rows d) = 2 → df_get "Value" d = Return values →
      (Exists (fun c => is_string c = true) values →
       Weather.calculate_means self = Raise TypeError) ∧
      (Forall (fun c => is_string c = false) values →
       Weather.calculate_means self = Raise ValueError))) ∧
  (∀ stations kinds values,
     df_get "Weather_station_ID" d = Return stations →
     df_get "Measurement" d = Return kinds →
     df_get "Value" d = Return values →
     let table := reading_rows stations kinds values in
     (Exists (fun r => Weather.grouped r = true ∧ is_string (snd r) = true)
             table →
      Weather.calculate_means self = Raise TypeError) ∧
     (Forall (fun r => Weather.grouped r = true → is_string (snd r) = false)
             table →
      ∃ p self',
        Weather.calculate_means self = Return (Some p, self') ∧
        weather_df self' = Some d)).
Proof.
  intros Hdf _. unfold Weather.calculate_means. rewrite Hdf.
  split; [|split].
  - intros Hno.
    destruct (df_get_outcome "Value" d) as [[? _]|[_ Hv]]; [done|].
    rewrite Hv. destruct (Weather.keys_by_row d); [done|].
    destruct (df_get_outcome "Weather_station_ID" d)
      as [[_ [stations ->]]|[_ ->]]; [|done].
    by destruct (df_get_outcome "Measurement" d)
      as [[_ [kinds ->]]|[_ ->]].
  - intros Hno. split.
    + intros Hrows. unfold Weather.keys_by_row.
      rewrite (proj2 (Nat.eqb_neq _ _) Hrows). simpl.
      destruct (df_get_outcome "Weather_station_ID" d)
        as [[Hs [stations ->]]|[_ ->]]; [|done].
      destruct (df_get_outcome "Measurement" d)
        as [[Hm _]|[_ ->]]; [|done].
      by destruct Hno.
    + intros values Hrows Hv. unfold Weather.keys_by_row.
      rewrite Hrows. simpl.
      assert (bool_decide ("Weather_station_ID" ∈ columns d)
              && bool_decide ("Measurement" ∈ columns d) = false) as ->.
      { apply andb_false_iff.
        destruct (decide ("Weather_station_ID" ∈ columns d)) as [Hs|Hs];
          [|left; by apply bool_decide_eq_false].
        right. apply bool_decide_eq_false. intros Hm. by apply Hno. }
      simpl. rewrite Hv, bind_ret.
      destruct (cell_values_outcome values) as [Hok Hbad]. split.
      * intros Hex. by rewrite (Hbad Hex).
      * intros [vals ->]%Hok. done.
  - intros stations kinds values Hs Hk Hv.
    set (table := reading_rows stations kinds values).
    rewrite keys_by_row_false.
    + rewrite Hs, Hk, Hv, !bind_ret.
      fold (reading_rows stations kinds values). fold table.
      destruct (row_readings_outcome stations kinds table) as [Hok Hbad].
      split.
      * intros Hex. by rewrite (Hbad Hex).
      * intros [readings ->]%Hok. by eexists _, _.
    + by destruct (df_get_outcome "Weather_station_ID" d)
        as [[? _]|[_ E]]; [|rewrite E in Hs].
    + by destruct (df_get_outcome "Measurement" d)
        as [[? _]|[_ E]]; [|rewrite E in Hk].
Qed.

Lemma calculate_means_outcome_witness :
  Weather.calculate_means sample_loaded = Raise KeyError ∧
  Weather.calculate_means sample_unprocessed = Raise KeyError ∧
  ∃ p self',
    Weather.calculate_means sample_measured = Return (Some p, self') ∧
    weather_df self' = Some sample_measured_table.
Proof.
  split; [|split].
  - destruct (calculate_means_outcome sample_loaded sample_weather_table
                eq_refl) as [Hno _]; [by_evaluation|].
    apply Hno. by_evaluation.
  - destruct (calculate_means_outcome sample_unprocessed
                sample_unprocessed_table eq_refl) as (_ & Hno & _);
      [by_evaluation|].
    destruct Hno as [Hrows _].
    + intros (_ & Hm). revert Hm. by_evaluation.
    + apply Hrows. discriminate.
  - destruct (calculate_means_outcome sample_measured sample_measured_table
                eq_refl) as (_ & _ & Hyes); [by_evaluation|].
    destruct (Hyes [CNum 0; CNum 0]%float [CStr "Rainfall"; CNull]
                [CNum 23.5; CNum nan]%float) as [_ Hok];
      [reflexivity | reflexivity | reflexivity |].
    apply Hok. repeat constructor.
Defined.

Lemma value_cells_no_string (vs : list (option float)) :
  Forall (fun c => is_string c = false) (Weather.value_cells vs).
Proof.
  unfold Weather.value_cells. destruct (existsb _ vs).
  - change (map ?f ?l) with (f <$> l). apply Forall_fmap.
    by apply Forall_true.
  - change (map ?f ?l) with (f <$> l). apply Forall_fmap.
    by apply Forall_true.
Qed.

(** X16: after a run of [process_messages] that returned, on a table with a
    column [Weather_station_ID], [calculate_means] returns a table of means
    and logs that it did; the columns of that table are keys of
    [patterns]. *)
Theorem calculate_means_after_process_messages `{PythonRuntime}
    (self self1 : WeatherDataProcessor) (d : DataFrame)
    (o : option DataFrame) :
  weather_df self = Some d → wf_df d →
  "Weather_station_ID" ∈ columns d →
  Weather.process_messages self = Return (o, self1) →
  ∃ p self2,
    Weather.calculate_means self1 = Return (Some p, self2) ∧
    weather_df self2 = o ∧
    weather_log self2
    = weather_log self1 ++ [(INFO, "Mean values calculated.")] ∧
    (∀ m, m ∈ Weather.pivot_columns p →
          ∃ key, m = CStr key ∧ key ∈ (patterns self).*1).
Proof.
  intros Hdf Hwf Hst Hret.
  destruct (process_messages_inv _ _ _ _ Hdf Hret)
    as (messages & pairs & self1' & d1 & d2 & Hm & Hx & Hne & H1 & H2
        & -> & ->).
  pose proof (df_set_wf _ _ _ _ Hwf H1) as Hwf1.
  assert ("Measurement" ≠ "Value") as Hkv by done.
  assert (df_get "Measurement" d2
          = Return (Weather.kind_cell ∘ fst <$> pairs)) as Hk2.
  { rewrite (df_set_get_other _ _ _ _ _ Hwf1 Hkv H2).
    exact (df_set_get _ _ _ _ Hwf H1). }
  pose proof (df_set_get _ _ _ _ Hwf1 H2) as Hv2.
  destruct (index_of_elem "Weather_station_ID" (columns d2)) as [i Hi].
  { eapply df_set_columns; [exact H2|]. by eapply df_set_columns. }
  apply apply_extract_result in Hx as (_ & _ & Hall & _).
  pose proof (df_get_index _ _ _ Hi) as Hs2.
  set (stations := (fun r => default CNull (r !! i)) <$> rows d2) in *.
  set (kinds := Weather.kind_cell ∘ fst <$> pairs) in *.
  set (table := zip (zip stations kinds) (Weather.value_cells pairs.*2)).
  destruct (row_readings_outcome stations kinds table)
    as [[readings Hread] _].
  { apply Forall_forall. intros [k v] Hin%elem_of_zip_r _.
    pose proof (value_cells_no_string pairs.*2) as Hno.
    rewrite Forall_forall in Hno. by apply Hno. }
  unfold Weather.calculate_means.
  match goal with
  | |- context [weather_df ?s] => change (weather_df s) with (Some d2)
  end.
  cbv iota. rewrite keys_by_row_false.
  2: { eapply list_elem_of_lookup_2, index_of_lookup, Hi. }
  2: { by destruct (df_get_outcome "Measurement" d2)
         as [[? _]|[_ E]]; [|rewrite E in Hk2]. }
  rewrite Hs2, Hk2, Hv2, !bind_ret. fold table. rewrite Hread, bind_ret.
  eexists _, _. split; [reflexivity|]. split; [done|]. split; [done|].
  intros m Hin.
  destruct (means_unstacked_spec
              (forallb is_num (Weather.value_cells pairs.*2)) readings)
    as (_ & _ & _ & Hcols & _).
  apply Hcols in Hin as (r' & Hr' & Hg & <-).
  apply map_result_Forall2 in Hread.
  destruct (elem_of_Forall2_r _ _ _ _ Hread Hr') as ([[a b] v] & Hr & Hrr).
  apply elem_of_zip_l, elem_of_zip_r in Hr.
  apply grouped_keys in Hg as [_ Hnull].
  rewrite (proj1 (row_reading_inv _ _ _ _ Hrr)) in Hnull |- *.
  simpl in Hnull |- *.
  pose proof (key_label_elem kinds b Hr) as Hlabel.
  apply list_elem_of_fmap in Hlabel as (pr & Hkind & Hpr).
  rewrite Hkind in Hnull |- *. simpl in Hnull |- *.
  rewrite Forall_forall in Hall.
  destruct (Hall pr Hpr) as [E | (key & x & E & Hkey)]; rewrite E in *;
    [done|].
  by exists key.
Qed.

Lemma calculate_means_after_process_messages_witness :
  ∃ p self2,
    Weather.calculate_means sample_measured = Return (Some p, self2) ∧
    weather_df self2 = Some sample_measured_table ∧
    weather_log self2
    = weather_log sample_measured ++ [(INFO, "Mean values calculated.")] ∧
    (∀ m, m ∈ Weather.pivot_columns p →
          ∃ key, m = CStr key ∧ key ∈ (patterns sample_loaded).*1).
Proof.
  apply (@calculate_means_after_process_messages sample_runtime
           sample_loaded sample_measured sample_weather_table
           (Some sample_measured_table)).
  - reflexivity.
  - repeat constructor.
  - by_evaluation.
  - reflexivity.
Defined.

(** ** The pipeline of the weather processor *)

(** X17: a run of [process] that returns has read the table of readings,
    whatever table the processor held before, and has logged, in this
    order: that the table was loaded, one [DEBUG] record for every row of
    the table read, that the messages were processed, and that the
    processing was completed. *)
Theorem weather_process_log `{DataIngestion} `{PythonRuntime}
    (self self' : WeatherDataProcessor) :
  Weather.process self = Return self' →
  ∃ d d' debugs,
    read_from_web_CSV (weather_station_data self) = Return d ∧
    weather_df self' = Some d' ∧
    length (rows d') = length (rows d) ∧
    length debugs = length (rows d) ∧
    Forall (fun rec => fst rec = DEBUG) debugs ∧
    weather_log self'
    = weather_log self
        ++ [(INFO, "Successfully loaded weather station data from the web.")]
        ++ debugs
        ++ [(INFO, "Messages processed and measurements extracted.");
            (INFO, "Data processing completed.")].
Proof.
  unfold Weather.process, Weather.weather_station_mapping. intros Hret.
  apply bind_Return_inv in Hret as (self0 & Hload & Hret).
  apply bind_Return_inv in Hload as (d & Hread & Hload).
  injection Hload as <-.
  apply bind_Return_inv in Hret as ([o self1] & Hmsg & Hret).
  injection Hret as <-.
  apply (process_messages_inv _ _ d) in Hmsg; [|done].
  destruct Hmsg as (messages & pairs & self2 & d1 & d2 & Hm & Hx & _ & H1
                    & H2 & -> & ->).
  apply apply_extract_result in Hx as (_ & Hlen & _ & debugs & Hlog & Hdl
                                       & Hd).
  assert (length messages = length (rows d)) as Hrows.
  { unfold df_get in Hm. destruct (index_of "Message" (columns d)); [|done].
    simpl in Hm. injection Hm as <-. by rewrite length_map. }
  exists d, d2, debugs. split; [done|]. split; [done|]. split.
  { by rewrite (df_set_length _ _ _ _ H2), (df_set_length _ _ _ _ H1). }
  split; [exact (eq_trans Hdl Hrows)|]. split; [done|].
  simpl. rewrite Hlog. simpl. by rewrite <- !app_assoc.
Qed.

Lemma weather_process_log_witness :
  ∃ d d' debugs,
    @read_from_web_CSV sample_collaborators
      (weather_station_data sample_unloaded) = Return d ∧
    weather_df sample_processed_weather = Some d' ∧
    length (rows d') = length (rows d) ∧
    length debugs = length (rows d) ∧
    Forall (fun rec => fst rec = DEBUG) debugs ∧
    weather_log sample_processed_weather
    = weather_log sample_unloaded
        ++ [(INFO, "Successfully loaded weather station data from the web.")]
        ++ debugs
        ++ [(INFO, "Messages processed and measurements extracted.");
            (INFO, "Data processing completed.")].
Proof.
  apply (@weather_process_log sample_collaborators sample_runtime
           sample_unloaded sample_processed_weather).
  reflexivity.
Defined.

(** ** What the column swap needs *)

(** X18: [rename_columns] raises [IndexError] when [columns_to_rename] is
    empty, whether or not a table is loaded, and [AttributeError] when there
    is a pair and no table; with a pair and a table it always returns,
    keeping the rows and the number of columns, and when the table has
    neither column of the pair it leaves the table as it is and still logs
    the swap. *)
Theorem rename_columns_outcome (self : FieldDataProcessor) :
  (columns_to_rename self = [] →
   Field.rename_columns self = Raise IndexError) ∧
  (∀ A B, head (columns_to_rename self) = Some (A, B) →
     (df self = None → Field.rename_columns self = Raise AttributeError) ∧
     (∀ d, df self = Some d →
        ∃ d',
          Field.rename_columns self
          = Return (Field.field_info (Field.set_df self d')
                      ("Swapped columns: " +:+ A +:+ " with " +:+ B)) ∧
          rows d' = rows d ∧
          length (columns d') = length (columns d) ∧
          (A ∉ columns d → B ∉ columns d → d' = d))).
Proof.
  unfold Field.rename_columns. split.
  { by intros ->. }
  intros A B ->. simpl. split.
  { by intros ->. }
  intros d ->. simpl.
  destruct (fresh_temp_name_total (columns d)) as (t & -> & Ht). simpl.
  eexists. split; [reflexivity|]. split; [done|].
  split; [simpl; by rewrite !length_map|].
  intros HA HB. destruct d as [cols rs]. unfold df_rename. simpl in *.
  f_equal. rewrite map_map. rewrite <- (map_id cols) at 2.
  apply map_ext_in. intros l Hl%list_elem_of_In. unfold rename_label.
  assert (l ≠ A) by congruence. assert (l ≠ B) by congruence.
  assert (l ≠ t) by congruence.
  rewrite lookup_insert_ne by done. rewrite lookup_insert_ne by done.
  rewrite lookup_empty. simpl.
  rewrite lookup_insert_ne by done. by rewrite lookup_empty.
Qed.

Lemma rename_columns_outcome_witness :
  Field.rename_columns sample_no_pair = Raise IndexError ∧
  Field.rename_columns sample_new_field = Raise AttributeError ∧
  ∃ d',
    Field.rename_columns sample_one_field_processor
    = Return (Field.field_info (Field.set_df sample_one_field_processor d')
                ("Swapped columns: " +:+ "Annual_yield" +:+ " with "
                   +:+ "Crop_type")) ∧
    d' = sample_one_field_table.
Proof.
  split; [|split].
  - destruct (rename_columns_outcome sample_no_pair) as [Hempty _].
    by apply Hempty.
  - destruct (rename_columns_outcome sample_new_field) as [_ Hpair].
    destruct (Hpair "Annual_yield" "Crop_type" eq_refl) as [Hnone _].
    by apply Hnone.
  - destruct (rename_columns_outcome sample_one_field_processor) as [_ Hpair].
    destruct (Hpair "Annual_yield" "Crop_type" eq_refl) as [_ Hsome].
    destruct (Hsome sample_one_field_table eq_refl)
      as (d' & Hret & _ & _ & Hsame).
    exists d'. split; [exact Hret|]. apply Hsame; by_evaluation.
Defined.

(** ** The loggers of the two classes *)

(** One call of [initialize_logging], seen from the logger it is for. *)
Lemma initialize_logging_logger (name lvl : string)
    (loggers : gmap string Logger) :
  get_logger name (initialize_logging name lvl loggers)
  = (let lg := get_logger name loggers in
     if disables lvl
     then mkLogger false true (logger_level lg) (handlers lg)
     else mkLogger false (disabled lg) (Some (chosen_level lvl))
                   (match handlers lg with
                    | [] => [StreamHandler log_format]
                    | hs => hs
                    end)).
Proof.
  unfold initialize_logging, disables, chosen_level, get_logger.
  destruct (decide (py_upper lvl = code_points "DEBUG")) as [Hd|Hd].
  { rewrite lookup_insert_eq, bool_decide_eq_false_2; [done|].
    rewrite Hd. by vm_compute. }
  destruct (decide (py_upper lvl = code_points "INFO")) as [Hi|Hi].
  { rewrite lookup_insert_eq, bool_decide_eq_false_2; [done|].
    rewrite Hi. by vm_compute. }
  destruct (decide (py_upper lvl = code_points "NONE")) as [Hn|Hn].
  - by rewrite lookup_insert_eq, bool_decide_eq_true_2.
  - by rewrite lookup_insert_eq, bool_decide_eq_false_2.
Qed.

Lemma initialize_logging_other (name name' lvl : string)
    (loggers : gmap string Logger) :
  name' ≠ name → initialize_logging name lvl loggers !! name' = loggers !! name'.
Proof.
  intros Hne. unfold initialize_logging.
  repeat case_decide; by rewrite lookup_insert_ne.
Qed.

(** X19: the logger of a class after any number of initialisations, as the
    constructors of its instances make them.  The loggers of other names
    are untouched; the logger no longer propagates; it is disabled exactly
    when it was before or one of the options was [NONE] in some spelling,
    whatever was asked for afterwards; it has the handlers it had, with one
    console handler added if it had none and some option was not [NONE]; and
    its level is then [DEBUG] or [INFO]. *)
Theorem logger_after_initialisations (name : string) (lvls : list string)
    (loggers : gmap string Logger) :
  (∀ name', name' ≠ name →
            initialize_all name lvls loggers !! name' = loggers !! name') ∧
  (lvls ≠ [] →
   propagate (get_logger name (initialize_all name lvls loggers)) = false) ∧
  disabled (get_logger name (initialize_all name lvls loggers))
  = disabled (get_logger name loggers) || existsb disables lvls ∧
  handlers (get_logger name (initialize_all name lvls loggers))
  = (if forallb disables lvls then handlers (get_logger name loggers)
     else match handlers (get_logger name loggers) with
          | [] => [StreamHandler log_format]
          | hs => hs
          end) ∧
  (forallb disables lvls = false →
   logger_level (get_logger name (initialize_all name lvls loggers))
   ∈ [Some DEBUG; Some INFO]).
Proof.
  revert loggers. induction lvls as [|lvl lvls IH]; intros loggers.
  { simpl. split; [done|]. split; [done|]. split; [by rewrite orb_false_r|].
    done. }
  change (initialize_all name (lvl :: lvls) loggers)
    with (initialize_all name lvls (initialize_logging name lvl loggers)).
  destruct (IH (initialize_logging name lvl loggers))
    as (Hother & Hprop & Hdis & Hhs & Hlvl).
  pose proof (initialize_logging_logger name lvl loggers) as Hone.
  split; [|split; [|split; [|split]]].
  - intros name' Hne. rewrite Hother by done.
    by apply initialize_logging_other.
  - intros _. destruct lvls as [|lvl' lvls]; [|by apply Hprop].
    simpl. rewrite Hone. simpl. by destruct (disables lvl).
  - rewrite Hdis, Hone. simpl.
    destruct (disables lvl); simpl; [by rewrite orb_true_r|done].
  - rewrite Hhs, Hone. simpl.
    destruct (disables lvl); simpl; [done|].
    destruct (handlers (get_logger name loggers)) as [|h hs];
      by destruct (forallb disables lvls).
  - simpl. intros Hsome.
    destruct (forallb disables lvls) eqn:Hall.
    + rewrite andb_true_r in Hsome.
      assert (logger_level
                (get_logger name
                   (initialize_all name lvls
                      (initialize_logging name lvl loggers)))
              = logger_level
                  (get_logger name (initialize_logging name lvl loggers)))
        as ->.
      { clear -Hall. revert Hall.
        generalize (initialize_logging name lvl loggers).
        induction lvls as [|l lvls IH]; intros lg; simpl; [done|].
        intros [Hl Hall]%andb_prop.
        change (initialize_all name (l :: lvls) lg)
          with (initialize_all name lvls (initialize_logging name l lg)).
        rewrite (IH _ Hall), initialize_logging_logger. simpl.
        by rewrite Hl. }
      rewrite Hone, Hsome. simpl. unfold chosen_level.
      case_decide; [left | right; left].
    + by apply Hlvl.
Qed.

Lemma logger_after_initialisations_witness :
  propagate (get_logger Field.logger_name
               (initialize_all Field.logger_name ["none"; "Debug"] ∅))
  = false ∧
  disabled (get_logger Field.logger_name
              (initialize_all Field.logger_name ["none"; "Debug"] ∅))
  = true ∧
  logger_level (get_logger Field.logger_name
                  (initialize_all Field.logger_name ["none"; "Debug"] ∅))
  ∈ [Some DEBUG; Some INFO].
Proof.
  destruct (logger_after_initialisations Field.logger_name
              ["none"; "Debug"] ∅) as (_ & Hprop & Hdis & _ & Hlvl).
  split; [by apply Hprop|]. split; [by rewrite Hdis|].
  by apply Hlvl.
Defined.

(** ** The constructors *)

(** X20: each constructor reads its own keys of the configuration and
    raises [KeyError] exactly when one of them is missing, the keys of the
    other class playing no part; a processor it returns holds no table (and
    no engine), and the logger of its class has been initialised with the
    given option while the logger of the other class is as it was. *)
Theorem constructors_read_their_keys (config_params : ConfigParams)
    (logging_level : string) (loggers : gmap string Logger) :
  (Field.__init__ config_params logging_level loggers = Raise KeyError ↔
   cfg_db_path config_params = None ∨ cfg_sql_query config_params = None ∨
   cfg_columns_to_rename config_params = None ∨
   cfg_values_to_rename config_params = None ∨
   cfg_weather_mapping_csv config_params = None) ∧
  (Weather.__init__ config_params logging_level loggers = Raise KeyError ↔
   cfg_weather_csv_path config_params = None ∨
   cfg_regex_patterns config_params = None) ∧
  (∀ self loggers',
     Field.__init__ config_params logging_level loggers
     = Return (self, loggers') →
     df self = None ∧ engine self = None ∧
     loggers' = initialize_logging Field.logger_name logging_level loggers ∧
     loggers' !! Weather.logger_name = loggers !! Weather.logger_name) ∧
  (∀ self loggers',
     Weather.__init__ config_params logging_level loggers
     = Return (self, loggers') →
     weather_df self = None ∧
     loggers' = initialize_logging Weather.logger_name logging_level loggers ∧
     loggers' !! Field.logger_name = loggers !! Field.logger_name).
Proof.
  destruct config_params as [p q c v m w r].
  unfold Field.__init__, Weather.__init__. simpl.
  split; [|split; [|split]].
  - split.
    + intros Hret. destruct p; [|by left]. destruct q; [|by right; left].
      destruct c; [|by do 2 right; left].
      destruct v; [|by do 3 right; left]. destruct m; [done|by do 4 right].
    + intros Hnone. destruct p, q, c, v, m; try done.
      destruct Hnone as [?|[?|[?|[?|?]]]]; done.
  - split.
    + intros Hret. destruct w; [|by left]. destruct r; [done|by right].
    + intros Hnone. destruct w, r; try done. destruct Hnone; done.
  - intros self loggers' Hret.
    destruct p, q, c, v, m; simpl in Hret; try done.
    injection Hret as <- <-. split; [done|]. split; [done|].
    split; [done|]. by apply initialize_logging_other.
  - intros self loggers' Hret.
    destruct w, r; simpl in Hret; try done.
    injection Hret as <- <-. split; [done|]. split; [done|].
    by apply initialize_logging_other.
Qed.

Lemma constructors_read_their_keys_witness :
  Weather.__init__ sample_config_without_patterns "INFO" ∅ = Raise KeyError ∧
  df sample_new_field = None ∧ engine sample_new_field = None.
Proof.
  destruct (constructors_read_their_keys sample_config_without_patterns
              "INFO" ∅) as (_ & Hweather & Hfield & _).
  split.
  - apply Hweather. by right.
  - destruct (Hfield sample_new_field
                (initialize_logging Field.logger_name "INFO" ∅) eq_refl)
      as (Hdf & Hengine & _).
    by split.
Defined.

(** ** Crop types through the join *)

Lemma normalize_crop_trimmed (m : gmap string string) (c : cell) (s : string) :
  normalize_crop m c = CStr s → trimmed s.
Proof.
  destruct c as [|x|t]; simpl; [done..|].
  intros [= <-]. apply strip_trimmed.
Qed.

(** The corrections leave a field table able to take the mapping. *)
Lemma field_schema_corrected (d : DataFrame) (i j : nat)
    (m : gmap string string) :
  field_schema d →
  index_of "Elevation" (columns d) = Some i →
  index_of "Crop_type" (columns d) = Some j →
  field_schema (mkDF (columns d) (corrected_row i j m <$> rows d)).
Proof.
  intros (Hwf & Hnd & (s & Hs & Hnum) & Hu & Hw) Hi Hj.
  split; [|split; [done|split; [|done]]].
  { apply wf_df_insert; [apply corrected_row_length | by destruct d]. }
  exists s. split; [|done]. rewrite <- Hs. unfold df_get. simpl.
  destruct (index_of "Field_ID" (columns d)) as [k|] eqn:Hk; [|done].
  simpl. f_equal. rewrite map_map. apply map_ext. intros r.
  unfold corrected_row.
  assert (k ≠ i) by (intros ->; apply index_of_lookup in Hi, Hk; congruence).
  assert (k ≠ j) by (intros ->; apply index_of_lookup in Hj, Hk; congruence).
  by rewrite !list_lookup_insert_ne by done.
Qed.

(** X21: the two last steps of [process] together: when [apply_corrections]
    has returned on a field table that can take the mapping (distinct
    labels, numbers as [Field_ID]s, none of the columns the mapping brings),
    the join with a mapping table of the expected shape returns, and in the
    joined table, whatever rows the mapping repeated or left without
    station, every crop type that is a string neither begins nor ends with
    whitespace. *)
Theorem crop_types_trimmed_after_join `{DataIngestion}
    (self self1 : FieldDataProcessor) (d m : DataFrame) (a b : string) :
  df self = Some d → field_schema d →
  Field.apply_corrections self a b = Return self1 →
  read_from_web_CSV (weather_map_data self) = Return m →
  mapping_schema m →
  ∃ d2 self2 crops2,
    Field.weather_station_mapping self1 = Return (d2, self2) ∧
    crop_column self2 = Return crops2 ∧
    length crops2 = length (rows d2) ∧
    Forall (fun c => ∀ s, c = CStr s → trimmed s) crops2.
Proof.
  intros Hdf Hfs Hret Hread Hm.
  pose proof Hfs as (Hwf & Hnd & Hkey & Hu & Hw).
  destruct (apply_corrections_inv _ _ _ _ _ Hdf Hwf Hret)
    as (i & j & Hi & Hj & _ & _ & _ & ->).
  set (d1 := mkDF (columns d)
                  (corrected_row i j (values_to_rename self) <$> rows d)).
  assert (i ≠ j) as Hij.
  { intros ->. apply index_of_lookup in Hi, Hj. congruence. }
  pose proof (index_of_lt _ _ _ Hj) as Hjlt.
  assert (wf_df d1) as Hwf1.
  { apply wf_df_insert; [apply corrected_row_length | by destruct d]. }
  assert (field_schema d1) as Hfs1 by (by apply field_schema_corrected).
  destruct (index_of_elem "Field_ID" (columns d1)) as [k Hk];
    [exact (numeric_column_elem _ d Hkey)|].
  eexists _, _, _. split.
  { by apply (weather_station_mapping_rows _ d1 m k). }
  unfold crop_column, df_get. simpl.
  rewrite (index_of_app _ _ _ _ Hj). simpl.
  split; [reflexivity|]. split; [by rewrite length_map|].
  change (map ?f ?l) with (f <$> l).
  apply Forall_fmap, Forall_forall.
  intros r2 Hr2%list_elem_of_In. apply in_flat_map in Hr2 as (lr & Hlr & Hr2).
  apply list_elem_of_In in Hlr, Hr2.
  apply station_rows_shape in Hr2 as [w ->]. simpl.
  apply list_elem_of_fmap in Hlr as (r & -> & Hr).
  unfold wf_df in Hwf. rewrite Forall_forall in Hwf.
  pose proof (Hwf r Hr) as Hlen.
  rewrite lookup_app_l by (rewrite corrected_row_length; lia).
  rewrite corrected_row_crop by (done || lia).
  intros s. apply normalize_crop_trimmed.
Qed.

Lemma crop_types_trimmed_after_join_witness :
  ∃ d2 self2 crops2,
    @Field.weather_station_mapping sample_repeating_collaborators
      sample_corrected_processor = Return (d2, self2) ∧
    crop_column self2 = Return crops2 ∧
    length crops2 = length (rows d2) ∧
    Forall (fun c => ∀ s, c = CStr s → trimmed s) crops2.
Proof.
  apply (@crop_types_trimmed_after_join sample_repeating_collaborators
           sample_processor sample_corrected_processor
           sample_swapped_table sample_repeated_mapping
           "Crop_type" "Elevation").
  - reflexivity.
  - field_schema_holds.
  - reflexivity.
  - reflexivity.
  - mapping_schema_holds.
Defined.

(** ** Elevations through the join *)

(** X23: on a loaded table with distinct labels whose elevations are
    binary64 numbers (positive, negative or zero) and whose crop types are
    strings or [None], [apply_corrections] succeeds and leaves every
    elevation [>= 0]; and when the mapping step that follows in [process]
    joins a mapping table onto it, every row of the joined table has an
    elevation [>= 0] as well. *)
Theorem elevation_nonneg_after_corrections (self : FieldDataProcessor)
    (d : DataFrame) (elevations crops : list cell) (a b : string) :
  df self = Some d → wf_df d → NoDup (columns d) →
  df_get "Elevation" d = Return elevations →
  df_get "Crop_type" d = Return crops →
  Forall number_cell elevations →
  Forall (fun c => is_num c = false) crops →
  ∃ self1 es1,
    Field.apply_corrections self a b = Return self1 ∧
    elevation_column self1 = Return es1 ∧
    length es1 = length (rows d) ∧
    Forall nonneg_cell es1 ∧
    ∀ (ingestion : DataIngestion) (m : DataFrame),
      field_schema d →
      read_from_web_CSV (weather_map_data self1) = Return m →
      mapping_schema m →
      ∃ d2 self2 es2,
        Field.weather_station_mapping self1 = Return (d2, self2) ∧
        elevation_column self2 = Return es2 ∧
        length es2 = length (rows d2) ∧
        Forall nonneg_cell es2.
Proof.
  intros Hdf Hwf Hnd He Hc Hnum Hcrops.
  destruct (apply_corrections_columns self d elevations crops a b)
    as (self1 & d1 & Happ & Hdf1 & Hwf1 & Hcols1 & Hlen1 & He1 & _);
    [done.. | |done|].
  { eapply Forall_impl; [exact Hnum|]. by intros c (x & -> & _). }
  assert (Forall nonneg_cell (abs_number <$> elevations)) as Hnonneg.
  { apply Forall_fmap. eapply Forall_impl; [exact Hnum|].
    intros c Hc'. by apply abs_number_nonneg. }
  exists self1, (abs_number <$> elevations).
  split; [done|]. split; [done|]. split.
  { rewrite length_fmap. unfold df_get in He.
    destruct (index_of "Elevation" (columns d)); [|done].
    simpl in He. injection He as <-. by rewrite length_fmap. }
  split; [done|].
  intros ingestion m Hfs Hread Hm.
  destruct (apply_corrections_inv _ _ _ _ _ Hdf Hwf Happ)
    as (i0 & j0 & Hi0 & Hj0 & _ & _ & _ & ->).
  simpl in Hdf1. injection Hdf1 as <-.
  set (d1 := mkDF (columns d)
                  (corrected_row i0 j0 (values_to_rename self) <$> rows d))
    in *.
  assert (field_schema d1) as Hfs1 by (by apply field_schema_corrected).
  destruct (index_of_elem "Field_ID" (columns d)) as [i Hi].
  { apply numeric_column_elem. by destruct Hfs as (_ & _ & ? & _). }
  match goal with
  | |- context [Field.weather_station_mapping ?s] =>
      rewrite (weather_station_mapping_rows s d1 m i (eq_refl (Some d1))
                 Hfs1 Hi Hread Hm)
  end.
  unfold elevation_column in He1 |- *.
  simpl in He1 |- *. unfold df_get in He1 |- *. simpl in He1 |- *.
  destruct (index_of "Elevation" (columns d)) as [ie|] eqn:Hie; [|done].
  simpl in He1. injection He1 as He1.
  eexists _, _, _. split; [reflexivity|].
  simpl. rewrite (index_of_app _ _ _ _ Hie). simpl.
  split; [reflexivity|]. split; [by rewrite length_map|].
  change (map ?f ?l) with (f <$> l) in He1 |- *.
  rewrite <- He1 in Hnonneg. rewrite Forall_fmap in Hnonneg |- *.
  rewrite Forall_forall in Hnonneg |- *.
  intros r2 Hr2%list_elem_of_In. apply in_flat_map in Hr2 as (lr & Hlr & Hr2).
  apply list_elem_of_In in Hlr, Hr2.
  apply station_rows_shape in Hr2 as [w ->]. simpl.
  rewrite lookup_app_l.
  - by apply Hnonneg.
  - unfold wf_df in Hwf1. rewrite Forall_forall in Hwf1.
    rewrite (Hwf1 lr Hlr). by eapply index_of_lt.
Qed.

Lemma elevation_nonneg_after_corrections_witness :
  ∃ self1 es1 d2 self2 es2,
    Field.apply_corrections sample_processor "Crop_type" "Elevation"
    = Return self1 ∧
    elevation_column self1 = Return es1 ∧
    Forall nonneg_cell es1 ∧
    @Field.weather_station_mapping sample_collaborators self1
    = Return (d2, self2) ∧
    elevation_column self2 = Return es2 ∧
    length es2 = length (rows d2) ∧
    Forall nonneg_cell es2.
Proof.
  destruct (elevation_nonneg_after_corrections sample_processor
              sample_swapped_table
              [CNum (-5.5); CNum 3; CNum 0]%float
              [CStr " cassaval "; CStr "cassaval"; CStr "tea "]
              "Crop_type" "Elevation")
    as (self1 & es1 & Happ & He1 & _ & Hnonneg & Hjoin).
  - reflexivity.
  - repeat constructor.
  - by_evaluation.
  - reflexivity.
  - reflexivity.
  - repeat constructor;
      (eexists; split; [reflexivity | vm_compute; reflexivity]).
  - repeat constructor.
  - destruct (Hjoin sample_collaborators sample_mapping_table)
      as (d2 & self2 & es2 & Hmap & He2 & Hlen2 & Hnonneg2).
    + field_schema_holds.
    + vm_compute in Happ. injection Happ as <-. reflexivity.
    + mapping_schema_holds.
    + by exists self1, es1, d2, self2, es2.
Defined.

(** ** The means read the table *)

(** X22: [calculate_means] only reads the table: a call that returns leaves
    the table, the patterns and the location as they were, and a second call
    returns the same table of means. *)
Theorem calculate_means_reads_only (self self' : WeatherDataProcessor)
    (p : option Weather.Pivot) :
  Weather.calculate_means self = Return (p, self') →
  weather_view self' = weather_view self ∧
  ∃ self'', Weather.calculate_means self' = Return (p, self'') ∧
            weather_view self'' = weather_view self.
Proof.
  intros Hret. destruct (weather_df self) as [d|] eqn:Hdf.
  - destruct (calculate_means_inv _ _ _ _ Hdf Hret)
      as (stations & kinds & values & readings & Hby & Hs & Hk & Hv & Hr
          & -> & ->).
    unfold weather_view, Weather.calculate_means. simpl. rewrite Hdf.
    split; [done|]. rewrite Hby, Hs, Hk, Hv, !bind_ret, Hr, bind_ret.
    eexists. split; [reflexivity|]. simpl. by rewrite Hdf.
  - unfold Weather.calculate_means in *. rewrite Hdf in Hret.
    injection Hret as <- <-. unfold weather_view. simpl. rewrite Hdf.
    split; [done|]. eexists. split; [reflexivity|]. simpl. by rewrite Hdf.
Qed.

Lemma calculate_means_reads_only_witness :
  weather_view
    (Weather.weather_logged sample_measured INFO "Mean values calculated.")
  = weather_view sample_measured ∧
  ∃ self'',
    Weather.calculate_means
      (Weather.weather_logged sample_measured INFO "Mean values calculated.")
    = Return (Some (Weather.mkPivot [CNum 0%float] [CStr "Rainfall"]
                      [[23.5%float]]), self'') ∧
    weather_view self'' = weather_view sample_measured.
Proof.
  apply (calculate_means_reads_only sample_measured
           (Weather.weather_logged sample_measured INFO
              "Mean values calculated.")
           (Some (Weather.mkPivot [CNum 0%float] [CStr "Rainfall"]
                    [[23.5%float]]))).
  reflexivity.
Defined.
